(** * pgmetrics log reader: a shallow embedding of [collector/log.go]

    The development follows the source file top to bottom:
    - [GoString]: the byte-string operations of Go's [strings] package
      that the collector calls;
    - [Regexp]: the fragment of Go's [regexp] package (RE2 syntax,
      leftmost-first matching with submatches) that the collector's
      patterns live in;
    - [Strconv], [GoTime]: [strconv.ParseInt], [strconv.ParseFloat] and
      the [time] operations used by the timestamp decoder;
    - [Collector]: [compilePrefix], [getMatchData], [firstTS],
      [processLogLine], [processLogEntry], [processAE], [processAV],
      [processDeadlock] and [readLogLines];
    - the properties of the log reader, one theorem per claim. *)

From Stdlib Require Import ZArith NArith List Bool Ascii String Lia SpecFloat.
Import ListNotations.

Local Open Scope string_scope.

(* ------------------------------------------------------------------ *)
(** ** Byte strings *)
(* ------------------------------------------------------------------ *)

Module GoString.

(** Go strings and [[]byte] are byte sequences; [string] over [ascii]
    (one [ascii] = one byte) is the same carrier. *)

Definition dq : string := String "034"%char "".
Definition nl : string := String "010"%char "".
Definition tab : string := String "009"%char "".

Definition byte_le (a b : ascii) : bool := (N_of_ascii a <=? N_of_ascii b)%N.

Definition isDigit (c : ascii) : bool := byte_le "0" c && byte_le c "9".

Definition digitVal (c : ascii) : Z := Z.of_N (N_of_ascii c) - 48.

(** [s[n:]] *)
Fixpoint drop (n : nat) (s : string) : string :=
  match n, s with
  | S n', String _ s' => drop n' s'
  | _, _ => s
  end.

(** [s[:n]] *)
Fixpoint take (n : nat) (s : string) : string :=
  match n, s with
  | S n', String c s' => String c (take n' s')
  | _, _ => ""
  end.

(** [s[i:j]] *)
Definition slice (i j : nat) (s : string) : string := take (j - i) (drop i s).

Fixpoint HasPrefix (s p : string) {struct p} : bool :=
  match p, s with
  | "", _ => true
  | String a p', String b s' => Ascii.eqb a b && HasPrefix s' p'
  | _, _ => false
  end.

Fixpoint all_bytes (f : ascii -> bool) (s : string) : bool :=
  match s with
  | "" => true
  | String c s' => f c && all_bytes f s'
  end.

(** [strings.Split(s, sep)] for a one-byte separator: always a non-empty
    list, one more element than there are separators. *)
Fixpoint Split1 (sep : ascii) (s : string) : string * list string :=
  match s with
  | "" => ("", [])
  | String c s' =>
      let '(hd, tl) := Split1 sep s' in
      if Ascii.eqb c sep then ("", hd :: tl) else (String c hd, tl)
  end.

Definition Split (s : string) (sep : ascii) : list string :=
  let '(hd, tl) := Split1 sep s in hd :: tl.

(** [strings.SplitN(s, sep, 2)] for a one-byte separator. *)
Fixpoint SplitN2 (s : string) (sep : ascii) : list string :=
  match s with
  | "" => [""]
  | String c s' =>
      if Ascii.eqb c sep then [""; s']
      else match SplitN2 s' sep with
           | [a] => [String c a]
           | a :: rest => String c a :: rest
           | [] => []
           end
  end.

(** [strings.ReplaceAll(s, old, new)] for a one-byte [old]: every
    occurrence of the byte is replaced, left to right. *)
Fixpoint ReplaceAll (s : string) (old : ascii) (new : string) : string :=
  match s with
  | "" => ""
  | String c s' =>
      if Ascii.eqb c old then new ++ ReplaceAll s' old new
      else String c (ReplaceAll s' old new)
  end.

End GoString.

(* ------------------------------------------------------------------ *)
(** ** Regular expressions (Go's [regexp], RE2 syntax) *)
(* ------------------------------------------------------------------ *)

Module Regexp.
Import GoString.

(** The fragment covers everything [compilePrefix] can emit and the five
    package-level patterns: literals, escapes, bracket and Perl classes,
    [.], [^], [$], groups (capturing, named, non-capturing), [|] and the
    greedy repetitions [*], [+], [?], [{n}], [{n,}], [{n,m}].  Patterns
    are matched byte by byte. *)

Definition range := (ascii * ascii)%type.

Inductive regex : Type :=
| Eps
| Lit (c : ascii)
| Cls (neg : bool) (rs : list range)
| Bol
| Eol
| Cat (a b : regex)
| Alt (a b : regex)
| Rep (r : regex) (lo : nat) (hi : option nat)
| Grp (i : nat) (r : regex).

(** Go's [syntax.ErrorCode]; [ErrUnsupported] marks syntax that Go
    accepts or rejects but that lies outside the fragment. *)
Inductive ErrorCode : Type :=
| ErrInvalidCharRange
| ErrInvalidEscape
| ErrInvalidNamedCapture
| ErrInvalidRepeatOp
| ErrInvalidRepeatSize
| ErrMissingBracket
| ErrMissingParen
| ErrMissingRepeatArgument
| ErrTrailingBackslash
| ErrUnexpectedParen
| ErrUnsupported.

(** *** Lexer *)

Inductive token : Type :=
| TAtom (r : regex)
| TOpen (name : option string)   (* [None]: [(?:]; [Some ""]: [(] *)
| TClose
| TBar
| TRep (lo : nat) (hi : option nat).

Definition digit_rs : list range := [("0", "9")]%char.
Definition space_rs : list range :=
  [("009", "010"); ("012", "013"); (" ", " ")]%char.
Definition word_rs : list range :=
  [("0", "9"); ("A", "Z"); ("a", "z"); ("_", "_")]%char.

Definition perl_class (e : ascii) : option (bool * list range) :=
  if Ascii.eqb e "d" then Some (false, digit_rs)
  else if Ascii.eqb e "D" then Some (true, digit_rs)
  else if Ascii.eqb e "s" then Some (false, space_rs)
  else if Ascii.eqb e "S" then Some (true, space_rs)
  else if Ascii.eqb e "w" then Some (false, word_rs)
  else if Ascii.eqb e "W" then Some (true, word_rs)
  else None.

Definition isalnum (c : ascii) : bool :=
  (byte_le "0" c && byte_le c "9") || (byte_le "A" c && byte_le c "Z")
  || (byte_le "a" c && byte_le c "z").

(** A backslash followed by [e], as a single byte. *)
Definition escape_byte (e : ascii) : option ascii :=
  if Ascii.eqb e "n" then Some "010"%char
  else if Ascii.eqb e "t" then Some "009"%char
  else if Ascii.eqb e "r" then Some "013"%char
  else if Ascii.eqb e "f" then Some "012"%char
  else if Ascii.eqb e "v" then Some "011"%char
  else if Ascii.eqb e "a" then Some "007"%char
  else if byte_le e "127" && negb (isalnum e) then Some e
  else None.

(** One member of a bracket expression: the byte and the rest. *)
Definition class_byte (s : string) : ErrorCode + (ascii * string) :=
  match s with
  | "" => inl ErrMissingBracket
  | String c s' =>
      if Ascii.eqb c "\" then
        match s' with
        | "" => inl ErrTrailingBackslash
        | String e s'' =>
            match escape_byte e with
            | Some b => inr (b, s'')
            | None => inl ErrInvalidEscape
            end
        end
      else inr (c, s')
  end.

(** The members of [[...]] after the optional [^]; [first] allows a
    leading [[]]] to stand for itself. *)
Fixpoint lexClass (fuel : nat) (first : bool) (acc : list range) (s : string)
  : ErrorCode + (list range * string) :=
  match fuel with
  | 0 => inl ErrMissingBracket
  | S fuel' =>
      match s with
      | "" => inl ErrMissingBracket
      | String c s' =>
          if Ascii.eqb c "]" && negb first then inr (rev acc, s')
          else if Ascii.eqb c "[" && HasPrefix s' ":" then inl ErrUnsupported
          else
            let perl :=
              if Ascii.eqb c "\" then
                match s' with
                | String e s'' =>
                    match perl_class e with
                    | Some p => Some (p, s'')
                    | None => None
                    end
                | "" => None
                end
              else None in
            match perl with
            | Some ((false, rs), s'') => lexClass fuel' false (rev rs ++ acc) s''
            | Some ((true, _), _) => inl ErrUnsupported
            | None =>
                match class_byte s with
                | inl e => inl e
                | inr (lo, r1) =>
                    match r1 with
                    | String d r2 =>
                        if Ascii.eqb d "-" && negb (HasPrefix r2 "]") then
                          match class_byte r2 with
                          | inl e => inl e
                          | inr (hi, r3) =>
                              if byte_le lo hi
                              then lexClass fuel' false ((lo, hi) :: acc) r3
                              else inl ErrInvalidCharRange
                          end
                        else lexClass fuel' false ((lo, lo) :: acc) r1
                    | "" => inl ErrMissingBracket
                    end
                end
            end
      end
  end.

(** Leading decimal digits of [s]. *)
Fixpoint lexNat (acc : nat) (s : string) : nat * string :=
  match s with
  | String c s' =>
      if isDigit c then lexNat (10 * acc + Z.to_nat (digitVal c)) s' else (acc, s)
  | "" => (acc, s)
  end.

(** [{n}], [{n,}] or [{n,m}] after the opening brace; [None] when the
    text is not a repetition, in which case the brace is a literal. *)
Definition lexRepeat (s : string) : option (nat * option nat * string) :=
  match s with
  | String c _ =>
      if isDigit c then
        let '(n, r1) := lexNat 0 s in
        match r1 with
        | String d r2 =>
            if Ascii.eqb d "}" then Some (n, Some n, r2)
            else if Ascii.eqb d "," then
              match r2 with
              | String e r3 =>
                  if Ascii.eqb e "}" then Some (n, None, r3)
                  else if isDigit e then
                    let '(m, r4) := lexNat 0 r2 in
                    match r4 with
                    | String f r5 =>
                        if Ascii.eqb f "}" then Some (n, Some m, r5) else None
                    | "" => None
                    end
                  else None
              | "" => None
              end
            else None
        | "" => None
        end
      else None
  | "" => None
  end.

(** The name of [(?P<name>]: bytes up to the closing [>]. *)
Fixpoint lexName (s : string) : option (string * string) :=
  match s with
  | "" => None
  | String c s' =>
      if Ascii.eqb c ">" then Some ("", s')
      else if isalnum c || Ascii.eqb c "_" then
        match lexName s' with
        | Some (n, r) => Some (String c n, r)
        | None => None
        end
      else None
  end.

Definition lex1 (s : string) : ErrorCode + (token * string) :=
  match s with
  | "" => inl ErrUnsupported
  | String c s' =>
      if Ascii.eqb c "\" then
        match s' with
        | "" => inl ErrTrailingBackslash
        | String e s'' =>
            match perl_class e with
            | Some (neg, rs) => inr (TAtom (Cls neg rs), s'')
            | None =>
                match escape_byte e with
                | Some b => inr (TAtom (Lit b), s'')
                | None => inl ErrUnsupported
                end
            end
        end
      else if Ascii.eqb c "[" then
        let '(neg, body) :=
          match s' with
          | String d r => if Ascii.eqb d "^" then (true, r) else (false, s')
          | "" => (false, s')
          end in
        match lexClass (String.length body) true [] body with
        | inl e => inl e
        | inr (rs, r) => inr (TAtom (Cls neg rs), r)
        end
      else if Ascii.eqb c "(" then
        if HasPrefix s' "?P<" then
          match lexName (drop 3 s') with
          | Some (String n0 n, r) => inr (TOpen (Some (String n0 n)), r)
          | _ => inl ErrInvalidNamedCapture
          end
        else if HasPrefix s' "?:" then inr (TOpen None, drop 2 s')
        else if HasPrefix s' "?" then inl ErrUnsupported
        else inr (TOpen (Some ""), s')
      else if Ascii.eqb c ")" then inr (TClose, s')
      else if Ascii.eqb c "|" then inr (TBar, s')
      else if Ascii.eqb c "*" then inr (TRep 0 None, s')
      else if Ascii.eqb c "+" then inr (TRep 1 None, s')
      else if Ascii.eqb c "?" then inr (TRep 0 (Some 1), s')
      else if Ascii.eqb c "{" then
        match lexRepeat s' with
        | Some (lo, hi, r) =>
            if Nat.ltb 1000 lo || match hi with
                                   | Some h => Nat.ltb 1000 h || Nat.ltb h lo
                                   | None => false
                                   end
            then inl ErrInvalidRepeatSize
            else inr (TRep lo hi, r)
        | None => inr (TAtom (Lit c), s')
        end
      else if Ascii.eqb c "." then inr (TAtom (Cls true [("010", "010")]%char), s')
      else if Ascii.eqb c "^" then inr (TAtom Bol, s')
      else if Ascii.eqb c "$" then inr (TAtom Eol, s')
      else inr (TAtom (Lit c), s')
  end.

Fixpoint lex (fuel : nat) (s : string) : ErrorCode + list token :=
  match s with
  | "" => inr []
  | _ =>
      match fuel with
      | 0 => inl ErrUnsupported
      | S fuel' =>
          match lex1 s with
          | inl e => inl e
          | inr (t, r) =>
              match lex fuel' r with
              | inl e => inl e
              | inr ts => inr (t :: ts)
              end
          end
      end
  end.

(** *** Parser

    Go's parser is a stack machine over the pattern; so is this one, over
    the tokens.  A frame holds the alternatives completed so far and the
    factors of the alternative under construction, both most recent first. *)

Record frame : Type := mkFrame {
  f_grp : option nat;
  f_alts : list regex;
  f_cur : list regex
}.

Record pstate : Type := mkP {
  p_ncap : nat;
  p_names : list string;
  p_top : frame;
  p_stack : list frame;
  p_lastq : bool
}.

Definition mkCat (factors : list regex) : regex :=
  fold_left (fun acc r => match acc with Eps => r | _ => Cat r acc end) factors Eps.

Definition mkAlt (alts : list regex) : regex :=
  match alts with
  | [] => Eps
  | a :: rest => fold_left (fun acc r => Alt r acc) rest a
  end.

Definition closeFrame (f : frame) : regex := mkAlt (mkCat (f_cur f) :: f_alts f).

Definition pushAtom (r : regex) (q : bool) (st : pstate) : pstate :=
  let f := p_top st in
  mkP (p_ncap st) (p_names st)
      (mkFrame (f_grp f) (f_alts f) (r :: f_cur f)) (p_stack st) q.

Definition pstep (st : pstate) (t : token) : ErrorCode + pstate :=
  let f := p_top st in
  match t with
  | TAtom r => inr (pushAtom r false st)
  | TRep lo hi =>
      if p_lastq st then inl ErrInvalidRepeatOp
      else match f_cur f with
           | [] => inl ErrMissingRepeatArgument
           | r :: rest =>
               inr (mkP (p_ncap st) (p_names st)
                        (mkFrame (f_grp f) (f_alts f) (Rep r lo hi :: rest))
                        (p_stack st) true)
           end
  | TOpen None =>
      inr (mkP (p_ncap st) (p_names st) (mkFrame None [] []) (f :: p_stack st) false)
  | TOpen (Some name) =>
      let i := S (p_ncap st) in
      inr (mkP i (name :: p_names st) (mkFrame (Some i) [] []) (f :: p_stack st) false)
  | TBar =>
      inr (mkP (p_ncap st) (p_names st)
               (mkFrame (f_grp f) (mkCat (f_cur f) :: f_alts f) [])
               (p_stack st) false)
  | TClose =>
      match p_stack st with
      | [] => inl ErrUnexpectedParen
      | outer :: stk =>
          let body := closeFrame f in
          let item := match f_grp f with Some i => Grp i body | None => body end in
          inr (mkP (p_ncap st) (p_names st)
                   (mkFrame (f_grp outer) (f_alts outer) (item :: f_cur outer))
                   stk false)
      end
  end.

Fixpoint parseTokens (st : pstate) (ts : list token) : ErrorCode + pstate :=
  match ts with
  | [] => inr st
  | t :: ts' =>
      match pstep st t with
      | inl e => inl e
      | inr st' => parseTokens st' ts'
      end
  end.

(** A compiled pattern: the expression and [SubexpNames()], whose entry
    0 is the empty name of the whole match. *)
Record Regexp : Type := mkRegexp {
  expr : regex;
  SubexpNames : list string
}.

Definition NumSubexp (re : Regexp) : nat := pred (List.length (SubexpNames re)).

Definition Compile (pattern : string) : ErrorCode + Regexp :=
  match lex (String.length pattern) pattern with
  | inl e => inl e
  | inr ts =>
      match parseTokens (mkP 0 [] (mkFrame None [] []) [] false) ts with
      | inl e => inl e
      | inr st =>
          match p_stack st with
          | [] => inr (mkRegexp (closeFrame (p_top st)) ("" :: rev (p_names st)))
          | _ :: _ => inl ErrMissingParen
          end
      end
  end.

(** [regexp.MustCompile] panics on a bad pattern; the package-level
    patterns are shown below to compile, so the fallback is never taken. *)
Definition MustCompile (pattern : string) : Regexp :=
  match Compile pattern with
  | inr re => re
  | inl _ => mkRegexp Eps [""]
  end.

(** [regexp.QuoteMeta] of one byte. *)
Definition isMeta (c : ascii) : bool :=
  existsb (Ascii.eqb c)
    (list_ascii_of_string "\.+*?()|[]{}^$").

Definition QuoteMeta1 (c : ascii) : string :=
  if isMeta c then String "\" (String c "") else String c "".

(** *** Matcher

    Backtracking with Go's leftmost-first preference: [run r st] lists
    every way [r] can match at [st], most preferred first. *)

Record mstate : Type := mkM {
  m_pos : nat;
  m_rest : string;
  m_caps : list (nat * (nat * nat))
}.

Definition in_range (c : ascii) (r : range) : bool :=
  byte_le (fst r) c && byte_le c (snd r).

Definition in_class (neg : bool) (rs : list range) (c : ascii) : bool :=
  xorb neg (existsb (in_range c) rs).

Definition eat (p : ascii -> bool) (st : mstate) : list mstate :=
  match m_rest st with
  | String c s' => if p c then [mkM (S (m_pos st)) s' (m_caps st)] else []
  | "" => []
  end.

(** Greedy repetition of a step function: one more round is preferred to
    stopping; a round that is not required must consume input. *)
Fixpoint rep_iter (f : mstate -> list mstate) (fuel lo : nat) (hi : option nat)
  (st : mstate) : list mstate :=
  match fuel with
  | 0 => []
  | S fuel' =>
      let again :=
        match hi with
        | Some 0 => []
        | _ =>
            flat_map
              (fun st' =>
                 if Nat.eqb lo 0 && Nat.eqb (m_pos st') (m_pos st) then []
                 else rep_iter f fuel' (pred lo) (option_map pred hi) st')
              (f st)
        end in
      again ++ (if Nat.eqb lo 0 then [st] else [])
  end.

Fixpoint run (r : regex) (st : mstate) : list mstate :=
  match r with
  | Eps => [st]
  | Lit c => eat (Ascii.eqb c) st
  | Cls neg rs => eat (in_class neg rs) st
  | Bol => if Nat.eqb (m_pos st) 0 then [st] else []
  | Eol => match m_rest st with "" => [st] | _ => [] end
  | Cat a b => flat_map (run b) (run a st)
  | Alt a b => run a st ++ run b st
  | Rep r' lo hi => rep_iter (run r') (S (lo + String.length (m_rest st))) lo hi st
  | Grp i r' =>
      map (fun st' => mkM (m_pos st') (m_rest st')
                          ((i, (m_pos st, m_pos st')) :: m_caps st'))
          (run r' st)
  end.

(** Leftmost match: the first start position with a match, and there the
    most preferred one.  Returns the start and the final state. *)
Fixpoint search (r : regex) (p : nat) (s : string) : option (nat * mstate) :=
  match run r (mkM p s []) with
  | st :: _ => Some (p, st)
  | [] =>
      match s with
      | "" => None
      | String _ s' => search r (S p) s'
      end
  end.

Fixpoint lookupCap (i : nat) (caps : list (nat * (nat * nat))) : option (nat * nat) :=
  match caps with
  | [] => None
  | (j, span) :: rest => if Nat.eqb i j then Some span else lookupCap i rest
  end.

(** [re.FindIndex(b)]: [nil] or the two-element location of the match. *)
Definition FindIndex (re : Regexp) (b : string) : option (nat * nat) :=
  match search (expr re) 0 b with
  | Some (p, st) => Some (p, m_pos st)
  | None => None
  end.

(** [re.FindSubmatch(b)]: [nil], or one slice per subexpression, [nil]
    (here [None]) for a group that took no part in the match. *)
Definition FindSubmatch (re : Regexp) (b : string) : option (list (option string)) :=
  match search (expr re) 0 b with
  | Some (p, st) =>
      Some (Some (slice p (m_pos st) b)
            :: map (fun i => match lookupCap i (m_caps st) with
                             | Some (a, z) => Some (slice a z b)
                             | None => None
                             end)
                   (seq 1 (NumSubexp re)))
  | None => None
  end.

(** [re.FindStringSubmatch(s)]: as above with [""] for an absent group. *)
Definition FindStringSubmatch (re : Regexp) (s : string) : option (list string) :=
  option_map (map (fun o => match o with Some x => x | None => "" end))
             (FindSubmatch re s).

Definition MatchString (re : Regexp) (s : string) : bool :=
  match search (expr re) 0 s with Some _ => true | None => false end.

End Regexp.

(* ------------------------------------------------------------------ *)
(** ** What the host supplies *)
(* ------------------------------------------------------------------ *)

(** The collector calls into three things that are neither in the file
    nor fixed by the language: the process's local time zone (consulted
    by [time.Parse] for a zone abbreviation), the result of converting an
    out-of-range [float64] to [int64] (implementation-dependent in Go),
    and [encoding/json].  They are taken as given. *)
Class Host : Type := {
  (** [Local.lookupName(name, unix)]: the offset east of UTC in seconds. *)
  localZoneOffset : string -> Z -> option Z;
  floatToInt64Overflow : Z;
  (** [map[string]interface{}] as produced by [json.Unmarshal]. *)
  jsonObj : Type;
  json_Unmarshal : string -> option jsonObj;
  (** [obj[key]]: absent, or present and then a string or not. *)
  json_lookup : jsonObj -> string -> option (option string);
  json_delete : jsonObj -> string -> jsonObj;
  json_Marshal : jsonObj -> option string
}.

(* ------------------------------------------------------------------ *)
(** ** [strconv] and machine arithmetic *)
(* ------------------------------------------------------------------ *)

Module Strconv.
Import GoString.

Local Open Scope Z_scope.

Definition wrap64 (z : Z) : Z := (z + 2 ^ 63) mod 2 ^ 64 - 2 ^ 63.

Fixpoint digitsVal (acc : Z) (s : string) : Z :=
  match s with
  | "" => acc
  | String c s' => digitsVal (10 * acc + digitVal c) s'
  end.

(** [strconv.ParseInt(s, 10, 64)]: [None] for a syntax or range error. *)
Definition ParseInt (s : string) : option Z :=
  let '(neg, body) :=
    match s with
    | String c s' =>
        if Ascii.eqb c "-" then (true, s')
        else if Ascii.eqb c "+" then (false, s')
        else (false, s)
    | "" => (false, s)
    end in
  match body with
  | "" => None
  | _ =>
      if all_bytes isDigit body then
        let v := if neg then - digitsVal 0 body else digitsVal 0 body in
        if (- 2 ^ 63 <=? v) && (v <? 2 ^ 63) then Some v else None
      else None
  end.

(** The [float64] nearest to an integer (ties to even), as an integer. *)
Definition roundFloat64 (z : Z) : Z :=
  let a := Z.abs z in
  if a <? 2 ^ 53 then z
  else
    let e := Z.log2 a - 52 in
    let q := a / 2 ^ e in
    let r := a mod 2 ^ e in
    let half := 2 ^ (e - 1) in
    let q' := if (half <? r) || ((r =? half) && Z.odd q) then q + 1 else q in
    Z.sgn z * (q' * 2 ^ e).

(** [int64(float64(n) * 1e9)] *)
Definition scaleE9 `{Host} (n : Z) : Z :=
  let v := roundFloat64 (roundFloat64 n * 1000000000) in
  if (- 2 ^ 63 <=? v) && (v <? 2 ^ 63) then v else floatToInt64Overflow.

(** A [float64] value, as IEEE 754 has it: a zero, an infinity, or
    [m * 2^e] with [m] of at most 53 bits and [-1074 <= e <= 971]. *)
Definition float64 : Type := spec_float.

(** [n / d] with the power of two [2^e] divided out, as a fraction. *)
Definition scaled (n d e : Z) : Z * Z :=
  (n * 2 ^ Z.max 0 (- e), d * 2 ^ Z.max 0 e).

(** The integer nearest to [num / den], ties to the even one. *)
Definition roundHalfEven (num den : Z) : Z :=
  let q := num / den in
  let r := num mod den in
  if (den <? 2 * r) || ((2 * r =? den) && Z.odd q) then q + 1 else q.

(** The exponent of the [float64] nearest to [n / d]: the one that
    leaves 53 bits in front of the binary point, and no less than -1074
    (below it the value is subnormal and keeps fewer bits). *)
Definition exponent64 (n d : Z) : Z :=
  let e0 := Z.log2 n - Z.log2 d - 52 in
  let '(n0, d0) := scaled n d e0 in
  Z.max (if n0 / d0 <? 2 ^ 52 then e0 - 1 else e0) (-1074).

(** The [float64] nearest to the fraction [n / d] ([0 <= n], [0 < d]),
    ties to the even mantissa; a mantissa rounded up to [2^53] moves to
    the next exponent; a value past the largest [float64] gives [+Inf]. *)
Definition nearestFloat64 (n d : Z) : float64 :=
  if n <=? 0 then S754_zero false
  else
    let e := exponent64 n d in
    let '(num, den) := scaled n d e in
    let q := roundHalfEven num den in
    let '(m, e) := if q =? 2 ^ 53 then (2 ^ 52, e + 1) else (q, e) in
    if m =? 0 then S754_zero false
    else if 971 <? e then S754_infinity false
    else S754_finite false (Z.to_pos m) e.

(** [strconv.ParseFloat(s, 64)] on text over digits and dots, which is
    all [rxAVElapsed] can capture: the nearest [float64] to the decimal,
    and whether the text is one (digits with at most one dot and at
    least one digit).  For text that is no decimal Go returns 0 with the
    error, and for a decimal past the range [+Inf] with the error; the
    caller drops the error. *)
Definition ParseFloat (s : string) : float64 * bool :=
  match Split s "." with
  | [i] =>
      if all_bytes isDigit i && negb (String.eqb i "")
      then (nearestFloat64 (digitsVal 0 i) 1, true) else (S754_zero false, false)
  | [i; f] =>
      if all_bytes isDigit i && all_bytes isDigit f
         && negb (String.eqb (i ++ f) "")
      then (nearestFloat64 (digitsVal 0 (i ++ f)) (10 ^ Z.of_nat (String.length f)),
            true)
      else (S754_zero false, false)
  | _ => (S754_zero false, false)
  end.

Local Close Scope Z_scope.

End Strconv.

(* ------------------------------------------------------------------ *)
(** ** [time] *)
(* ------------------------------------------------------------------ *)

Module GoTime.
Import GoString Strconv.

Local Open Scope Z_scope.

(** A [time.Time] without its location: [ext] counts seconds since
    January 1 of year 1, 00:00 UTC, as Go does, so that the zero value
    is the zero [Time]. *)
Record Time : Type := mkTime { ext : Z; nsec : Z }.

Definition unixToInternal : Z := 62135596800.

Definition zeroTime : Time := mkTime 0 0.

Definition IsZero (t : Time) : bool := (ext t =? 0) && (nsec t =? 0).

Definition Before (t u : Time) : bool :=
  (ext t <? ext u) || ((ext t =? ext u) && (nsec t <? nsec u)).

(** [t.Unix()] *)
Definition UnixOf (t : Time) : Z := wrap64 (ext t - unixToInternal).

(** [time.Unix(sec, nsec)] *)
Definition Unix (sec ns : Z) : Time :=
  let '(sec, ns) :=
    if (ns <? 0) || (1000000000 <=? ns) then
      let n := Z.quot ns 1000000000 in
      let sec := wrap64 (sec + n) in
      let ns := ns - n * 1000000000 in
      if ns <? 0 then (wrap64 (sec - 1), ns + 1000000000) else (sec, ns)
    else (sec, ns) in
  mkTime (wrap64 (sec + unixToInternal)) ns.

(** [t.Add(d)] for a [time.Duration] [d] in nanoseconds. *)
Definition Add (t : Time) (d : Z) : Time :=
  let dsec := Z.quot d 1000000000 in
  let ns := nsec t + Z.rem d 1000000000 in
  let '(dsec, ns) :=
    if 1000000000 <=? ns then (dsec + 1, ns - 1000000000)
    else if ns <? 0 then (dsec - 1, ns + 1000000000)
    else (dsec, ns) in
  mkTime (ext t + dsec) ns.

Definition Minute : Z := 60 * 1000000000.

(** *** [time.Parse] for the two layouts of the collector *)

Definition layoutT : string := "2006-01-02 15:04:05 MST".
Definition layoutM : string := "2006-01-02 15:04:05.000 MST".

Definition isLeap (y : Z) : bool :=
  (y mod 4 =? 0) && (negb (y mod 100 =? 0) || (y mod 400 =? 0)).

Definition daysIn (m y : Z) : Z :=
  if m =? 2 then (if isLeap y then 29 else 28)
  else if (m =? 4) || (m =? 6) || (m =? 9) || (m =? 11) then 30
  else 31.

(** Days from 1970-01-01 to the given civil date. *)
Definition daysFromCivil (y m d : Z) : Z :=
  let y := if m <=? 2 then y - 1 else y in
  let era := y / 400 in
  let yoe := y - era * 400 in
  let mp := if 2 <? m then m - 3 else m + 9 in
  let doy := (153 * mp + 2) / 5 + d - 1 in
  let doe := yoe * 365 + yoe / 4 - yoe / 100 + doy in
  era * 146097 + doe - 719468.

(** [time.Date(y, m, d, h, mi, s, ns, time.UTC)] for fields in range. *)
Definition DateUTC (y m d h mi s ns : Z) : Time :=
  mkTime (daysFromCivil y m d * 86400 + h * 3600 + mi * 60 + s + unixToInternal) ns.

Definition bind {A B : Type} (o : option A) (k : A -> option B) : option B :=
  match o with Some a => k a | None => None end.

Notation "x <- e ;; k" := (bind e (fun x => k))
  (at level 61, e at next level, right associativity).
Notation "' p <- e ;; k" := (bind e (fun x => let p := x in k))
  (at level 61, p pattern, e at next level, right associativity).

Definition guard (b : bool) : option unit := if b then Some tt else None.

(** [getnum(s, fixed)]: one or two digits, exactly two when [fixed]. *)
Definition getnum (s : string) (fixed : bool) : option (Z * string) :=
  match s with
  | String a s' =>
      if isDigit a then
        match s' with
        | String b s'' =>
            if isDigit b then Some (digitVal a * 10 + digitVal b, s'')
            else if fixed then None else Some (digitVal a, s')
        | "" => if fixed then None else Some (digitVal a, s')
        end
      else None
  | "" => None
  end.

(** [skip(value, prefix)] for a one-byte literal other than a space. *)
Definition skipByte (c : ascii) (value : string) : option string :=
  match value with
  | String a s' => if Ascii.eqb a c then Some s' else None
  | "" => None
  end.

Fixpoint cutspace (s : string) : string :=
  match s with
  | String " " s' => cutspace s'
  | _ => s
  end.

(** [skip(value, " ")]: a space in the layout stands for any number of
    spaces, and for the end of the value. *)
Definition skipSpace (value : string) : option string :=
  match value with
  | "" => Some ""
  | String a _ => if Ascii.eqb a " " then Some (cutspace value) else None
  end.

Fixpoint spanDigits (s : string) : string * string :=
  match s with
  | String c s' =>
      if isDigit c then let '(d, r) := spanDigits s' in (String c d, r) else ("", s)
  | "" => ("", "")
  end.

Definition commaOrPeriod (c : ascii) : bool := Ascii.eqb c "." || Ascii.eqb c ",".

(** [atoi] of the [time] package: an optional sign, then digits only. *)
Definition atoi (s : string) : option Z :=
  let '(neg, body) :=
    match s with
    | String c s' =>
        if Ascii.eqb c "-" then (true, s')
        else if Ascii.eqb c "+" then (false, s')
        else (false, s)
    | "" => (false, s)
    end in
  match body with
  | "" => None
  | _ => if all_bytes isDigit body
         then Some (if neg then - digitsVal 0 body else digitsVal 0 body)
         else None
  end.

(** [parseNanoseconds(value, nbytes)]: [value] starts at the separator. *)
Definition parseNanoseconds (value : string) (nbytes : nat) : option Z :=
  match value with
  | String c _ =>
      _ <- guard (commaOrPeriod c) ;;
      let nbytes := Nat.min nbytes 10 in
      ns <- atoi (slice 1 nbytes value) ;;
      _ <- guard (0 <=? ns) ;;
      Some (ns * 10 ^ Z.of_nat (10 - nbytes))
  | "" => None
  end.

(** [parseSignedOffset]: the length of a leading [+hh] or [-hh], or 0. *)
Definition parseSignedOffset (value : string) : nat :=
  match value with
  | String sign r =>
      if Ascii.eqb sign "-" || Ascii.eqb sign "+" then
        let '(d, _) := spanDigits r in
        match d with
        | "" => 0%nat
        | _ => if 23 <? digitsVal 0 d then 0%nat else S (String.length d)
        end
      else 0%nat
  | "" => 0%nat
  end.

Definition isUpper (c : ascii) : bool := byte_le "A" c && byte_le c "Z".

Fixpoint countUpper (n : nat) (s : string) : nat :=
  match n, s with
  | S n', String c s' => if isUpper c then S (countUpper n' s') else 0%nat
  | _, _ => 0%nat
  end.

(** [parseTimeZone]: the length of the zone abbreviation at the head of
    [value], when there is one. *)
Definition parseTimeZone (value : string) : option nat :=
  if Nat.ltb (String.length value) 3 then None
  else if HasPrefix value "ChST" || HasPrefix value "MeST" then Some 4%nat
  else if HasPrefix value "GMT" then
    Some (match drop 3 value with
          | "" => 3%nat
          | r => (3 + parseSignedOffset r)%nat
          end)
  else if HasPrefix value "+" || HasPrefix value "-" then
    match parseSignedOffset value with
    | 0%nat => None
    | n => Some n
    end
  else
    match countUpper 6 value with
    | 5%nat => if HasPrefix (drop 4 value) "T" then Some 5%nat else None
    | 4%nat => if HasPrefix (drop 3 value) "T" || HasPrefix value "WITA"
               then Some 4%nat else None
    | 3%nat => Some 3%nat
    | _ => None
    end.

(** [time.Parse(layout, value)]; [None] is a parse error. *)
Definition Parse `{Host} (layout value : string) : option Time :=
  _ <- guard (String.eqb layout layoutT || String.eqb layout layoutM) ;;
  let frac := String.eqb layout layoutM in
  (* 2006 *)
  _ <- guard (Nat.leb 4 (String.length value) && all_bytes isDigit (take 4 value)) ;;
  let year := digitsVal 0 (take 4 value) in
  value <- skipByte "-" (drop 4 value) ;;
  (* 01 *)
  '(month, value) <- getnum value true ;;
  _ <- guard ((1 <=? month) && (month <=? 12)) ;;
  value <- skipByte "-" value ;;
  (* 02 *)
  '(day, value) <- getnum value true ;;
  value <- skipSpace value ;;
  (* 15 *)
  '(hour, value) <- getnum value false ;;
  _ <- guard (hour <? 24) ;;
  value <- skipByte ":" value ;;
  (* 04 *)
  '(min, value) <- getnum value true ;;
  _ <- guard (min <? 60) ;;
  value <- skipByte ":" value ;;
  (* 05, and the fraction: exactly three digits when the layout has one,
     any number of digits when the value has one and the layout does not *)
  '(sec, value) <- getnum value true ;;
  _ <- guard (sec <? 60) ;;
  '(ns, value) <-
      (if frac then
         _ <- guard (Nat.leb 4 (String.length value)) ;;
         ns <- parseNanoseconds value 4 ;;
         Some (ns, drop 4 value)
       else
         match value with
         | String c (String d _) =>
             if commaOrPeriod c && isDigit d then
               let n := S (String.length (fst (spanDigits (drop 1 value)))) in
               ns <- parseNanoseconds value n ;;
               Some (ns, drop n value)
             else Some (0, value)
         | _ => Some (0, value)
         end) ;;
  value <- skipSpace value ;;
  (* MST *)
  '(zoneName, value) <-
      (if HasPrefix value "UTC" then Some ("", drop 3 value)
       else n <- parseTimeZone value ;; Some (take n value, drop n value)) ;;
  _ <- guard (String.eqb value "") ;;
  _ <- guard ((1 <=? day) && (day <=? daysIn month year)) ;;
  let t := DateUTC year month day hour min sec ns in
  match zoneName with
  | "" => Some t
  | _ =>
      match localZoneOffset zoneName (UnixOf t) with
      | Some offset => Some (mkTime (ext t - offset) (nsec t))
      | None => Some t
      end
  end.

End GoTime.

(* ------------------------------------------------------------------ *)
(** ** The collector ([collector/log.go]) *)
(* ------------------------------------------------------------------ *)

Module Collector.
Import GoString Regexp Strconv GoTime.

(** *** Package-level patterns *)

Definition rxLogLevel_src : string := "^([A-Z]+):\s+".
Definition rxAEStart_src : string :=
  "^duration: [0-9]+\.[0-9]+ ms  plan:\n[ \t]+({[ \t]*\n)?(<explain xml.*\n)?(Query Text: "
  ++ dq ++ ".*" ++ dq ++ "\n)?(Query Text: [^" ++ dq ++ "].*\n)?".
Definition rxAESwitch1_src : string := "^\s+Query Text: (.*)$".
Definition rxAESwitch2_src : string := "cost=\d+.*rows=\d".
Definition rxAVStart_src : string :=
  "automatic (aggressive )?vacuum (to prevent wraparound)?of table "
  ++ dq ++ "([^" ++ dq ++ "]+)" ++ dq ++ ": index".
Definition rxAVElapsed_src : string := ", elapsed: ([0-9.]+) s".

Definition rxLogLevel : Regexp := MustCompile rxLogLevel_src.
Definition rxAEStart : Regexp := MustCompile rxAEStart_src.
Definition rxAESwitch1 : Regexp := MustCompile rxAESwitch1_src.
Definition rxAESwitch2 : Regexp := MustCompile rxAESwitch2_src.
Definition rxAVStart : Regexp := MustCompile rxAVStart_src.
Definition rxAVElapsed : Regexp := MustCompile rxAVElapsed_src.

(** *** Data *)

Inductive ioError : Type := EOF | ErrUnexpectedEOF | ErrNotExist.

Inductive error : Type :=
| ErrNoTimestamp                 (* "no timestamp escape sequence was found in log_line_prefix" *)
| ErrPattern (e : ErrorCode)     (* from [regexp.Compile] *)
| ErrIO (e : ioError)
| ErrTimeParse (value : string)  (* from [time.Parse] *)
| ErrWrongN (value : string)     (* "wrong %n format in log line: ..." *)
| ErrBadTime (value : string).   (* "bad time format in log line: ..." *)

Record logEntryExtra : Type := mkExtra {
  x_level : string;
  x_line : string
}.

Record logEntry : Type := mkEntry {
  t : Time;
  user : string;
  db : string;
  level : string;
  line : string;
  extra : list logEntryExtra
}.

(** [pgmetrics.Plan], [pgmetrics.AutoVacuum], [pgmetrics.Deadlock] *)
Record Plan : Type := mkPlan {
  Database : string;
  UserName : string;
  Format : string;
  PlanAt : Z;
  Query : string;
  PlanText : string
}.

Record AutoVacuum : Type := mkAutoVacuum {
  AvAt : Z;
  Table : string;
  Elapsed : float64
}.

Record Deadlock : Type := mkDeadlock {
  DlAt : Z;
  Detail : string
}.

(** The part of [pgmetrics.Model] the log reader touches. *)
Record Model : Type := mkModel {
  Settings : list (string * string);
  Plans : list Plan;
  AutoVacuums : list AutoVacuum;
  Deadlocks : list Deadlock
}.

Record collector : Type := mkCollector {
  logSpan : Z;
  currLog : logEntry;
  result : Model
}.

Definition setCurrLog (c : collector) (e : logEntry) : collector :=
  mkCollector (logSpan c) e (result c).

Definition addPlan (c : collector) (p : Plan) : collector :=
  let r := result c in
  mkCollector (logSpan c) (currLog c)
    (mkModel (Settings r) (Plans r ++ [p]) (AutoVacuums r) (Deadlocks r)).

Definition addAutoVacuum (c : collector) (a : AutoVacuum) : collector :=
  let r := result c in
  mkCollector (logSpan c) (currLog c)
    (mkModel (Settings r) (Plans r) (AutoVacuums r ++ [a]) (Deadlocks r)).

Definition addDeadlock (c : collector) (d : Deadlock) : collector :=
  let r := result c in
  mkCollector (logSpan c) (currLog c)
    (mkModel (Settings r) (Plans r) (AutoVacuums r) (Deadlocks r ++ [d])).

(** *** [compilePrefix] *)

(** [string(b)] for a byte [b]: the UTF-8 encoding of the code point. *)
Definition stringOfByte (b : ascii) : string :=
  let n := N_of_ascii b in
  if (n <? 128)%N then String b ""
  else String (ascii_of_N (192 + N.shiftr n 6))
         (String (ascii_of_N (128 + N.land n 63)) "").

Fixpoint concatMap (f : ascii -> string) (s : string) : string :=
  match s with
  | "" => ""
  | String c s' => f c ++ concatMap f s'
  end.

Definition QuoteMeta (s : string) : string := concatMap QuoteMeta1 s.

Definition re_t : string := "(?P<t>\d{4}-\d{1,2}-\d{1,2} \d{2}:\d{2}:\d{2} \S+)".
Definition re_m : string := "(?P<m>\d{4}-\d{1,2}-\d{1,2} \d{2}:\d{2}:\d{2}\.\d+ \S+)".
Definition re_n : string := "(?P<n>\d+\.\d+)".
Definition re_s : string := "\d{4}-\d{1,2}-\d{1,2} \d{2}:\d{2}:\d{2} \S+".
Definition re_u : string := "(?P<u>[A-Za-z0-9_.\[\]-]{1,64})".
Definition re_d : string := "(?P<d>[A-Za-z0-9_.\[\]-]{1,64})".
Definition re_q : string := "(?:".
Definition re_other : string := "(\S+)?".

(** The loop of [compilePrefix]: the state is [(ts, hasq, r)]. *)
Fixpoint compilePrefixLoop (prefix : string) (ts hasq : bool) (r : string)
  : bool * bool * string :=
  match prefix with
  | "" => (ts, hasq, r)
  | String c rest =>
      if negb (Ascii.eqb c "%") then
        compilePrefixLoop rest ts hasq (r ++ QuoteMeta (stringOfByte c))
      else
        match rest with
        | "" => (ts, hasq, r)          (* ends with a %: break *)
        | String d rest' =>
            if Ascii.eqb d "t" then compilePrefixLoop rest' true hasq (r ++ re_t)
            else if Ascii.eqb d "m" then compilePrefixLoop rest' true hasq (r ++ re_m)
            else if Ascii.eqb d "n" then compilePrefixLoop rest' true hasq (r ++ re_n)
            else if Ascii.eqb d "s" then compilePrefixLoop rest' ts hasq (r ++ re_s)
            else if Ascii.eqb d "u" then compilePrefixLoop rest' ts hasq (r ++ re_u)
            else if Ascii.eqb d "d" then compilePrefixLoop rest' ts hasq (r ++ re_d)
            else if Ascii.eqb d "q" then compilePrefixLoop rest' ts true (r ++ re_q)
            else compilePrefixLoop rest' ts hasq (r ++ re_other)
        end
  end.

Definition compilePrefix (prefix : string) : error + Regexp :=
  let '(ts, hasq, r) := compilePrefixLoop prefix false false "" in
  let r := if hasq then r ++ ")?" else r in
  if negb ts then inl ErrNoTimestamp
  else match Compile r with
       | inr re => inr re
       | inl e => inl (ErrPattern e)
       end.

Section WithHost.
Context `{Host}.

(** *** [getMatchData] and [firstTS] *)

(** [len(b)] and [string(b)] of a possibly nil slice. *)
Definition blen (b : option string) : nat :=
  match b with Some s => String.length s | None => 0 end.
Definition bstr (b : option string) : string :=
  match b with Some s => s | None => "" end.

(** Lines 303-325 and 346-368 are the same text: the decoding of the
    captured timestamp, [m] before [t] before [n].  [None] is an index
    out of range, a run-time panic in Go. *)
Definition decodeCaptured (mt : list (option string)) (idxT idxM idxN : option nat)
  : option (Time * option error) :=
  let sel (idx : option nat) : option (option string) :=
    match idx with
    | Some i =>
        match nth_error mt i with
        | Some b => Some (if Nat.ltb 0 (blen b) then Some (bstr b) else None)
        | None => None
        end
    | None => Some None
    end in
  match sel idxM with
  | None => None
  | Some (Some s) =>
      Some (match Parse layoutM s with
            | Some tm => (tm, None)
            | None => (zeroTime, Some (ErrTimeParse s))
            end)
  | Some None =>
      match sel idxT with
      | None => None
      | Some (Some s) =>
          Some (match Parse layoutT s with
                | Some tm => (tm, None)
                | None => (zeroTime, Some (ErrTimeParse s))
                end)
      | Some None =>
          match sel idxN with
          | None => None
          | Some (Some s) =>
              Some (match Split s "." with
                    | [p0] =>
                        match ParseInt p0 with
                        | None => (zeroTime, Some (ErrBadTime s))
                        | Some t1 => (Unix t1 (scaleE9 0), None)
                        end
                    | [p0; p1] =>
                        match ParseInt p0 with
                        | None => (zeroTime, Some (ErrBadTime s))
                        | Some t1 =>
                            match ParseInt p1 with
                            | None => (zeroTime, Some (ErrBadTime s))
                            | Some t2 => (Unix t1 (scaleE9 t2), None)
                            end
                        end
                    | _ => (zeroTime, Some (ErrWrongN s))
                    end)
          | Some None => Some (zeroTime, None)
          end
      end
  end.

Record matchIdx : Type := mkIdx {
  idxT : option nat;
  idxM : option nat;
  idxN : option nat;
  mUser : string;
  mDb : string
}.

(** The [switch] over [prefix.SubexpNames()] in [getMatchData]. *)
Fixpoint namesLoop (names : list string) (i : nat) (mt : list (option string))
  (a : matchIdx) : option matchIdx :=
  match names with
  | [] => Some a
  | s :: rest =>
      if String.eqb s "t" then
        namesLoop rest (S i) mt (mkIdx (Some i) (idxM a) (idxN a) (mUser a) (mDb a))
      else if String.eqb s "m" then
        namesLoop rest (S i) mt (mkIdx (idxT a) (Some i) (idxN a) (mUser a) (mDb a))
      else if String.eqb s "n" then
        namesLoop rest (S i) mt (mkIdx (idxT a) (idxM a) (Some i) (mUser a) (mDb a))
      else if String.eqb s "u" then
        match nth_error mt i with
        | Some b => namesLoop rest (S i) mt
                      (mkIdx (idxT a) (idxM a) (idxN a) (bstr b) (mDb a))
        | None => None
        end
      else if String.eqb s "d" then
        match nth_error mt i with
        | Some b => namesLoop rest (S i) mt
                      (mkIdx (idxT a) (idxM a) (idxN a) (mUser a) (bstr b))
        | None => None
        end
      else namesLoop rest (S i) mt a
  end.

(** [getMatchData(match, prefix)] returns [(t, user, db, err)]. *)
Definition getMatchData (mt : list (option string)) (prefix : Regexp)
  : option (Time * string * string * option error) :=
  match namesLoop (SubexpNames prefix) 0 mt (mkIdx None None None "" "") with
  | None => None
  | Some a =>
      match decodeCaptured mt (idxT a) (idxM a) (idxN a) with
      | None => None
      | Some (tm, err) => Some (tm, mUser a, mDb a, err)
      end
  end.

(** The three [if]s over [prefix.SubexpNames()] in [firstTS]. *)
Fixpoint tsNamesLoop (names : list string) (i : nat) (a : matchIdx) : matchIdx :=
  match names with
  | [] => a
  | s :: rest =>
      let a := if String.eqb s "t"
               then mkIdx (Some i) (idxM a) (idxN a) (mUser a) (mDb a) else a in
      let a := if String.eqb s "m"
               then mkIdx (idxT a) (Some i) (idxN a) (mUser a) (mDb a) else a in
      let a := if String.eqb s "n"
               then mkIdx (idxT a) (idxM a) (Some i) (mUser a) (mDb a) else a in
      tsNamesLoop rest (S i) a
  end.

(** [firstTS(buf, prefix)] returns [(t, err)]. *)
Definition firstTS (buf : string) (prefix : Regexp) : option (Time * option error) :=
  match FindSubmatch prefix buf with
  | None => Some (zeroTime, None)
  | Some matches =>
      let a := tsNamesLoop (SubexpNames prefix) 0 (mkIdx None None None "" "") in
      decodeCaptured matches (idxT a) (idxM a) (idxN a)
  end.

(** *** Entry assembly and classification *)

Definition severities : list string :=
  ["DEBUG"; "LOG"; "INFO"; "NOTICE"; "WARNING"; "ERROR"; "FATAL"; "PANIC"].

(** [(l *logEntry) get(level)] *)
Fixpoint get (ex : list logEntryExtra) (lvl : string) : string :=
  match ex with
  | [] => ""
  | e :: rest => if String.eqb (x_level e) lvl then x_line e else get rest lvl
  end.

(** Where the [*string] of the text variant points. *)
Inductive target : Type := ToNil | ToQuery | ToPlan.

(** The loop of the text variant in [processAE], over the lines of the
    entry; the state is [(p.Query, p.Plan, sp)]. *)
Fixpoint textLoop (ls : list string) (q pl : string) (sp : target)
  : string * string :=
  match ls with
  | [] => (q, pl)
  | l :: rest =>
      match FindStringSubmatch rxAESwitch1 l with
      | Some sm => textLoop rest (nth 1 sm "") pl ToQuery
      | None =>
          let sp := if MatchString rxAESwitch2 l then ToPlan else sp in
          match sp with
          | ToNil => textLoop rest q pl sp
          | ToQuery => textLoop rest (q ++ l ++ nl) pl sp
          | ToPlan => textLoop rest q (pl ++ l ++ nl) sp
          end
      end
  end.

Definition processAE (c : collector) (sm : list string) : collector :=
  let e := currLog c in
  let p (fmt q pl : string) : Plan :=
    mkPlan (db e) (user e) fmt (UnixOf (t e)) q pl in
  let plan :=
    if Nat.ltb 0 (String.length (nth 1 sm "")) then
      match SplitN2 (line e) "010" with
      | [_; body] =>
          match json_Unmarshal body with
          | Some obj =>
              let '(q, obj) :=
                match json_lookup obj "Query Text" with
                | Some v => (match v with Some s => s | None => "" end,
                             json_delete obj "Query Text")
                | None => ("", obj)
                end in
              match json_Marshal obj with
              | Some planb => p "json" q planb
              | None => p "json" q ""
              end
          | None => p "json" "" ""
          end
      | _ => p "json" "" ""
      end
    else if Nat.ltb 0 (String.length (nth 2 sm "")) then p "xml" "" ""
    else if Nat.ltb 0 (String.length (nth 3 sm "")) then p "yaml" "" ""
    else if Nat.ltb 0 (String.length (nth 4 sm "")) then
      let '(q, pl) := textLoop (Split (line e) "010") "" "" ToNil in
      p "text" q pl
    else p "text" "" "" in
  addPlan c plan.

Definition processAV (c : collector) (sm : list string) : collector :=
  let e := currLog c in
  if negb (Nat.eqb (List.length sm) 4) then c
  else
    match FindStringSubmatch rxAVElapsed (line e) with
    | Some [_; s] =>
        let '(elapsed, _) := ParseFloat s in
        addAutoVacuum c (mkAutoVacuum (UnixOf (t e)) (nth 3 sm "") elapsed)
    | _ => c
    end.

Definition processDeadlock (c : collector) : collector :=
  let e := currLog c in
  let text := ReplaceAll (get (extra e) "DETAIL") "009" "" ++ nl in
  addDeadlock c (mkDeadlock (UnixOf (t e)) text).

Definition processLogEntry (c : collector) : collector :=
  match FindStringSubmatch rxAEStart (line (currLog c)) with
  | Some sm => processAE c sm
  | None =>
      match FindStringSubmatch rxAVStart (line (currLog c)) with
      | Some sm => processAV c sm
      | None =>
          if String.eqb (line (currLog c)) "deadlock detected"
          then processDeadlock c
          else c
      end
  end.

Definition processLogLine (c : collector) (first : bool) (tm : Time)
  (usr dbn lvl ln : string) : collector :=
  let start := existsb (String.eqb lvl) severities in
  if start then
    let c := if negb first then processLogEntry c else c in
    setCurrLog c (mkEntry tm usr dbn lvl ln [])
  else
    let e := currLog c in
    setCurrLog c (mkEntry (t e) (user e) (db e) (level e) (line e)
                          (extra e ++ [mkExtra lvl ln])).

(** *** [readLogLines] *)

(** How a call ends: it returns, with the collector as the call left it
    and the error value; it panics; or the model's loop bound ran out. *)
Inductive outcome : Type :=
| Returned (c : collector) (err : option error)
| Panicked
| OutOfFuel.

(** [io.ReadFull(f, buf)] after [f.Seek(ofs, 0)], on a file with the
    given content, for a buffer of [n] bytes. *)
Definition ReadFullAt (content : string) (ofs : Z) (n : nat) : ioError + string :=
  let avail := drop (Z.to_nat ofs) content in
  if Nat.leb n (String.length avail) then inr (take n avail)
  else match avail with
       | "" => inl EOF
       | _ => inl ErrUnexpectedEOF
       end.

Inductive located : Type :=
| At (ofs : Z)
| Failed (err : error)
| ScanPanicked
| ScanOutOfFuel.

(** The backward loop (lines 73-105): from [ofs], one 4096-byte block at
    a time, until a block's first timestamp is before [start] or the top
    of the file is reached. *)
Fixpoint seekBack (fuel : nat) (content : string) (prefix : Regexp)
  (start : Time) (ofs : Z) : located :=
  match fuel with
  | 0 => ScanOutOfFuel
  | S fuel' =>
      let ofs := if (ofs <? 0)%Z then 0%Z else ofs in
      match ReadFullAt content ofs 4096 with
      | inl e => Failed (ErrIO e)
      | inr buf =>
          match firstTS buf prefix with
          | None => ScanPanicked
          | Some (_, Some err) => Failed err
          | Some (ts, None) =>
              if negb (IsZero ts) && Before ts start then At ofs
              else if (ofs =? 0)%Z then At ofs
              else seekBack fuel' content prefix start (ofs - 4096)
          end
      end
  end.

(** Removal of a single final newline, then of the level token. *)
Definition chomp (ln : string) : string :=
  let n := String.length ln in
  if Nat.ltb 0 n && String.eqb (drop (n - 1) ln) nl then take (n - 1) ln else ln.

Definition splitLevel (ln : string) : string * string :=
  match FindStringSubmatch rxLogLevel ln with
  | Some (m0 :: m1 :: _) => (m1, drop (String.length m0) ln)
  | _ => ("", ln)
  end.

(** The forward loop (lines 117-150) and the final flush (152-155). *)
Fixpoint forward (fuel : nat) (prefix : Regexp) (start : Time)
  (bigbuf : string) (pos : option (nat * nat)) (count : nat) (c : collector)
  : outcome :=
  match pos with
  | Some (p0, p1) =>
      if Nat.ltb 0 (String.length bigbuf) then
        match fuel with
        | 0 => OutOfFuel
        | S fuel' =>
            match FindSubmatch prefix (drop p0 bigbuf) with
            | None => Panicked
            | Some mt =>
                match getMatchData mt prefix with
                | None => Panicked
                | Some (_, _, _, Some _) => Returned c None
                | Some (tm, usr, dbn, None) =>
                    let pos2 := FindIndex prefix (drop p1 bigbuf) in
                    let '(ln, bigbuf') :=
                      match pos2 with
                      | None => (drop p1 bigbuf, bigbuf)
                      | Some (q0, _) => (slice p1 (p1 + q0) bigbuf, drop p1 bigbuf)
                      end in
                    if negb (Before tm start) then
                      let '(lvl, ln) := splitLevel (chomp ln) in
                      forward fuel' prefix start bigbuf' pos2 (S count)
                        (processLogLine c (Nat.eqb count 0) tm usr dbn lvl ln)
                    else forward fuel' prefix start bigbuf' pos2 count c
                end
            end
        end
      else Returned (if Nat.ltb 0 count then processLogEntry c else c) None
  | None => Returned (if Nat.ltb 0 count then processLogEntry c else c) None
  end.

(** [time.Now().Add(-window)] with [window = time.Duration(c.logSpan) * time.Minute] *)
Definition windowStart (now : Time) (span : Z) : Time :=
  Add now (wrap64 (- wrap64 (wrap64 span * Minute))).

(** [c.readLogLines(filename, prefix)]: [fs] is the file system, a file's
    content by name, and [now] what [time.Now()] returns. *)
Definition readLogLines (fs : string -> option string) (now : Time)
  (c : collector) (filename : string) (prefix : Regexp) : outcome :=
  match fs filename with
  | None => Returned c (Some (ErrIO ErrNotExist))
  | Some content =>
      let start := windowStart now (logSpan c) in
      let flen := Z.of_nat (String.length content) in
      if (flen <=? 0)%Z then Returned c None
      else
        match seekBack (S (Z.to_nat (flen / 4096))) content prefix start
                       (flen - 4096) with
        | Failed err => Returned c (Some err)
        | ScanPanicked => Panicked
        | ScanOutOfFuel => OutOfFuel
        | At ofs =>
            let bigbuf := drop (Z.to_nat ofs) content in
            forward (S (String.length bigbuf)) prefix start bigbuf
                    (FindIndex prefix bigbuf) 0 c
        end
  end.

(** [c.readLog(filename)]: every failure is logged and dropped. *)
Definition readLog (fs : string -> option string) (now : Time)
  (c : collector) (filename : string) : outcome :=
  match find (fun kv => String.eqb (fst kv) "log_line_prefix") (Settings (result c)) with
  | None => Returned c None
  | Some (_, prefix) =>
      match compilePrefix prefix with
      | inl _ => Returned c None
      | inr prefixRE =>
          match readLogLines fs now c filename prefixRE with
          | Returned c' _ => Returned c' None
          | o => o
          end
      end
  end.

End WithHost.
End Collector.

(* ------------------------------------------------------------------ *)
(** ** The vocabulary of the statements *)
(* ------------------------------------------------------------------ *)

Import GoString Regexp Strconv GoTime Collector.

(** The directives of a prefix format, read as PostgreSQL reads it: a
    percent sign and the byte after it form a directive; a percent sign
    at the very end is dropped. *)
Fixpoint directives (prefix : string) : list ascii :=
  match prefix with
  | "" => []
  | String c rest =>
      if Ascii.eqb c "%" then
        match rest with
        | "" => []
        | String d rest' => d :: directives rest'
        end
      else directives rest
  end.

(** The directives that stand for a timestamp. *)
Definition isTimestampDirective (d : ascii) : bool :=
  Ascii.eqb d "t" || Ascii.eqb d "m" || Ascii.eqb d "n".

Definition hasTimestampDirective (prefix : string) : bool :=
  existsb isTimestampDirective (directives prefix).

(** [sub] occurs somewhere in [s]. *)
Fixpoint contains (s sub : string) : bool :=
  HasPrefix s sub
  || match s with
     | "" => false
     | String _ s' => contains s' sub
     end.

(** The content of the first extra sub-part with a given level. *)
Definition firstWithLevel (lvl : string) (ex : list logEntryExtra) : string :=
  match find (fun e => String.eqb (x_level e) lvl) ex with
  | Some e => x_line e
  | None => ""
  end.

(** A text without the occurrences of one byte. *)
Definition removeByte (b : ascii) (s : string) : string :=
  string_of_list_ascii
    (filter (fun c => negb (Ascii.eqb c b)) (list_ascii_of_string s)).

(** The Deadlock Events of a read that returned without error. *)
Definition deadlocksOf (o : outcome) : option (list Deadlock) :=
  match o with
  | Returned c None => Some (Deadlocks (result c))
  | _ => None
  end.

(** The same collector with another window size. *)
Definition withSpan (span : Z) (c : collector) : collector :=
  mkCollector span (currLog c) (result c).

Definition onCollector (f : collector -> collector) (o : outcome) : outcome :=
  match o with
  | Returned c err => Returned (f c) err
  | Panicked => Panicked
  | OutOfFuel => OutOfFuel
  end.

(** What a call hands to the report: the three fact lists (with the
    settings, in the result record) and the error value. *)
Definition facts (o : outcome) : option (Model * option error) :=
  match o with
  | Returned c err => Some (result c, err)
  | _ => None
  end.

Section Lines.
Context `{Host}.

(** The lines of a buffer as the forward pass delimits them from its
    first byte: the offset of each prefix match and the timestamp decoded
    from it ([base] is the offset of [buf] in the file). *)
Fixpoint linesOf (fuel : nat) (prefix : Regexp) (buf : string) (base : nat)
  (pos : option (nat * nat)) : list (nat * Time) :=
  match fuel, pos with
  | S fuel', Some (p0, p1) =>
      match FindSubmatch prefix (drop p0 buf) with
      | Some mt =>
          match getMatchData mt prefix with
          | Some (tm, _, _, None) =>
              (base + p0, tm)
              :: match FindIndex prefix (drop p1 buf) with
                 | Some q => linesOf fuel' prefix (drop p1 buf) (base + p1) (Some q)
                 | None => []
                 end
          | _ => []
          end
      | None => []
      end
  | _, _ => []
  end.

(** The lines of a whole file. *)
Definition fileLines (prefix : Regexp) (content : string) : list (nat * Time) :=
  linesOf (S (String.length content)) prefix content 0 (FindIndex prefix content).

(** No timestamp is before the one in front of it. *)
Fixpoint nondecreasing (ts : list Time) : bool :=
  match ts with
  | a :: (b :: _) as rest => negb (Before b a) && nondecreasing rest
  | _ => true
  end.

(** The offset of the first line whose timestamp is not before [start]. *)
Definition firstInWindow (start : Time) (ls : list (nat * Time)) : option nat :=
  option_map fst (find (fun l => negb (Before (snd l) start)) ls).

End Lines.

(** A space or a tab; any byte but the newline. *)
Definition isBlank (c : ascii) : bool := Ascii.eqb c " " || Ascii.eqb c "009".
Definition notNewline (c : ascii) : bool := negb (Ascii.eqb c "010").

(** The shape of an auto_explain entry whose first line after the
    signature is a quoted query line: the signature with its two runs of
    digits, the blanks that indent the line, the line with its closing
    quote and newline, and whatever follows. *)
Definition signatureText (d1 d2 ws : string) : string :=
  "duration: " ++ d1 ++ "." ++ d2 ++ " ms  plan:" ++ nl ++ ws.

Definition quotedQueryLine (body : string) : string :=
  "Query Text: " ++ dq ++ body ++ dq ++ nl.

Definition quotedEntryText (d1 d2 ws body rest : string) : string :=
  signatureText d1 d2 ws ++ quotedQueryLine body ++ rest.

(** Where the quoted line starts and ends in such an entry. *)
Definition quotedStart (d1 d2 ws : string) : nat :=
  String.length (signatureText d1 d2 ws).
Definition quotedEnd (d1 d2 ws body : string) : nat :=
  String.length (signatureText d1 d2 ws) + String.length (quotedQueryLine body).

(* ------------------------------------------------------------------ *)
(** ** The vocabulary of the matcher proofs *)
(* ------------------------------------------------------------------ *)

(** A run of literal bytes in front of a pattern. *)
Fixpoint lits (s : string) (r : regex) : regex :=
  match s with
  | "" => r
  | String c s' => Cat (Lit c) (lits s' r)
  end.

(** [r?] *)
Definition opt (r : regex) : regex := Rep r 0 (Some 1).

(** The text starts outside the class: it is empty or its first byte is
    not in the class. *)
Definition startsOutside (p : ascii -> bool) (tl : string) : bool :=
  match tl with
  | "" => true
  | String c _ => negb (p c)
  end.

(** What a greedy repetition of a class yields on [xs ++ tl], when [xs]
    is in the class and [tl] starts outside it: every split of [xs], the
    longest first, down to [lo] bytes. *)
Fixpoint greedy (xs tl : string) (p : nat) (caps : list (nat * (nat * nat)))
  (lo : nat) : list mstate :=
  match xs with
  | "" => if Nat.eqb lo 0 then [mkM p tl caps] else []
  | String c xs' =>
      greedy xs' tl (S p) caps (pred lo)
      ++ (if Nat.eqb lo 0 then [mkM p (String c xs' ++ tl) caps] else [])
  end.

(** The groups a pattern can set. *)
Fixpoint groupsOf (r : regex) : list nat :=
  match r with
  | Cat a b | Alt a b => groupsOf a ++ groupsOf b
  | Rep r' _ _ => groupsOf r'
  | Grp i r' => i :: groupsOf r'
  | _ => []
  end.

(** [y] is the most preferred way for [r] to match at [st]. *)
Definition firstIs (r : regex) (st y : mstate) : Prop :=
  exists others, run r st = y :: others.

(** The start pattern of auto_explain, in parts: its classes, its four
    groups and what follows the indentation. *)
Definition digitC : regex := Cls false [("0", "9")]%char.
Definition blankC : regex := Cls false [(" ", " "); ("009", "009")]%char.
Definition dotC : regex := Cls true [("010", "010")]%char.
Definition notQuoteC : regex := Cls true [("034", "034")]%char.

Definition grpJSON : regex :=
  Grp 1 (Cat (Lit "{") (Cat (Rep blankC 0 None) (Lit "010"))).
Definition grpXML : regex :=
  Grp 2 (lits "<explain xml" (Cat (Rep dotC 0 None) (Lit "010"))).
Definition grpQuoted : regex :=
  Grp 3 (lits ("Query Text: " ++ dq)
           (Cat (Rep dotC 0 None) (Cat (Lit "034") (Lit "010")))).
Definition grpPlain : regex :=
  Grp 4 (lits "Query Text: " (Cat notQuoteC (Cat (Rep dotC 0 None) (Lit "010")))).

Definition afterBlanks : regex :=
  Cat (opt grpJSON) (Cat (opt grpXML) (Cat (opt grpQuoted) (opt grpPlain))).

(* ------------------------------------------------------------------ *)
(** ** Sample inputs *)
(* ------------------------------------------------------------------ *)

(** The host of the worked examples: local zone UTC, the amd64 result of
    an out-of-range conversion, and a JSON library that is never reached
    (no example holds a JSON plan). *)
Definition exampleHost : Host := {|
  localZoneOffset := fun _ _ => None;
  floatToInt64Overflow := (- 2 ^ 63)%Z;
  jsonObj := unit;
  json_Unmarshal := fun _ => None;
  json_lookup := fun _ _ => None;
  json_delete := fun o _ => o;
  json_Marshal := fun _ => None
|}.

(** A collector before its first read, with a window of 5 minutes. *)
Definition emptyEntry : logEntry := mkEntry zeroTime "" "" "" "" [].

Definition emptyModel : Model := mkModel [] [] [] [].

Definition freshCollector : collector := mkCollector 5 emptyEntry emptyModel.

(** A deadlock report with two DETAIL sub-parts, the first with a tab. *)
Definition deadlockEntry : logEntry :=
  mkEntry (Unix 1705314600 0) "alice" "mydb" "ERROR" "deadlock detected"
    [mkExtra "DETAIL"
       ("Process 1 waits for ShareLock on transaction 2; blocked by process 3."
        ++ tab);
     mkExtra "HINT" "See server log for query details.";
     mkExtra "DETAIL" "a second detail"].

(** An auto_explain entry whose query text quotes an autovacuum report:
    both signatures and the elapsed marker are there. *)
Definition quotedVacuumLine : string :=
  "duration: 1.500 ms  plan:" ++ nl ++ tab
  ++ "Query Text: SELECT count(*) FROM logs WHERE msg = 'automatic vacuum of table "
  ++ dq ++ "public.orders" ++ dq ++ ": index scans: 1, elapsed: 12.34 s'" ++ nl ++ tab
  ++ "Aggregate  (cost=12.50..12.51 rows=1 width=8)".

Definition quotedVacuumCollector : collector :=
  mkCollector 5
    (mkEntry (Unix 1705314600 0) "alice" "mydb" "LOG" quotedVacuumLine [])
    emptyModel.

(** The report of a completed autovacuum run, as the server logs it. *)
Definition vacuumLine : string :=
  "automatic vacuum of table " ++ dq ++ "public.orders" ++ dq
  ++ ": index scans: 1" ++ nl ++ tab
  ++ "pages: 0 removed, 52 remain, 0 skipped due to pins, 0 skipped frozen"
  ++ nl ++ tab
  ++ "system usage: CPU: user: 0.01 s, system: 0.00 s, elapsed: 12.34 s".

Definition vacuumCollector : collector :=
  mkCollector 5 (mkEntry (Unix 1705314600 0) "" "" "LOG" vacuumLine []) emptyModel.

(** The YAML output of auto_explain: the query line is quoted. *)
Definition yamlPlanLine : string :=
  "duration: 1.500 ms  plan:" ++ nl ++ tab
  ++ "Query Text: " ++ dq ++ "SELECT 1" ++ dq ++ nl ++ tab
  ++ "Plan: " ++ nl ++ tab
  ++ "  Node Type: " ++ dq ++ "Result" ++ dq ++ nl ++ tab
  ++ "  Total Cost: 0.01".

Definition yamlPlanCollector : collector :=
  mkCollector 5 (mkEntry (Unix 1705314600 0) "alice" "mydb" "LOG" yamlPlanLine [])
    emptyModel.

(** The text output: the query line is not quoted, and the query and the
    plan rows are extracted. *)
Definition textPlanLine : string :=
  "duration: 1.500 ms  plan:" ++ nl ++ tab
  ++ "Query Text: SELECT 1" ++ nl ++ tab
  ++ "Result  (cost=0.00..0.01 rows=1 width=4)".

(** The patterns of the prefix formats [%n ], [%t [%u@%d] ] and [%t ]. *)
Definition epochPrefix : Regexp := MustCompile (re_n ++ " ").

Definition bracketPrefix : Regexp :=
  MustCompile (re_t ++ " \[" ++ re_u ++ "@" ++ re_d ++ "\] ").

Definition timePrefix : Regexp := MustCompile (re_t ++ " ").

Definition syntaxErrorLine : string :=
  "2024-01-15 10:30:00 UTC [alice@mydb] ERROR:  syntax error".

(** [n] bytes that no prefix pattern matches. *)
Fixpoint filler (n : nat) : string :=
  match n with
  | 0 => ""
  | S n' => String "-" (filler n')
  end.

(** Two deadlock reports, a line whose timestamp is the 30th of February,
    and a line that seals the report before it. *)
Definition deadlockA : string :=
  "2024-01-15 10:30:00 UTC ERROR:  deadlock detected" ++ nl
  ++ "2024-01-15 10:30:00 UTC DETAIL:  Process 1 waits for ShareLock on transaction 2."
  ++ nl.

Definition badStampLine : string :=
  "2024-02-30 10:30:01 UTC LOG:  checkpoint starting" ++ nl.

Definition deadlockB : string :=
  "2024-01-15 10:30:02 UTC ERROR:  deadlock detected" ++ nl
  ++ "2024-01-15 10:30:02 UTC DETAIL:  Process 7 waits for ShareLock on transaction 8."
  ++ nl.

Definition checkpointLine : string :=
  "2024-01-15 10:30:03 UTC LOG:  checkpoint complete" ++ nl.

(** Two files that differ by one line, the one whose timestamp does not
    parse; each starts with 4096 bytes of other text. *)
Definition logWithBadStamp : string :=
  filler 4096 ++ deadlockA ++ badStampLine ++ deadlockB ++ checkpointLine.

Definition logWithoutBadStamp : string :=
  filler 4096 ++ deadlockA ++ deadlockB ++ checkpointLine.

(** A file under the prefix format [%n ]: a deadlock report at epoch
    second 1700000000.500, then a statement that runs to the end of the
    file, 4104 bytes in all, so that the last 4096-byte block starts at
    offset 8, inside the first timestamp. *)
Definition epochLogHead : string :=
  "1700000000.500 ERROR:  deadlock detected" ++ nl
  ++ "1700000000.500 DETAIL:  Process 1 waits for ShareLock on transaction 2." ++ nl
  ++ "1700000001.500 LOG:  statement: SELECT '".

Definition epochLog : string :=
  epochLogHead ++ filler (4104 - String.length epochLogHead).

(* ------------------------------------------------------------------ *)
(** ** The vocabulary of the further properties *)
(* ------------------------------------------------------------------ *)

(** One result record continues another: the same settings, and each
    fact list of the first at the head of the list of the second. *)
Definition extends (r r' : Model) : Prop :=
  Settings r' = Settings r
  /\ (exists ps, Plans r' = (Plans r ++ ps)%list)
  /\ (exists avs, AutoVacuums r' = (AutoVacuums r ++ avs)%list)
  /\ (exists ds, Deadlocks r' = (Deadlocks r ++ ds)%list).

(** The number of facts in a result record. *)
Definition factCount (r : Model) : nat :=
  List.length (Plans r) + List.length (AutoVacuums r) + List.length (Deadlocks r).

(** The arguments of one call of [processLogLine]. *)
Record lineArgs : Type := mkLine {
  a_first : bool;
  a_t : Time;
  a_user : string;
  a_db : string;
  a_level : string;
  a_line : string
}.

(** Successive calls of [processLogLine]. *)
Definition feed `{Host} (c : collector) (ls : list lineArgs) : collector :=
  fold_left
    (fun c a =>
       processLogLine c (a_first a) (a_t a) (a_user a) (a_db a) (a_level a) (a_line a))
    ls c.

Definition isSeverity (lvl : string) : bool := existsb (String.eqb lvl) severities.

(** A pattern that can match the empty text. *)
Fixpoint nullable (r : regex) : bool :=
  match r with
  | Eps | Bol | Eol => true
  | Lit _ | Cls _ _ => false
  | Cat a b => nullable a && nullable b
  | Alt a b => nullable a || nullable b
  | Rep r' lo _ => Nat.eqb lo 0 || nullable r'
  | Grp _ r' => nullable r'
  end.

(** Two matcher states at the same place of the text, the first counting
    its positions from [d] bytes further left. *)
Definition shifted (d : nat) (st st' : mstate) : Prop :=
  m_rest st' = m_rest st /\ m_pos st = m_pos st' + d.

(** The three timestamp indices of [getMatchData] are within a submatch
    list of [n] entries. *)
Definition idxWithin (n : nat) (a : matchIdx) : Prop :=
  (forall i, idxT a = Some i -> i < n)
  /\ (forall i, idxM a = Some i -> i < n)
  /\ (forall i, idxN a = Some i -> i < n).

(** Every recorded group span lies between [lo] and [hi]. *)
Definition capsIn (lo hi : nat) (caps : list (nat * (nat * nat))) : Prop :=
  forall i a b, In (i, (a, b)) caps -> lo <= a /\ a <= b /\ b <= hi.

(** The pattern [compilePrefix] builds for [%q%t ]: everything after
    [%q] is optional. *)
Definition optionalPrefix : Regexp := MustCompile ("(?:" ++ re_t ++ " )?").

(** The errors of the timestamp decoding in [getMatchData] and
    [firstTS]. *)
Definition isDecodeError (err : error) : bool :=
  match err with
  | ErrTimeParse _ | ErrWrongN _ | ErrBadTime _ => true
  | _ => false
  end.

(** The scan passes over the block at [ofs]: the block is read whole, and
    its first timestamp is absent or not before [start]. *)
Definition passedOver `{Host} (content : string) (prefix : Regexp) (start : Time)
  (ofs : Z) : Prop :=
  exists buf ts,
    ReadFullAt content ofs 4096 = inr buf
    /\ firstTS buf prefix = Some (ts, None)
    /\ (negb (IsZero ts) && Before ts start) = false.

(** The scan stops at the block at [ofs] for its timestamp. *)
Definition stopsAt `{Host} (content : string) (prefix : Regexp) (start : Time)
  (ofs : Z) : Prop :=
  exists buf ts,
    ReadFullAt content ofs 4096 = inr buf
    /\ firstTS buf prefix = Some (ts, None)
    /\ IsZero ts = false /\ Before ts start = true.

(** The bytes the level pattern takes for [\s]. *)
Definition isSpace (c : ascii) : bool := in_class false space_rs c.

(** The level pattern in parts. *)
Definition upperC : regex := Cls false [("A", "Z")]%char.
Definition spaceC : regex := Cls false space_rs.

(** The lines of a list, each followed by its newline. *)
Fixpoint joinLines (ls : list string) : string :=
  match ls with
  | [] => ""
  | l :: rest => l ++ nl ++ joinLines rest
  end.

(** A line of a text plan that is no query line; one that is neither a
    query line nor a row with costs. *)
Definition noQueryLine (l : string) : Prop :=
  FindStringSubmatch rxAESwitch1 l = None.

Definition plainLine (l : string) : Prop :=
  FindStringSubmatch rxAESwitch1 l = None /\ MatchString rxAESwitch2 l = false.

(** The value of the setting [log_line_prefix], if present. *)
Definition prefixSetting (c : collector) : option string :=
  option_map snd
    (find (fun kv => String.eqb (fst kv) "log_line_prefix") (Settings (result c))).

(** Every percent sign of the format has its directive byte: read from
    the left, no percent sign is left alone at the end. *)
Fixpoint complete (prefix : string) : bool :=
  match prefix with
  | "" => true
  | String c rest =>
      if Ascii.eqb c "%" then
        match rest with
        | "" => false
        | String _ rest' => complete rest'
        end
      else complete rest
  end.

(** The first line of an auto_explain entry, and the entry with an
    unquoted query line: the signature, the blanks that indent the
    line, the query text [q] with its newline, and the lines after it,
    the last one without a newline. *)
Definition signatureLine (d1 d2 : string) : string :=
  "duration: " ++ d1 ++ "." ++ d2 ++ " ms  plan:".

Fixpoint sepLines (ls : list string) : string :=
  match ls with
  | [] => ""
  | [l] => l
  | l :: rest => l ++ nl ++ sepLines rest
  end.

Definition plainQueryLine (q : string) : string := "Query Text: " ++ q ++ nl.

Definition plainEntryText (d1 d2 ws q : string) (ls : list string) : string :=
  signatureText d1 d2 ws ++ plainQueryLine q ++ sepLines ls.

(** A byte that is no double quote; one that is not the letter c. *)
Definition notQuote (c : ascii) : bool := negb (Ascii.eqb c "034").
Definition notLetterC (x : ascii) : bool := negb (Ascii.eqb "c" x).

(** A query text that is not empty and does not start with a quote. *)
Definition unquoted (q : string) : bool :=
  match q with
  | "" => false
  | String c _ => notQuote c
  end.

(** An auto_explain entry in the text format whose query runs over two
    lines. *)
Definition twoLineQueryEntry : string :=
  "duration: 1.500 ms  plan:" ++ nl ++ tab
  ++ "Query Text: SELECT a" ++ nl ++ tab
  ++ "  FROM t" ++ nl ++ tab
  ++ "Seq Scan on t  (cost=0.00..1.01 rows=1 width=4)" ++ nl ++ tab
  ++ "  Filter: (a > 0)".

Definition twoLineQueryCollector : collector :=
  mkCollector 5
    (mkEntry (Unix 1705314600 0) "alice" "mydb" "LOG" twoLineQueryEntry [])
    emptyModel.

(* ------------------------------------------------------------------ *)
(** ** Properties *)
(* ------------------------------------------------------------------ *)
#[local] Arguments Ascii.eqb : simpl never.
#[local] Arguments String.eqb : simpl never.

(** *** The package-level patterns compile *)

Lemma patterns_compile :
  forall src, In src [rxLogLevel_src; rxAEStart_src; rxAESwitch1_src;
                      rxAESwitch2_src; rxAVStart_src; rxAVElapsed_src] ->
  Compile src = inr (MustCompile src).
Proof.
  intros src Hin. simpl in Hin.
  repeat (destruct Hin as [<- | Hin]; [vm_compute; reflexivity | ]).
  contradiction.
Qed.

(** *** Submatch lists have one entry per subexpression *)

Lemma FindSubmatch_length (re : Regexp) (b : string) (mt : list (option string)) :
  FindSubmatch re b = Some mt -> List.length mt = S (NumSubexp re).
Proof.
  unfold FindSubmatch. destruct (search (expr re) 0 b) as [[p st] | ]; [ | discriminate].
  intros E. injection E as <-. simpl. now rewrite length_map, length_seq.
Qed.

Lemma FindStringSubmatch_length (re : Regexp) (s : string) (sm : list string) :
  FindStringSubmatch re s = Some sm -> List.length sm = S (NumSubexp re).
Proof.
  unfold FindStringSubmatch. destruct (FindSubmatch re s) as [mt | ] eqn:E; [ | discriminate].
  intros E'. injection E' as <-. rewrite length_map. now apply FindSubmatch_length in E.
Qed.

(** *** Byte strings *)

Lemma drop_0 (s : string) : drop 0 s = s.
Proof. destruct s; reflexivity. Qed.

(** *** The matcher *)

Section MatcherFacts.

Lemma append_assoc (a b c : string) : (a ++ b) ++ c = a ++ (b ++ c).
Proof. induction a as [ | x a IH]; simpl; [reflexivity | now rewrite IH]. Qed.

Lemma length_append (a b : string) :
  String.length (a ++ b) = String.length a + String.length b.
Proof. induction a as [ | x a IH]; simpl; [reflexivity | now rewrite IH]. Qed.

Lemma eat_hit (P : ascii -> bool) (c : ascii) (s : string) (p : nat)
  (caps : list (nat * (nat * nat))) :
  P c = true -> eat P (mkM p (String c s) caps) = [mkM (S p) s caps].
Proof. intros Hc. unfold eat. simpl. now rewrite Hc. Qed.

Lemma eat_miss (P : ascii -> bool) (tl : string) (p : nat)
  (caps : list (nat * (nat * nat))) :
  startsOutside P tl = true -> eat P (mkM p tl caps) = [].
Proof.
  intros Htl. unfold eat. simpl. destruct tl as [ | d tl]; [reflexivity | ].
  simpl in Htl. apply negb_true_iff in Htl. now rewrite Htl.
Qed.

Lemma run_lits (s : string) (r : regex) :
  forall p rest caps,
  run (lits s r) (mkM p (s ++ rest) caps)
  = run r (mkM (p + String.length s) rest caps).
Proof.
  induction s as [ | c s IH]; intros p rest caps; simpl.
  - now rewrite Nat.add_0_r.
  - rewrite eat_hit by apply Ascii.eqb_refl. simpl.
    rewrite app_nil_r, IH. f_equal. f_equal. lia.
Qed.

Lemma run_lits_miss (c d : ascii) (s : string) (r : regex) :
  forall p rest caps,
  Ascii.eqb c d = false ->
  run (lits (String c s) r) (mkM p (String d rest) caps) = [].
Proof.
  intros p rest caps Hcd. simpl.
  rewrite eat_miss; [reflexivity | ]. simpl. now rewrite Hcd.
Qed.

Lemma rep_iter_class (P : ascii -> bool) (tl : string) :
  startsOutside P tl = true ->
  forall xs fuel lo p caps,
  all_bytes P xs = true ->
  String.length xs < fuel ->
  rep_iter (eat P) fuel lo None (mkM p (xs ++ tl) caps) = greedy xs tl p caps lo.
Proof.
  intros Htl. induction xs as [ | c xs IH]; intros fuel lo p caps Hxs Hfuel;
    (destruct fuel as [ | fuel]; [simpl in Hfuel; lia | ]); simpl.
  - now rewrite eat_miss.
  - simpl in Hxs. apply andb_prop in Hxs as [Hc Hxs].
    rewrite (eat_hit P c _ p caps Hc). cbn [flat_map m_pos].
    replace (Nat.eqb (S p) p) with false by (symmetry; apply Nat.eqb_neq; lia).
    rewrite andb_false_r, app_nil_r.
    rewrite IH by (assumption || (simpl in Hfuel; lia)). reflexivity.
Qed.

Lemma run_rep_class (neg : bool) (rs : list range) (lo : nat) (xs tl : string)
  (p : nat) (caps : list (nat * (nat * nat))) :
  startsOutside (in_class neg rs) tl = true ->
  all_bytes (in_class neg rs) xs = true ->
  run (Rep (Cls neg rs) lo None) (mkM p (xs ++ tl) caps) = greedy xs tl p caps lo.
Proof.
  intros Htl Hxs.
  transitivity (rep_iter (eat (in_class neg rs)) (S (lo + String.length (xs ++ tl)))
                  lo None (mkM p (xs ++ tl) caps)); [reflexivity | ].
  apply rep_iter_class; try assumption.
  rewrite length_append. lia.
Qed.

(** The longest split comes first. *)
Lemma greedy_head (tl : string) (caps : list (nat * (nat * nat))) :
  forall xs p lo, lo <= String.length xs ->
  exists others,
    greedy xs tl p caps lo = mkM (p + String.length xs) tl caps :: others.
Proof.
  induction xs as [ | c xs IH]; intros p lo Hlo; simpl in *.
  - assert (lo = 0) as -> by lia. simpl. rewrite Nat.add_0_r. now exists [].
  - destruct (IH (S p) (pred lo)) as [others Ho]; [lia | ].
    rewrite Ho. replace (S p + String.length xs) with (p + S (String.length xs)) by lia.
    eexists. reflexivity.
Qed.

(** With no lower bound, the split one byte short comes second. *)
Lemma greedy_second (tl : string) (caps : list (nat * (nat * nat))) (q : ascii) :
  forall ys p,
  exists others,
    greedy (ys ++ String q "") tl p caps 0
    = mkM (p + String.length ys + 1) tl caps
      :: mkM (p + String.length ys) (String q tl) caps :: others.
Proof.
  induction ys as [ | c ys IH]; intros p; simpl.
  - rewrite !Nat.add_0_r. replace (p + 1) with (S p) by lia. now exists [].
  - destruct (IH (S p)) as [others Ho]. rewrite Ho.
    replace (S p + String.length ys + 1) with (p + S (String.length ys) + 1) by lia.
    replace (S p + String.length ys) with (p + S (String.length ys)) by lia.
    eexists. reflexivity.
Qed.

(** An optional part that does not match is passed over; one that
    matches is taken. *)
Lemma run_opt_miss (r : regex) (st : mstate) :
  run r st = [] -> run (opt r) st = [st].
Proof.
  intros Hr. unfold opt. simpl. rewrite Hr. reflexivity.
Qed.

Lemma run_opt_hit (r : regex) (st y : mstate) (tl : list mstate) :
  run r st = y :: tl -> m_pos y <> m_pos st -> m_rest st <> "" ->
  exists others, run (opt r) st = y :: others.
Proof.
  intros Hr Hpos Hrest. unfold opt. simpl. rewrite Hr.
  destruct (m_rest st) as [ | c s]; [contradiction | ]. simpl.
  apply Nat.eqb_neq in Hpos. rewrite Hpos. simpl.
  eexists. reflexivity.
Qed.

Lemma run_opt_nonempty (r : regex) (st : mstate) : run (opt r) st <> [].
Proof.
  unfold opt. simpl.
  destruct (flat_map _ (run r st)); discriminate.
Qed.

Lemma rep_iter_keeps (f : mstate -> list mstate) (i : nat) :
  (forall st y, In y (f st) -> lookupCap i (m_caps y) = lookupCap i (m_caps st)) ->
  forall fuel lo hi st y,
  In y (rep_iter f fuel lo hi st) ->
  lookupCap i (m_caps y) = lookupCap i (m_caps st).
Proof.
  intros Hf. induction fuel as [ | fuel IH]; intros lo hi st y Hy; [contradiction | ].
  simpl in Hy. apply in_app_or in Hy as [Hy | Hy].
  - assert (Hin : In y (flat_map
                          (fun st' =>
                             if Nat.eqb lo 0 && Nat.eqb (m_pos st') (m_pos st) then []
                             else rep_iter f fuel (pred lo) (option_map pred hi) st')
                          (f st))).
    { destruct hi as [[ | h] | ]; [contradiction | exact Hy | exact Hy]. }
    apply in_flat_map in Hin as (st' & Hst' & Hy').
    destruct (Nat.eqb lo 0 && Nat.eqb (m_pos st') (m_pos st)); [contradiction | ].
    rewrite (IH _ _ _ _ Hy'). now apply Hf.
  - destruct (Nat.eqb lo 0); [ | contradiction].
    destruct Hy as [<- | []]. reflexivity.
Qed.

(** A group that the pattern does not contain keeps its capture. *)
Lemma run_keeps (i : nat) :
  forall r, ~ In i (groupsOf r) ->
  forall st y, In y (run r st) -> lookupCap i (m_caps y) = lookupCap i (m_caps st).
Proof.
  induction r as [ | c | neg rs | | | a IHa b IHb | a IHa b IHb | r IHr lo hi | j r IHr];
    intros Hi st y Hy; simpl in Hi, Hy.
  - destruct Hy as [<- | []]. reflexivity.
  - unfold eat in Hy. destruct (m_rest st) as [ | d s]; [contradiction | ].
    destruct (Ascii.eqb c d); [ | contradiction]. destruct Hy as [<- | []]. reflexivity.
  - unfold eat in Hy. destruct (m_rest st) as [ | d s]; [contradiction | ].
    destruct (in_class neg rs d); [ | contradiction].
    destruct Hy as [<- | []]. reflexivity.
  - destruct (Nat.eqb (m_pos st) 0); [ | contradiction].
    destruct Hy as [<- | []]. reflexivity.
  - destruct (m_rest st); [ | contradiction]. destruct Hy as [<- | []]. reflexivity.
  - apply in_flat_map in Hy as (x & Hx & Hy).
    rewrite (IHb (fun H => Hi (in_or_app _ _ _ (or_intror H))) _ _ Hy).
    exact (IHa (fun H => Hi (in_or_app _ _ _ (or_introl H))) _ _ Hx).
  - apply in_app_or in Hy as [Hy | Hy].
    + exact (IHa (fun H => Hi (in_or_app _ _ _ (or_introl H))) _ _ Hy).
    + exact (IHb (fun H => Hi (in_or_app _ _ _ (or_intror H))) _ _ Hy).
  - exact (rep_iter_keeps (run r) i (IHr Hi)
             (S (lo + String.length (m_rest st))) lo hi st y Hy).
  - apply in_map_iff in Hy as (x & <- & Hx). simpl.
    destruct (Nat.eqb_spec i j) as [-> | Hij]; [exfalso; apply Hi; now left | ].
    exact (IHr (fun H => Hi (or_intror H)) _ _ Hx).
Qed.

End MatcherFacts.

(** *** The start pattern of auto_explain on a quoted query line *)

Section QuotedQueryLine.

Lemma rxAEStart_expr :
  expr rxAEStart
  = Cat Bol
      (lits "duration: "
         (Cat (Rep digitC 1 None)
            (Cat (Lit ".")
               (Cat (Rep digitC 1 None)
                  (lits (" ms  plan:" ++ nl) (Cat (Rep blankC 1 None) afterBlanks)))))).
Proof. vm_compute. reflexivity. Qed.

Lemma NumSubexp_rxAEStart : NumSubexp rxAEStart = 4.
Proof. vm_compute. reflexivity. Qed.

Lemma all_bytes_ext (P Q : ascii -> bool) (s : string) :
  (forall c, P c = Q c) -> all_bytes P s = all_bytes Q s.
Proof.
  intros HPQ. induction s as [ | c s IH]; simpl; [reflexivity | ].
  now rewrite HPQ, IH.
Qed.

Lemma byte_le_refl (c : ascii) : byte_le c c = true.
Proof. unfold byte_le. apply N.leb_refl. Qed.

Lemma byte_le_antisym (a b : ascii) :
  byte_le a b && byte_le b a = Ascii.eqb b a.
Proof.
  unfold byte_le.
  destruct (Ascii.eqb_spec b a) as [-> | Hne].
  - now rewrite N.leb_refl.
  - destruct (N.leb_spec (N_of_ascii a) (N_of_ascii b));
      destruct (N.leb_spec (N_of_ascii b) (N_of_ascii a)); try reflexivity.
    exfalso. apply Hne.
    rewrite <- (ascii_N_embedding b), <- (ascii_N_embedding a).
    f_equal. lia.
Qed.

Lemma digit_class (c : ascii) : in_class false [("0", "9")]%char c = isDigit c.
Proof. unfold in_class, in_range, isDigit. simpl. now rewrite orb_false_r. Qed.

Lemma blank_class (c : ascii) :
  in_class false [(" ", " "); ("009", "009")]%char c = isBlank c.
Proof.
  unfold in_class, in_range, isBlank. simpl.
  now rewrite !byte_le_antisym, orb_false_r.
Qed.

Lemma dot_class (c : ascii) : in_class true [("010", "010")]%char c = notNewline c.
Proof.
  unfold in_class, in_range, notNewline. simpl.
  now rewrite byte_le_antisym, orb_false_r.
Qed.

End QuotedQueryLine.

Section FirstMatch.

Lemma search_first (r : regex) (p : nat) (s : string) (y : mstate) :
  firstIs r (mkM p s []) y -> search r p s = Some (p, y).
Proof.
  intros [others Hrun]. destruct s; simpl; now rewrite Hrun.
Qed.

Lemma firstIs_cat (a b : regex) (st y z : mstate) :
  firstIs a st y -> firstIs b y z -> firstIs (Cat a b) st z.
Proof.
  intros [oa Ha] [ob Hb]. unfold firstIs. simpl. rewrite Ha. simpl. rewrite Hb.
  eexists. reflexivity.
Qed.

Lemma firstIs_cat_second (a b : regex) (st y1 y2 z : mstate) (o : list mstate) :
  run a st = y1 :: y2 :: o -> run b y1 = [] -> firstIs b y2 z ->
  firstIs (Cat a b) st z.
Proof.
  intros Ha Hb1 [ob Hb]. unfold firstIs. simpl. rewrite Ha. simpl.
  rewrite Hb1, Hb. eexists. reflexivity.
Qed.

Lemma firstIs_bol (st : mstate) : m_pos st = 0 -> firstIs Bol st st.
Proof. intros Hp. unfold firstIs. simpl. rewrite Hp. now exists []. Qed.

Lemma firstIs_lit (c : ascii) (p : nat) (s : string) (caps : list (nat * (nat * nat))) :
  firstIs (Lit c) (mkM p (String c s) caps) (mkM (S p) s caps).
Proof.
  unfold firstIs. simpl. rewrite eat_hit by apply Ascii.eqb_refl. now exists [].
Qed.

Lemma firstIs_lits (s : string) (r : regex) (p : nat) (rest : string)
  (caps : list (nat * (nat * nat))) (z : mstate) :
  firstIs r (mkM (p + String.length s) rest caps) z ->
  firstIs (lits s r) (mkM p (s ++ rest) caps) z.
Proof. unfold firstIs. now rewrite run_lits. Qed.

Lemma firstIs_rep_class (neg : bool) (rs : list range) (lo : nat) (xs tl : string)
  (p : nat) (caps : list (nat * (nat * nat))) :
  startsOutside (in_class neg rs) tl = true ->
  all_bytes (in_class neg rs) xs = true ->
  lo <= String.length xs ->
  firstIs (Rep (Cls neg rs) lo None) (mkM p (xs ++ tl) caps)
          (mkM (p + String.length xs) tl caps).
Proof.
  intros Htl Hxs Hlo. unfold firstIs. rewrite run_rep_class by assumption.
  now apply greedy_head.
Qed.

Lemma firstIs_opt_miss (r : regex) (st : mstate) :
  run r st = [] -> firstIs (opt r) st st.
Proof. intros Hr. unfold firstIs. rewrite run_opt_miss by assumption. now exists []. Qed.

Lemma firstIs_opt_hit (r : regex) (st y : mstate) :
  firstIs r st y -> m_pos y <> m_pos st -> m_rest st <> "" ->
  firstIs (opt r) st y.
Proof. intros [o Hr] Hpos Hrest. exact (run_opt_hit r st y o Hr Hpos Hrest). Qed.

Lemma firstIs_grp (i : nat) (r : regex) (st y : mstate) :
  firstIs r st y ->
  firstIs (Grp i r) st
    (mkM (m_pos y) (m_rest y) ((i, (m_pos st, m_pos y)) :: m_caps y)).
Proof.
  intros [o Hr]. unfold firstIs. simpl. rewrite Hr. simpl. eexists. reflexivity.
Qed.

Lemma firstIs_opt_some (r : regex) (st : mstate) :
  exists y, firstIs (opt r) st y
            /\ forall i, ~ In i (groupsOf r) ->
                         lookupCap i (m_caps y) = lookupCap i (m_caps st).
Proof.
  destruct (run (opt r) st) as [ | y o] eqn:Hrun.
  - now apply run_opt_nonempty in Hrun.
  - exists y. split; [now exists o | ]. intros i Hi.
    apply (run_keeps i (opt r) Hi st y). rewrite Hrun. now left.
Qed.

End FirstMatch.

Section QuotedEntry.

Lemma all_bytes_app (P : ascii -> bool) (a b : string) :
  all_bytes P (a ++ b) = all_bytes P a && all_bytes P b.
Proof.
  induction a as [ | c a IH]; simpl; [reflexivity | ].
  now rewrite IH, andb_assoc.
Qed.

Lemma nonempty_length (s : string) : s <> "" -> 1 <= String.length s.
Proof. destruct s; [contradiction | simpl; lia]. Qed.

Lemma drop_append (a b : string) : drop (String.length a) (a ++ b) = b.
Proof. induction a as [ | c a IH]; simpl; [apply drop_0 | exact IH]. Qed.

Lemma take_append (a b : string) : take (String.length a) (a ++ b) = a.
Proof.
  induction a as [ | c a IH]; simpl; [now destruct b | now rewrite IH].
Qed.

Lemma slice_middle (pre mid post : string) :
  slice (String.length pre) (String.length pre + String.length mid)
        (pre ++ mid ++ post)
  = mid.
Proof.
  unfold slice. rewrite drop_append.
  replace (String.length pre + String.length mid - String.length pre)
    with (String.length mid) by lia.
  apply take_append.
Qed.

Variables d1 d2 ws body rest : string.
Hypothesis d1_digits : all_bytes isDigit d1 = true.
Hypothesis d1_nonempty : d1 <> "".
Hypothesis d2_digits : all_bytes isDigit d2 = true.
Hypothesis d2_nonempty : d2 <> "".
Hypothesis ws_blank : all_bytes isBlank ws = true.
Hypothesis ws_nonempty : ws <> "".
Hypothesis body_line : all_bytes notNewline body = true.

(** The rest of the line, the closing quote and the newline: the greedy
    [.*] first runs to the end of the line, where no quote follows, and
    gives back one byte. *)
Lemma firstIs_quoted_tail (p : nat) (caps : list (nat * (nat * nat))) :
  firstIs (Cat (Rep dotC 0 None) (Cat (Lit "034") (Lit "010")))
    (mkM p (body ++ dq ++ nl ++ rest) caps)
    (mkM (S (S (p + String.length body))) rest caps).
Proof.
  destruct (greedy_second (nl ++ rest) caps "034" body p) as [o Ho].
  eapply firstIs_cat_second.
  - rewrite <- (append_assoc body dq (nl ++ rest)).
    unfold dotC. rewrite run_rep_class; [exact Ho | reflexivity | ].
    rewrite (all_bytes_ext _ notNewline) by apply dot_class.
    rewrite all_bytes_app, body_line. reflexivity.
  - reflexivity.
  - eapply firstIs_cat; apply firstIs_lit.
Qed.

(** The pattern up to and including the quoted-line group, on such an
    entry: the JSON and XML groups are passed over, the third group
    takes the quoted line. *)
Lemma firstIs_through_quoted (K : regex) (z : mstate) :
  firstIs K (mkM (quotedEnd d1 d2 ws body) rest [(3, ((quotedStart d1 d2 ws), (quotedEnd d1 d2 ws body)))]) z ->
  firstIs
    (Cat Bol
       (lits "duration: "
          (Cat (Rep digitC 1 None)
             (Cat (Lit ".")
                (Cat (Rep digitC 1 None)
                   (lits (" ms  plan:" ++ nl)
                      (Cat (Rep blankC 1 None)
                         (Cat (opt grpJSON)
                            (Cat (opt grpXML) (Cat (opt grpQuoted) K))))))))))
    (mkM 0 (quotedEntryText d1 d2 ws body rest) [])
    z.
Proof.
  intros HK.
  unfold quotedEntryText, signatureText, quotedQueryLine.
  rewrite !append_assoc.
  eapply firstIs_cat; [apply firstIs_bol; reflexivity | ].
  apply firstIs_lits.
  eapply firstIs_cat.
  { apply firstIs_rep_class; [reflexivity | | now apply nonempty_length].
    rewrite (all_bytes_ext _ isDigit) by apply digit_class. exact d1_digits. }
  eapply firstIs_cat; [apply firstIs_lit | ].
  eapply firstIs_cat.
  { apply firstIs_rep_class; [reflexivity | | now apply nonempty_length].
    rewrite (all_bytes_ext _ isDigit) by apply digit_class. exact d2_digits. }
  apply (firstIs_lits (" ms  plan:" ++ nl)).
  eapply firstIs_cat.
  { apply firstIs_rep_class; [reflexivity | | now apply nonempty_length].
    rewrite (all_bytes_ext _ isBlank) by apply blank_class. exact ws_blank. }
  eapply firstIs_cat; [apply firstIs_opt_miss; reflexivity | ].
  eapply firstIs_cat; [apply firstIs_opt_miss; reflexivity | ].
  eapply firstIs_cat.
  { apply firstIs_opt_hit.
    - apply firstIs_grp.
      apply (firstIs_lits ("Query Text: " ++ dq)).
      apply firstIs_quoted_tail.
    - simpl. lia.
    - discriminate. }
  simpl m_pos. simpl m_rest. simpl m_caps.
  match goal with
  | |- firstIs K ?st z =>
      replace st with (mkM (quotedEnd d1 d2 ws body) rest [(3, ((quotedStart d1 d2 ws), (quotedEnd d1 d2 ws body)))]);
        [exact HK | ]
  end.
  unfold quotedEnd, quotedStart, signatureText, quotedQueryLine.
  rewrite !length_append. simpl String.length.
  f_equal; [lia | ]. f_equal. f_equal. f_equal; lia.
Qed.

(** On such an entry the start pattern matches, its first two groups
    take no part, and the third is the quoted line. *)
Lemma rxAEStart_quoted :
  exists sm,
    FindStringSubmatch rxAEStart (quotedEntryText d1 d2 ws body rest) = Some sm
    /\ nth 1 sm "" = "" /\ nth 2 sm "" = ""
    /\ nth 3 sm "" = quotedQueryLine body.
Proof.
  destruct (firstIs_opt_some grpPlain
              (mkM (quotedEnd d1 d2 ws body) rest [(3, ((quotedStart d1 d2 ws), (quotedEnd d1 d2 ws body)))]))
    as (y & Hy & Hkeep).
  pose proof (firstIs_through_quoted (opt grpPlain) y Hy) as Hfirst.
  change (Cat (opt grpJSON) (Cat (opt grpXML) (Cat (opt grpQuoted) (opt grpPlain))))
    with afterBlanks in Hfirst.
  rewrite <- rxAEStart_expr in Hfirst.
  apply search_first in Hfirst.
  unfold FindStringSubmatch, FindSubmatch.
  rewrite Hfirst, NumSubexp_rxAEStart.
  eexists. split; [reflexivity | ].
  cbn [seq map nth option_map].
  rewrite (Hkeep 1), (Hkeep 2), (Hkeep 3)
    by (simpl; intros [E | []]; discriminate E).
  cbn [m_caps lookupCap Nat.eqb].
  repeat split.
  unfold quotedStart, quotedEnd, quotedEntryText. apply slice_middle.
Qed.

End QuotedEntry.

(** *** The backward scan *)

Section Scan.
Context `{Host}.

(** What the scan guarantees when it stops: the offset is at the top of
    the file, or the block read there shows a first timestamp before the
    window start. *)
Lemma seekBack_stops (fuel : nat) (content : string) (prefix : Regexp)
  (start : Time) :
  forall ofs0 ofs,
  seekBack fuel content prefix start ofs0 = At ofs ->
  (0 <= ofs <= Z.max 0 ofs0)%Z
  /\ (ofs = 0%Z
      \/ exists buf ts,
           ReadFullAt content ofs 4096 = inr buf
           /\ firstTS buf prefix = Some (ts, None)
           /\ IsZero ts = false /\ Before ts start = true).
Proof.
  induction fuel as [ | fuel IH]; intros ofs0 ofs; [discriminate | ].
  cbn [seekBack].
  set (o := if (ofs0 <? 0)%Z then 0%Z else ofs0).
  assert (Ho : o = Z.max 0 ofs0).
  { subst o. destruct (Z.ltb_spec ofs0 0); lia. }
  destruct (ReadFullAt content o 4096) as [e | buf] eqn:Hread; [discriminate | ].
  destruct (firstTS buf prefix) as [[ts [err | ]] | ] eqn:Hts; try discriminate.
  destruct (negb (IsZero ts) && Before ts start) eqn:Hstop.
  - intros E. injection E as <-. split; [lia | ].
    apply andb_prop in Hstop as [Hz Hb]. apply negb_true_iff in Hz.
    right. exists buf, ts. auto.
  - destruct (Z.eqb_spec o 0) as [Hzero | Hpos].
    + intros E. injection E as <-. split; [lia | now left].
    + intros E. apply IH in E as [Hrange Hwhy]. split; [lia | exact Hwhy].
Qed.

(** The loop bound of [readLogLines] is never reached by the scan. *)
Lemma seekBack_enough_fuel (content : string) (prefix : Regexp) (start : Time) :
  forall fuel ofs0,
  (ofs0 <= Z.of_nat fuel * 4096)%Z ->
  seekBack (S fuel) content prefix start ofs0 <> ScanOutOfFuel.
Proof.
  induction fuel as [ | fuel IH]; intros ofs0 Hfuel; cbn [seekBack];
    set (o := if (ofs0 <? 0)%Z then 0%Z else ofs0);
    assert (Ho : o = Z.max 0 ofs0)
      by (subst o; destruct (Z.ltb_spec ofs0 0); lia);
    destruct (ReadFullAt content o 4096) as [e | buf]; try discriminate;
    destruct (firstTS buf prefix) as [[ts [err | ]] | ]; try discriminate;
    destruct (negb (IsZero ts) && Before ts start); try discriminate;
    destruct (Z.eqb_spec o 0) as [Hzero | Hpos]; try discriminate.
  - lia.
  - apply IH. lia.
Qed.

(** Nor by the forward pass, when the prefix pattern has no empty match
    (with one, the loop of the source does not end either). *)
Lemma forward_enough_fuel (prefix : Regexp) (start : Time) :
  (forall b p0 p1, FindIndex prefix b = Some (p0, p1) -> 0 < p1) ->
  forall fuel bigbuf pos count c,
  String.length bigbuf < fuel ->
  pos = None \/ pos = FindIndex prefix bigbuf ->
  forward fuel prefix start bigbuf pos count c <> OutOfFuel.
Proof.
  intros Hne. induction fuel as [ | fuel IH]; intros bigbuf pos count c Hlen Hpos;
    [lia | ].
  cbn [forward]. destruct pos as [[p0 p1] | ]; [ | discriminate].
  destruct (Nat.ltb 0 (String.length bigbuf)) eqn:Hbig; [ | discriminate].
  destruct (FindSubmatch prefix (drop p0 bigbuf)) as [mt | ]; [ | discriminate].
  destruct (getMatchData mt prefix) as [[[[tm usr] dbn] [err | ]] | ];
    try discriminate.
  destruct Hpos as [Hpos | Hpos]; [discriminate | ].
  symmetry in Hpos. apply Hne in Hpos.
  assert (Hdrop : String.length (drop p1 bigbuf) < fuel).
  { apply Nat.ltb_lt in Hbig. clear - Hpos Hlen Hbig.
    destruct p1 as [ | p1]; [lia | ].
    destruct bigbuf as [ | b bigbuf]; [simpl in Hbig; lia | ].
    simpl in Hlen |- *.
    assert (Hle : forall n s, String.length (drop n s) <= String.length s).
    { induction n as [ | n IHn]; intros [ | a s]; simpl; auto. }
    specialize (Hle p1 bigbuf). lia. }
  destruct (FindIndex prefix (drop p1 bigbuf)) as [[q0 q1] | ] eqn:Hnext;
    destruct (negb (Before tm start));
    try destruct (splitLevel _) as [lvl ln];
    try (apply IH; [exact Hdrop | right; symmetry; exact Hnext]);
    destruct fuel; discriminate.
Qed.

End Scan.

(** *** The window start inside a timestamp *)

(** C1, on the code. The file has three lines with non-decreasing
    timestamps, all inside the 5 minutes before the clock reading
    1700000060; the first line of the window is at offset 0.  The scan
    stops at offset 8: the block read there starts with the text
    [00.500 ], which the prefix pattern matches and which decodes to an
    instant in 1970.  The forward pass from offset 8 then drops the
    first line, and the deadlock report is lost; from offset 0 it is
    found. *)
Theorem scan_stops_inside_timestamp :
  let start := windowStart (Unix 1700000060 0) 5 in
  String.length epochLog = 4104
  /\ map fst (fileLines (H := exampleHost) epochPrefix epochLog) = [0; 41; 113]
  /\ nondecreasing (map snd (fileLines (H := exampleHost) epochPrefix epochLog))
     = true
  /\ firstInWindow start (fileLines (H := exampleHost) epochPrefix epochLog)
     = Some 0
  /\ seekBack (H := exampleHost) 2 epochLog epochPrefix start (4104 - 4096)
     = At 8
  /\ firstTS (H := exampleHost) (take 4096 (drop 8 epochLog)) epochPrefix
     = Some (Unix 500 0, None)
  /\ deadlocksOf
       (readLogLines (H := exampleHost) (fun _ => Some epochLog)
          (Unix 1700000060 0) freshCollector "postgresql.log" epochPrefix)
     = Some []
  /\ deadlocksOf
       (forward (H := exampleHost) 4105 epochPrefix start epochLog
          (FindIndex epochPrefix epochLog) 0 freshCollector)
     = Some [mkDeadlock 1700000500
               ("Process 1 waits for ShareLock on transaction 2." ++ nl)].
Proof. vm_compute. repeat split; reflexivity. Qed.

(** *** The prefix compiler and the timestamp directives *)

Lemma compilePrefixLoop_ts (n : nat) :
  forall prefix ts hasq r, String.length prefix <= n ->
  fst (fst (compilePrefixLoop prefix ts hasq r)) = ts || hasTimestampDirective prefix.
Proof.
  induction n as [ | n IH]; intros prefix ts hasq r Hlen.
  - destruct prefix; [ | simpl in Hlen; lia]. simpl. now rewrite orb_false_r.
  - destruct prefix as [ | c rest]; [simpl; now rewrite orb_false_r | ].
    simpl in Hlen. unfold hasTimestampDirective. simpl.
    destruct (Ascii.eqb c "%") eqn:Ec; simpl.
    + destruct rest as [ | d rest']; [simpl; now rewrite orb_false_r | ].
      simpl in Hlen. unfold isTimestampDirective. simpl.
      destruct (Ascii.eqb d "t") eqn:Et; [rewrite IH by lia; simpl; now rewrite orb_true_r | ].
      destruct (Ascii.eqb d "m") eqn:Em; [rewrite IH by lia; simpl; now rewrite orb_true_r | ].
      destruct (Ascii.eqb d "n") eqn:En; [rewrite IH by lia; simpl; now rewrite orb_true_r | ].
      simpl.
      destruct (Ascii.eqb d "s"); [now rewrite IH by lia | ].
      destruct (Ascii.eqb d "u"); [now rewrite IH by lia | ].
      destruct (Ascii.eqb d "d"); [now rewrite IH by lia | ].
      destruct (Ascii.eqb d "q"); now rewrite IH by lia.
    + now rewrite IH by lia.
Qed.

(** C2. A prefix format with none of the directives t, m, n makes
    [compilePrefix] return the configuration error, and hence no pattern;
    a format with one of them never gives that error (it gives a pattern,
    or the pattern error of [regexp.Compile]). *)
Theorem compilePrefix_timestamp_directive (prefix : string) :
  (hasTimestampDirective prefix = false ->
     compilePrefix prefix = inl ErrNoTimestamp)
  /\ (hasTimestampDirective prefix = true ->
     compilePrefix prefix <> inl ErrNoTimestamp).
Proof.
  pose proof (compilePrefixLoop_ts (String.length prefix) prefix false false ""
                (le_n _)) as Hts.
  unfold compilePrefix.
  destruct (compilePrefixLoop prefix false false "") as [[ts hasq] r].
  simpl in Hts. subst ts. split; intros ->; simpl.
  - reflexivity.
  - destruct (Compile _); discriminate.
Qed.

Lemma compilePrefix_timestamp_directive_witness :
  compilePrefix "%u@%d %%t " = inl ErrNoTimestamp
  /\ compilePrefix "%t [%u@%d] " <> inl ErrNoTimestamp.
Proof.
  split.
  - apply (proj1 (compilePrefix_timestamp_directive "%u@%d %%t ")). reflexivity.
  - apply (proj2 (compilePrefix_timestamp_directive "%t [%u@%d] ")). reflexivity.
Defined.

Lemma no_occurrence_no_directive (n : nat) :
  forall prefix, String.length prefix <= n ->
  contains prefix "%t" = false -> contains prefix "%m" = false ->
  contains prefix "%n" = false ->
  hasTimestampDirective prefix = false.
Proof.
  unfold hasTimestampDirective.
  induction n as [ | n IH]; intros prefix Hlen Ht Hm Hn.
  - destruct prefix; [reflexivity | simpl in Hlen; lia].
  - destruct prefix as [ | c rest]; [reflexivity | ].
    simpl in Hlen.
    apply orb_false_elim in Ht as [Ht0 Ht], Hm as [Hm0 Hm], Hn as [Hn0 Hn].
    simpl. destruct (Ascii.eqb c "%") eqn:Ec.
    + apply Ascii.eqb_eq in Ec. subst c.
      destruct rest as [ | d rest']; [reflexivity | ].
      simpl in Hlen, Ht0, Hm0, Hn0 |- *.
      rewrite andb_true_r in Ht0, Hm0, Hn0.
      unfold isTimestampDirective.
      rewrite (Ascii.eqb_sym d), Ht0, (Ascii.eqb_sym d), Hm0, (Ascii.eqb_sym d), Hn0.
      simpl. simpl in Ht, Hm, Hn.
      apply orb_false_elim in Ht as [_ Ht], Hm as [_ Hm], Hn as [_ Hn].
      apply IH; [lia | assumption ..].
    + apply IH; [lia | assumption ..].
Qed.

(** *** One line through the decoder *)

Lemma compilePrefix_bracket : compilePrefix "%t [%u@%d] " = inr bracketPrefix.
Proof. vm_compute. reflexivity. Qed.

Lemma bracket_find : FindIndex bracketPrefix syntaxErrorLine = Some (0, 37).
Proof. vm_compute. reflexivity. Qed.

Lemma bracket_submatch :
  FindSubmatch bracketPrefix (drop 0 syntaxErrorLine)
  = Some [Some "2024-01-15 10:30:00 UTC [alice@mydb] ";
          Some "2024-01-15 10:30:00 UTC"; Some "alice"; Some "mydb"].
Proof. vm_compute. reflexivity. Qed.

Lemma bracket_decode `{Host} :
  getMatchData [Some "2024-01-15 10:30:00 UTC [alice@mydb] ";
                Some "2024-01-15 10:30:00 UTC"; Some "alice"; Some "mydb"]
    bracketPrefix
  = Some (DateUTC 2024 1 15 10 30 0 0, "alice", "mydb", None).
Proof. vm_compute. reflexivity. Qed.

Lemma bracket_rest : FindIndex bracketPrefix (drop 37 syntaxErrorLine) = None.
Proof. vm_compute. reflexivity. Qed.

Lemma bracket_level :
  splitLevel (chomp (drop 37 syntaxErrorLine)) = ("ERROR", "syntax error").
Proof. vm_compute. reflexivity. Qed.

(** C3. With the prefix format [%t [%u@%d] ], the line below decodes to
    the timestamp 2024-01-15T10:30:00Z (Unix second 1705314600), the user
    alice and the database mydb; the text after the prefix splits into
    the level ERROR and the text "syntax error", the level token and the
    spaces after it stripped; [processLogLine] makes of these the current
    entry, with no extra sub-part.  The forward pass over the line does
    all this when the timestamp is not before the window start, and ends
    without error. *)
Theorem syntax_error_line_decoded `{Host} (c : collector) :
  let stamp := DateUTC 2024 1 15 10 30 0 0 in
  let entry := mkEntry stamp "alice" "mydb" "ERROR" "syntax error" [] in
  compilePrefix "%t [%u@%d] " = inr bracketPrefix
  /\ UnixOf stamp = 1705314600%Z /\ nsec stamp = 0%Z
  /\ FindIndex bracketPrefix syntaxErrorLine = Some (0, 37)
  /\ option_map (fun mt => getMatchData mt bracketPrefix)
       (FindSubmatch bracketPrefix syntaxErrorLine)
     = Some (Some (stamp, "alice", "mydb", None))
  /\ splitLevel (chomp (drop 37 syntaxErrorLine)) = ("ERROR", "syntax error")
  /\ processLogLine c true stamp "alice" "mydb" "ERROR" "syntax error"
     = setCurrLog c entry
  /\ (forall start fuel,
        Before stamp start = false ->
        forward (S fuel) bracketPrefix start syntaxErrorLine
          (FindIndex bracketPrefix syntaxErrorLine) 0 c
        = Returned (setCurrLog c entry) None).
Proof.
  intros stamp entry.
  split; [exact compilePrefix_bracket | ].
  split; [vm_compute; reflexivity | ].
  split; [vm_compute; reflexivity | ].
  split; [exact bracket_find | ].
  split; [change (FindSubmatch bracketPrefix syntaxErrorLine)
            with (FindSubmatch bracketPrefix (drop 0 syntaxErrorLine));
          rewrite bracket_submatch; simpl; now rewrite bracket_decode | ].
  split; [exact bracket_level | ].
  split; [reflexivity | ].
  intros start fuel Hwin.
  rewrite bracket_find. cbn [forward].
  change (Nat.ltb 0 (String.length syntaxErrorLine)) with true. cbv iota.
  rewrite bracket_submatch, bracket_decode, bracket_rest.
  fold stamp. rewrite Hwin. cbn [negb].
  rewrite bracket_level.
  destruct fuel; reflexivity.
Qed.

Lemma syntax_error_line_decoded_witness :
  forward (H := exampleHost) 1 bracketPrefix zeroTime syntaxErrorLine
    (FindIndex bracketPrefix syntaxErrorLine) 0 freshCollector
  = Returned
      (mkCollector 5
         (mkEntry (DateUTC 2024 1 15 10 30 0 0) "alice" "mydb" "ERROR"
            "syntax error" [])
         emptyModel)
      None.
Proof.
  destruct (syntax_error_line_decoded (H := exampleHost) freshCollector)
    as (_ & _ & _ & _ & _ & _ & _ & Hpass).
  exact (Hpass zeroTime 0 eq_refl).
Defined.

(** *** Epoch timestamps *)

Local Open Scope Z_scope.

Lemma roundFloat64_small (z : Z) : Z.abs z < 2 ^ 53 -> roundFloat64 z = z.
Proof.
  intros Hz. unfold roundFloat64.
  apply Z.ltb_lt in Hz. rewrite Hz. reflexivity.
Qed.

Lemma scaleE9_small `{Host} (n : Z) :
  0 <= n -> n * 1000000000 < 2 ^ 53 -> scaleE9 n = n * 1000000000.
Proof.
  intros Hn Hlt. unfold scaleE9.
  rewrite (roundFloat64_small n) by (rewrite Z.abs_eq; lia).
  rewrite roundFloat64_small by (rewrite Z.abs_eq; lia).
  replace (- 2 ^ 63 <=? n * 1000000000) with true by (symmetry; apply Z.leb_le; lia).
  replace (n * 1000000000 <? 2 ^ 63) with true by (symmetry; apply Z.ltb_lt; lia).
  reflexivity.
Qed.

Lemma wrap64_add_l (a b : Z) : wrap64 (wrap64 a + b) = wrap64 (a + b).
Proof.
  unfold wrap64.
  replace ((a + 2 ^ 63) mod 2 ^ 64 - 2 ^ 63 + b + 2 ^ 63)
    with ((a + 2 ^ 63) mod 2 ^ 64 + b) by ring.
  rewrite Z.add_mod_idemp_l by (apply Z.pow_nonzero; lia).
  f_equal. f_equal. ring.
Qed.

(** The digits after the dot, read as an integer [t2], are scaled by
    1e9 as if they were seconds: the decoded instant is [t2] whole seconds
    after second [t1], whatever the number of digits. *)
Lemma Unix_scaled_fraction `{Host} (t1 t2 : Z) :
  0 <= t2 -> t2 * 1000000000 < 2 ^ 53 ->
  Unix t1 (scaleE9 t2) = mkTime (wrap64 (t1 + t2 + unixToInternal)) 0.
Proof.
  intros Hn Hlt. rewrite scaleE9_small by assumption. unfold Unix.
  destruct (Z.eq_dec t2 0) as [-> | Hnz].
  - change (0 * 1000000000) with 0.
    change ((0 <? 0) || (1000000000 <=? 0)) with false. cbv iota beta.
    now rewrite Z.add_0_r.
  - replace (t2 * 1000000000 <? 0) with false by (symmetry; apply Z.ltb_ge; lia).
    replace (1000000000 <=? t2 * 1000000000) with true
      by (symmetry; apply Z.leb_le; lia).
    rewrite Z.quot_mul by lia. cbn [orb].
    replace (t2 * 1000000000 - t2 * 1000000000) with 0 by ring.
    change (0 <? 0) with false. cbv iota.
    now rewrite wrap64_add_l.
Qed.

Local Close Scope Z_scope.

Lemma compilePrefix_epoch : compilePrefix "%n " = inr epochPrefix.
Proof. vm_compute. reflexivity. Qed.

(** C4, on the code. The capture 1700000000.5 of a [%n] prefix decodes
    to second 1700000005 and nanosecond 0, in [getMatchData] and in
    [firstTS] alike: the digit 5 after the dot counts five seconds, not
    half a second; so does 500 count five hundred. *)
Theorem epoch_fraction_counts_seconds `{Host} :
  option_map (fun mt => getMatchData mt epochPrefix)
    (FindSubmatch epochPrefix "1700000000.5 LOG:  checkpoint starting")
  = Some (Some (Unix 1700000005 0, "", "", None))
  /\ firstTS "1700000000.5 LOG:  checkpoint starting" epochPrefix
     = Some (Unix 1700000005 0, None)
  /\ firstTS "1700000000.500 LOG:  checkpoint starting" epochPrefix
     = Some (Unix 1700000500 0, None)
  /\ Unix 1700000005 0 <> Unix 1700000000 500000000.
Proof.
  repeat split; try (vm_compute; reflexivity).
  vm_compute. discriminate.
Qed.

(** *** A timestamp that does not parse *)

Lemma compilePrefix_time : compilePrefix "%t " = inr timePrefix.
Proof. vm_compute. reflexivity. Qed.

(** C5, as stated, fails: the line with the bad timestamp is not skipped
    on its own.  Read at 10:31 with a window of 5 minutes, the file with
    the line yields no Deadlock Event, the file without it yields both:
    the complete report after the bad line is lost, and so is the one in
    progress before it. *)
Lemma bad_stamp_drops_the_rest :
  deadlocksOf
    (readLogLines (H := exampleHost) (fun _ => Some logWithBadStamp)
       (DateUTC 2024 1 15 10 31 0 0) freshCollector "postgresql.log" timePrefix)
  = Some []
  /\ deadlocksOf
       (readLogLines (H := exampleHost) (fun _ => Some logWithoutBadStamp)
          (DateUTC 2024 1 15 10 31 0 0) freshCollector "postgresql.log" timePrefix)
     = Some [mkDeadlock 1705314600
               ("Process 1 waits for ShareLock on transaction 2." ++ nl);
             mkDeadlock 1705314602
               ("Process 7 waits for ShareLock on transaction 8." ++ nl)].
Proof. vm_compute. split; reflexivity. Qed.

(** C5, amended. When [getMatchData] fails on a prefix-matched line, the
    forward pass ends there: the call returns, without an error, the
    collector as it stood before that line, whatever follows in the
    buffer; the line, the lines after it and the entry in progress are
    not processed, the facts appended before are kept. *)
Theorem decode_error_ends_forward_pass `{Host} (fuel : nat) (prefix : Regexp)
  (start : Time) (bigbuf : string) (p0 p1 count : nat) (c : collector)
  (mt : list (option string)) (tm : Time) (usr dbn : string) (err : error) :
  bigbuf <> "" ->
  FindSubmatch prefix (drop p0 bigbuf) = Some mt ->
  getMatchData mt prefix = Some (tm, usr, dbn, Some err) ->
  forward (S fuel) prefix start bigbuf (Some (p0, p1)) count c = Returned c None.
Proof.
  intros Hne Hmt Herr. cbn [forward].
  destruct bigbuf as [ | b bigbuf]; [contradiction | ].
  change (Nat.ltb 0 (String.length (String b bigbuf))) with true. cbv iota.
  rewrite Hmt, Herr. reflexivity.
Qed.

Lemma decode_error_ends_forward_pass_witness :
  forward (H := exampleHost) 1 timePrefix zeroTime
    (badStampLine ++ deadlockB ++ checkpointLine) (Some (0, 24)) 2
    (mkCollector 5 deadlockEntry emptyModel)
  = Returned (mkCollector 5 deadlockEntry emptyModel) None.
Proof.
  refine (decode_error_ends_forward_pass (H := exampleHost) 0 timePrefix zeroTime
            (badStampLine ++ deadlockB ++ checkpointLine) 0 24 2
            (mkCollector 5 deadlockEntry emptyModel)
            [Some "2024-02-30 10:30:01 UTC "; Some "2024-02-30 10:30:01 UTC"]
            zeroTime "" "" (ErrTimeParse "2024-02-30 10:30:01 UTC") _ _ _).
  - discriminate.
  - vm_compute. reflexivity.
  - vm_compute. reflexivity.
Defined.

(** *** Deadlock reports *)

Lemma get_firstWithLevel (ex : list logEntryExtra) (lvl : string) :
  get ex lvl = firstWithLevel lvl ex.
Proof.
  unfold firstWithLevel.
  induction ex as [ | e ex IH]; simpl; [reflexivity | ].
  destruct (String.eqb (x_level e) lvl); [reflexivity | exact IH].
Qed.

(** Only the part of the list up to the first sub-part of that level
    matters. *)
Lemma firstWithLevel_first (lvl : string) (pre post : list logEntryExtra)
  (e : logEntryExtra) :
  Forall (fun x => x_level x <> lvl) pre -> x_level e = lvl ->
  firstWithLevel lvl (pre ++ e :: post)%list = x_line e.
Proof.
  unfold firstWithLevel. intros Hpre He.
  induction Hpre as [ | x pre Hx _ IH]; simpl.
  - rewrite He, String.eqb_refl. reflexivity.
  - apply String.eqb_neq in Hx. rewrite Hx. exact IH.
Qed.

Lemma firstWithLevel_none (lvl : string) (ex : list logEntryExtra) :
  Forall (fun x => x_level x <> lvl) ex -> firstWithLevel lvl ex = "".
Proof.
  unfold firstWithLevel. intros Hex.
  induction Hex as [ | x ex Hx _ IH]; simpl; [reflexivity | ].
  apply String.eqb_neq in Hx. rewrite Hx. exact IH.
Qed.

Lemma ReplaceAll_removeByte (s : string) (old : ascii) :
  ReplaceAll s old "" = removeByte old s.
Proof.
  unfold removeByte.
  induction s as [ | c s IH]; simpl; [reflexivity | ].
  destruct (Ascii.eqb c old); simpl; now rewrite IH.
Qed.

Lemma deadlock_line_not_AE :
  FindStringSubmatch rxAEStart "deadlock detected" = None.
Proof. vm_compute. reflexivity. Qed.

Lemma deadlock_line_not_AV :
  FindStringSubmatch rxAVStart "deadlock detected" = None.
Proof. vm_compute. reflexivity. Qed.

(** C6. A sealed entry whose starting text is exactly "deadlock detected"
    appends exactly one Deadlock Event, and nothing else; its detail is
    the content of the first extra sub-part of level DETAIL, whatever
    follows it, the empty text when there is none, with the tab bytes
    removed and a newline appended. *)
Theorem deadlock_event `{Host} (c : collector) :
  line (currLog c) = "deadlock detected" ->
  let d := mkDeadlock (UnixOf (t (currLog c)))
             (removeByte "009" (firstWithLevel "DETAIL" (extra (currLog c))) ++ nl) in
  processLogEntry c = addDeadlock c d
  /\ Deadlocks (result (processLogEntry c)) = (Deadlocks (result c) ++ [d])%list
  /\ Plans (result (processLogEntry c)) = Plans (result c)
  /\ AutoVacuums (result (processLogEntry c)) = AutoVacuums (result c)
  /\ (forall pre e post,
        extra (currLog c) = (pre ++ e :: post)%list ->
        Forall (fun x => x_level x <> "DETAIL") pre ->
        x_level e = "DETAIL" ->
        Detail d = removeByte "009" (x_line e) ++ nl)
  /\ (Forall (fun x => x_level x <> "DETAIL") (extra (currLog c)) ->
        Detail d = nl).
Proof.
  intros Hline d.
  assert (Hrun : processLogEntry c = addDeadlock c d).
  { unfold processLogEntry.
    rewrite Hline, deadlock_line_not_AE, deadlock_line_not_AV.
    unfold processDeadlock.
    rewrite ReplaceAll_removeByte, get_firstWithLevel. reflexivity. }
  rewrite Hrun. subst d. simpl. repeat split.
  - intros pre e post -> Hpre He. now rewrite firstWithLevel_first.
  - intros Hnone. now rewrite firstWithLevel_none.
Qed.

Lemma deadlock_event_witness :
  Deadlocks (result (processLogEntry (H := exampleHost)
                       (mkCollector 5 deadlockEntry emptyModel)))
  = [mkDeadlock 1705314600
       ("Process 1 waits for ShareLock on transaction 2; blocked by process 3."
        ++ nl)].
Proof.
  exact (proj1 (proj2 (deadlock_event (H := exampleHost)
                         (mkCollector 5 deadlockEntry emptyModel) eq_refl))).
Defined.

(** *** Autovacuum reports *)

(** *** The nearest [float64] *)

Section NearestFloat.
Local Open Scope Z_scope.

(** The rounded quotient is within half a unit of the fraction. *)
Lemma roundHalfEven_nearest (num den : Z) :
  0 < den ->
  2 * Z.abs (roundHalfEven num den * den - num) <= den.
Proof.
  intros Hden. unfold roundHalfEven.
  pose proof (Z.div_mod num den ltac:(lia)) as Hdm.
  pose proof (Z.mod_pos_bound num den Hden) as Hr.
  destruct ((den <? 2 * (num mod den))
            || ((2 * (num mod den) =? den) && Z.odd (num / den))) eqn:Hup.
  - assert (Hhalf : den <= 2 * (num mod den)).
    { apply orb_prop in Hup as [Hup | Hup].
      - apply Z.ltb_lt in Hup. lia.
      - apply andb_prop in Hup as [Hup _]. apply Z.eqb_eq in Hup. lia. }
    nia.
  - apply orb_false_elim in Hup as [Hup _]. apply Z.ltb_ge in Hup. nia.
Qed.

Lemma scaled_pos (n d e : Z) :
  0 < n -> 0 < d -> 0 < fst (scaled n d e) /\ 0 < snd (scaled n d e).
Proof.
  intros Hn Hd. unfold scaled. simpl.
  assert (0 < 2 ^ Z.max 0 (- e)) by (apply Z.pow_pos_nonneg; lia).
  assert (0 < 2 ^ Z.max 0 e) by (apply Z.pow_pos_nonneg; lia).
  split; nia.
Qed.

Lemma pow2_pos (k : Z) : 0 <= k -> 0 < 2 ^ k.
Proof. intros Hk. apply Z.pow_pos_nonneg; lia. Qed.

(** The same fraction at two exponents. *)
Lemma scaled_cross (n d e e' : Z) :
  e' <= e ->
  fst (scaled n d e') * snd (scaled n d e)
  = 2 ^ (e - e') * (fst (scaled n d e) * snd (scaled n d e')).
Proof.
  intros Hle. unfold scaled. cbn [fst snd].
  transitivity (n * d * (2 ^ Z.max 0 (- e') * 2 ^ Z.max 0 e)); [ring | ].
  transitivity (n * d * (2 ^ (e - e') * (2 ^ Z.max 0 (- e) * 2 ^ Z.max 0 e')));
    [ | ring].
  f_equal. rewrite <- !Z.pow_add_r by lia. f_equal. lia.
Qed.

Lemma exponent64_bits (n d : Z) :
  0 < n -> 0 < d ->
  let e := exponent64 n d in
  let q := fst (scaled n d e) / snd (scaled n d e) in
  -1074 <= e
  /\ q < 2 ^ 53
  /\ (2 ^ 52 <= q \/ e = -1074).
Proof.
  intros Hn Hd. unfold exponent64.
  set (e0 := Z.log2 n - Z.log2 d - 52).
  destruct (scaled n d e0) as [n0 d0] eqn:Hs0.
  assert (Hn0 : n0 = fst (scaled n d e0)) by now rewrite Hs0.
  assert (Hd0 : d0 = snd (scaled n d e0)) by now rewrite Hs0.
  destruct (scaled_pos n d e0 Hn Hd) as [Hp0 Hq0]. rewrite <- Hn0, <- Hd0 in *.
  assert (Hbase : 2 ^ 51 * d0 < n0 /\ n0 < 2 ^ 53 * d0).
  { destruct (Z.log2_spec n Hn) as [Ha1 Ha2], (Z.log2_spec d Hd) as [Hb1 Hb2].
    pose proof (Z.log2_nonneg n) as Ha. pose proof (Z.log2_nonneg d) as Hb.
    assert (Hkey : 2 ^ Z.succ (Z.log2 n) * 2 ^ Z.max 0 (- e0)
                   = 2 ^ 53 * (2 ^ Z.log2 d * 2 ^ Z.max 0 e0)).
    { rewrite <- !Z.pow_add_r by lia. f_equal. unfold e0. lia. }
    assert (Hkey' : 2 ^ Z.log2 n * 2 ^ Z.max 0 (- e0)
                    = 2 ^ 51 * (2 ^ Z.succ (Z.log2 d) * 2 ^ Z.max 0 e0)).
    { rewrite <- !Z.pow_add_r by lia. f_equal. unfold e0. lia. }
    pose proof (pow2_pos (Z.max 0 (- e0)) ltac:(lia)) as HP.
    pose proof (pow2_pos (Z.max 0 e0) ltac:(lia)) as HQ.
    rewrite Hn0, Hd0. unfold scaled. cbn [fst snd].
    set (P := 2 ^ Z.max 0 (- e0)) in *. set (Q := 2 ^ Z.max 0 e0) in *.
    split.
    - apply Z.lt_le_trans with (2 ^ 51 * (2 ^ Z.succ (Z.log2 d) * Q)).
      + apply Z.mul_lt_mono_pos_l; [lia | ]. apply Z.mul_lt_mono_pos_r; lia.
      + rewrite <- Hkey'. apply Z.mul_le_mono_nonneg_r; lia.
    - apply Z.lt_le_trans with (2 ^ Z.succ (Z.log2 n) * P).
      + apply Z.mul_lt_mono_pos_r; lia.
      + rewrite Hkey. apply Z.mul_le_mono_nonneg_l; [lia | ].
        apply Z.mul_le_mono_nonneg_r; lia. }
  set (e1 := if n0 / d0 <? 2 ^ 52 then e0 - 1 else e0).
  assert (Hnorm : 2 ^ 52 * snd (scaled n d e1) <= fst (scaled n d e1)
                  /\ fst (scaled n d e1) < 2 ^ 53 * snd (scaled n d e1)).
  { subst e1. destruct (Z.ltb_spec (n0 / d0) (2 ^ 52)) as [Hlt | Hge].
    - pose proof (scaled_cross n d e0 (e0 - 1) ltac:(lia)) as Hc.
      replace (e0 - (e0 - 1)) with 1 in Hc by lia. change (2 ^ 1) with 2 in Hc.
      rewrite <- Hn0, <- Hd0 in Hc.
      destruct (scaled_pos n d (e0 - 1) Hn Hd) as [Hp1 Hq1].
      assert (Hlt' : n0 < 2 ^ 52 * d0).
      { apply Z.nle_gt. intros Hle.
        assert (Hle' : d0 * 2 ^ 52 <= n0) by lia.
        apply (Z.div_le_lower_bound n0 d0 (2 ^ 52) Hq0) in Hle'. lia. }
      split; nia.
    - rewrite <- Hn0, <- Hd0. split; [ | lia].
      pose proof (Z.mul_div_le n0 d0 Hq0). nia. }
  destruct (scaled_pos n d e1 Hn Hd) as [Hp1 Hq1].
  destruct (Z.max_spec e1 (-1074)) as [[Hlt ->] | [Hge ->]].
  - split; [lia | ].
    pose proof (scaled_cross n d (-1074) e1 ltac:(lia)) as Hc.
    destruct (scaled_pos n d (-1074) Hn Hd) as [Hp Hq].
    pose proof (pow2_pos (-1074 - e1) ltac:(lia)) as Hpow.
    split; [ | now right].
    apply Z.div_lt_upper_bound; [exact Hq | ].
    destruct Hnorm as [_ Hhi].
    apply (Z.mul_lt_mono_pos_r (snd (scaled n d (-1074))) _ _ Hq) in Hhi.
    rewrite Hc in Hhi.
    apply (Z.mul_lt_mono_pos_r (snd (scaled n d e1)) _ _ Hq1).
    apply Z.le_lt_trans
      with (2 ^ (-1074 - e1) * (fst (scaled n d (-1074)) * snd (scaled n d e1)));
      [ | lia].
    rewrite <- (Z.mul_1_l (fst (scaled n d (-1074)) * snd (scaled n d e1))) at 1.
    apply Z.mul_le_mono_nonneg_r; [ | lia].
    apply Z.mul_nonneg_nonneg; lia.
  - split; [lia | ]. split.
    + apply Z.div_lt_upper_bound; lia.
    + left. apply Z.div_le_lower_bound; lia.
Qed.

(** Well-known values: one tenth; 12.34; a tie, [2^53 + 1], that goes to
    the even mantissa; the largest finite value and the first decimal
    that rounds to [+Inf]; the smallest subnormal value and a decimal
    that rounds to zero. *)
Example nearestFloat64_samples :
  nearestFloat64 1 10 = S754_finite false 7205759403792794 (-56)
  /\ nearestFloat64 1234 100 = S754_finite false 6946802425218990 (-49)
  /\ nearestFloat64 9007199254740993 1 = S754_finite false 4503599627370496 1
  /\ nearestFloat64 (2 ^ 1024 - 2 ^ 971) 1
     = S754_finite false 9007199254740991 971
  /\ nearestFloat64 (2 ^ 1024 - 2 ^ 970) 1 = S754_infinity false
  /\ nearestFloat64 5 (10 ^ 324) = S754_finite false 1 (-1074)
  /\ nearestFloat64 2 (10 ^ 324) = S754_zero false.
Proof. vm_compute. repeat split; reflexivity. Qed.

End NearestFloat.

Section Decimals.

Lemma digit_not_dot (c : ascii) : isDigit c = true -> Ascii.eqb c "." = false.
Proof.
  intros Hd. destruct (Ascii.eqb_spec c ".") as [-> | ]; [discriminate | reflexivity].
Qed.

Lemma Split1_digits (s : string) :
  all_bytes isDigit s = true -> Split1 "." s = (s, []).
Proof.
  induction s as [ | c s IH]; simpl; [reflexivity | ].
  intros Hs. apply andb_prop in Hs as [Hc Hs].
  now rewrite (IH Hs), (digit_not_dot c Hc).
Qed.

Lemma Split_decimal (i f : string) :
  all_bytes isDigit i = true -> all_bytes isDigit f = true ->
  Split (i ++ "." ++ f) "." = [i; f].
Proof.
  intros Hi Hf. unfold Split. change ("." ++ f) with (String "." f).
  assert (Hsplit : Split1 "." (i ++ String "." f) = (i, [f])).
  { induction i as [ | c i IH]; simpl.
    - now rewrite (Split1_digits f Hf).
    - simpl in Hi. apply andb_prop in Hi as [Hc Hi].
      now rewrite (IH Hi), (digit_not_dot c Hc). }
  now rewrite Hsplit.
Qed.

(** On a decimal numeral [ParseFloat] gives the [float64] nearest to its
    value. *)
Lemma ParseFloat_decimal (i f : string) :
  all_bytes isDigit i = true -> all_bytes isDigit f = true -> i ++ f <> "" ->
  ParseFloat (i ++ "." ++ f)
  = (nearestFloat64 (digitsVal 0 (i ++ f)) (10 ^ Z.of_nat (String.length f)), true).
Proof.
  intros Hi Hf Hne. unfold ParseFloat.
  rewrite (Split_decimal i f Hi Hf), Hi, Hf.
  destruct (String.eqb_spec (i ++ f) ""); [contradiction | reflexivity].
Qed.

Lemma Split1_parts (sep : ascii) (a b : string) :
  S (List.length (snd (Split1 sep b)))
  <= List.length (snd (Split1 sep (a ++ String sep b))).
Proof.
  induction a as [ | c a IH]; simpl.
  - rewrite Ascii.eqb_refl. destruct (Split1 sep b). simpl. lia.
  - destruct (Split1 sep (a ++ String sep b)) as [hd tl].
    destruct (Ascii.eqb c sep); simpl in *; lia.
Qed.

(** Text with two dots is no decimal numeral: the value is 0. *)
Lemma ParseFloat_two_dots (a b c : string) :
  ParseFloat (a ++ "." ++ b ++ "." ++ c) = (S754_zero false, false).
Proof.
  unfold ParseFloat, Split.
  pose proof (Split1_parts "." a (b ++ "." ++ c)) as H1.
  pose proof (Split1_parts "." b c) as H2.
  change ("." ++ b ++ "." ++ c) with (String "." (b ++ String "." c)).
  change (b ++ "." ++ c) with (b ++ String "." c) in H1.
  destruct (Split1 "." (a ++ String "." (b ++ String "." c))) as [hd tl].
  destruct tl as [ | f [ | g tl]]; simpl in *; [lia | lia | reflexivity].
Qed.

End Decimals.


Lemma NumSubexp_rxAVStart : NumSubexp rxAVStart = 3.
Proof. vm_compute. reflexivity. Qed.

Lemma NumSubexp_rxAVElapsed : NumSubexp rxAVElapsed = 1.
Proof. vm_compute. reflexivity. Qed.

(** C7, as stated, fails: the entry below matches the autovacuum-table
    signature with table public.orders and holds the elapsed marker with
    12.34, and no AutoVacuum Event is appended: the entry also matches
    the auto_explain signature, which is tried first. *)
Lemma autovacuum_behind_auto_explain :
  option_map (fun sm => nth 3 sm "")
    (FindStringSubmatch rxAVStart (line (currLog quotedVacuumCollector)))
    = Some "public.orders"
  /\ option_map (fun sm => nth 1 sm "")
       (FindStringSubmatch rxAVElapsed (line (currLog quotedVacuumCollector)))
     = Some "12.34"
  /\ AutoVacuums (result (processLogEntry (H := exampleHost) quotedVacuumCollector))
     = []
  /\ List.length
       (Plans (result (processLogEntry (H := exampleHost) quotedVacuumCollector)))
     = 1.
Proof. vm_compute. repeat split; reflexivity. Qed.

(** C7, amended. For a sealed entry whose starting text does not match
    the auto_explain signature: when the text matches the
    autovacuum-table signature and holds the marker ", elapsed: S s",
    exactly one AutoVacuum Event is appended, with the captured table and
    what [strconv.ParseFloat] returns for S, and nothing else changes;
    when the signature or the marker is absent, no AutoVacuum Event and
    no plan is appended.  For a decimal numeral S the value is the
    [float64] nearest to it, not the decimal itself, and for text with
    two dots it is 0.  The entry of the
    example gives table public.orders and the [float64] nearest to
    12.34, which is 6946802425218990 * 2^-49. *)
Theorem autovacuum_event `{Host} (c : collector) :
  FindStringSubmatch rxAEStart (line (currLog c)) = None ->
  (forall sm sm2,
      FindStringSubmatch rxAVStart (line (currLog c)) = Some sm ->
      FindStringSubmatch rxAVElapsed (line (currLog c)) = Some sm2 ->
      let a := mkAutoVacuum (UnixOf (t (currLog c))) (nth 3 sm "")
                 (fst (ParseFloat (nth 1 sm2 ""))) in
      processLogEntry c = addAutoVacuum c a
      /\ AutoVacuums (result (processLogEntry c))
         = (AutoVacuums (result c) ++ [a])%list
      /\ Plans (result (processLogEntry c)) = Plans (result c)
      /\ Deadlocks (result (processLogEntry c)) = Deadlocks (result c))
  /\ (FindStringSubmatch rxAVStart (line (currLog c)) = None
      \/ FindStringSubmatch rxAVElapsed (line (currLog c)) = None ->
      AutoVacuums (result (processLogEntry c)) = AutoVacuums (result c)
      /\ Plans (result (processLogEntry c)) = Plans (result c))
  /\ (line (currLog c) = vacuumLine ->
      exists a,
        AutoVacuums (result (processLogEntry c))
        = (AutoVacuums (result c) ++ [a])%list
        /\ Table a = "public.orders"
        /\ Elapsed a = nearestFloat64 1234 100
        /\ Elapsed a = S754_finite false 6946802425218990 (-49))
  /\ (forall i f,
        all_bytes isDigit i = true -> all_bytes isDigit f = true ->
        i ++ f <> "" ->
        fst (ParseFloat (i ++ "." ++ f))
        = nearestFloat64 (digitsVal 0 (i ++ f))
            (10 ^ Z.of_nat (String.length f)))
  /\ (forall a b d, fst (ParseFloat (a ++ "." ++ b ++ "." ++ d)) = S754_zero false).
Proof.
  intros HAE.
  assert (Hgen : forall sm sm2,
      FindStringSubmatch rxAVStart (line (currLog c)) = Some sm ->
      FindStringSubmatch rxAVElapsed (line (currLog c)) = Some sm2 ->
      processLogEntry c
      = addAutoVacuum c (mkAutoVacuum (UnixOf (t (currLog c))) (nth 3 sm "")
                           (fst (ParseFloat (nth 1 sm2 ""))))).
  { intros sm sm2 Hsm Hsm2.
    pose proof (FindStringSubmatch_length _ _ _ Hsm) as Hlen.
    pose proof (FindStringSubmatch_length _ _ _ Hsm2) as Hlen2.
    rewrite NumSubexp_rxAVStart in Hlen. rewrite NumSubexp_rxAVElapsed in Hlen2.
    unfold processLogEntry. rewrite HAE, Hsm.
    unfold processAV. rewrite Hlen, Hsm2. simpl.
    destruct sm2 as [ | m0 [ | s [ | ? ?]]]; try discriminate.
    simpl. destruct (ParseFloat s). reflexivity. }
  split; [ | split; [ | split; [ | split]]].
  - intros sm sm2 Hsm Hsm2 a. rewrite (Hgen sm sm2 Hsm Hsm2). subst a.
    simpl. repeat split.
  - intros Habsent. unfold processLogEntry. rewrite HAE.
    destruct (FindStringSubmatch rxAVStart (line (currLog c))) as [sm | ] eqn:Hsm.
    + destruct Habsent as [Habs | Habs]; [discriminate | ].
      unfold processAV. rewrite Habs.
      destruct (negb (Nat.eqb (List.length sm) 4)); split; reflexivity.
    + destruct (String.eqb (line (currLog c)) "deadlock detected");
        split; reflexivity.
  - intros Hline.
    assert (Hsm : FindStringSubmatch rxAVStart (line (currLog c))
                  = Some ["automatic vacuum of table " ++ dq ++ "public.orders"
                          ++ dq ++ ": index"; ""; ""; "public.orders"])
      by (rewrite Hline; vm_compute; reflexivity).
    assert (Hsm2 : FindStringSubmatch rxAVElapsed (line (currLog c))
                   = Some [", elapsed: 12.34 s"; "12.34"])
      by (rewrite Hline; vm_compute; reflexivity).
    rewrite (Hgen _ _ Hsm Hsm2). eexists. simpl.
    split; [reflexivity | split; [reflexivity | ]].
    split; vm_compute; reflexivity.
  - intros i f Hi Hf Hne. now rewrite (ParseFloat_decimal i f Hi Hf Hne).
  - intros a b d. now rewrite ParseFloat_two_dots.
Qed.

Lemma autovacuum_event_witness :
  exists a,
    AutoVacuums (result (processLogEntry (H := exampleHost) vacuumCollector))
    = [a]
    /\ Table a = "public.orders"
    /\ Elapsed a = nearestFloat64 1234 100
    /\ Elapsed a = S754_finite false 6946802425218990 (-49).
Proof.
  assert (HAE : FindStringSubmatch rxAEStart (line (currLog vacuumCollector)) = None)
    by (vm_compute; reflexivity).
  exact (proj1 (proj2 (proj2 (autovacuum_event (H := exampleHost) vacuumCollector
                                 HAE)))
           eq_refl).
Defined.

(** *** What a read depends on *)

(** C8, as stated, fails: the same file, read with the same window of 5
    minutes at 10:31 and again at 11:31, gives two Deadlock Events the
    first time and none the second.  The fact lists depend on the clock. *)
Lemma same_file_later_reading :
  deadlocksOf
    (readLogLines (H := exampleHost) (fun _ => Some logWithoutBadStamp)
       (DateUTC 2024 1 15 10 31 0 0) freshCollector "postgresql.log" timePrefix)
  <> deadlocksOf
       (readLogLines (H := exampleHost) (fun _ => Some logWithoutBadStamp)
          (DateUTC 2024 1 15 11 31 0 0) freshCollector "postgresql.log" timePrefix).
Proof. vm_compute. discriminate. Qed.

Section WindowSize.
Context `{Host}.
Variable span : Z.

Lemma processAE_withSpan (c : collector) (sm : list string) :
  processAE (withSpan span c) sm = withSpan span (processAE c sm).
Proof. reflexivity. Qed.

Lemma processAV_withSpan (c : collector) (sm : list string) :
  processAV (withSpan span c) sm = withSpan span (processAV c sm).
Proof.
  unfold processAV. simpl.
  destruct (negb (Nat.eqb (List.length sm) 4)); [reflexivity | ].
  destruct (FindStringSubmatch rxAVElapsed (line (currLog c)))
    as [[ | m0 [ | s [ | ? ?]]] | ]; try reflexivity.
  destruct (ParseFloat s). reflexivity.
Qed.

Lemma processLogEntry_withSpan (c : collector) :
  processLogEntry (withSpan span c) = withSpan span (processLogEntry c).
Proof.
  unfold processLogEntry. simpl.
  destruct (FindStringSubmatch rxAEStart (line (currLog c))) as [sm | ].
  - apply processAE_withSpan.
  - destruct (FindStringSubmatch rxAVStart (line (currLog c))) as [sm | ].
    + apply processAV_withSpan.
    + destruct (String.eqb (line (currLog c)) "deadlock detected"); reflexivity.
Qed.

Lemma processLogLine_withSpan (c : collector) (first : bool) (tm : Time)
  (usr dbn lvl ln : string) :
  processLogLine (withSpan span c) first tm usr dbn lvl ln
  = withSpan span (processLogLine c first tm usr dbn lvl ln).
Proof.
  unfold processLogLine.
  destruct (existsb (String.eqb lvl) severities); [ | reflexivity].
  destruct first; simpl; [reflexivity | ].
  now rewrite processLogEntry_withSpan.
Qed.

Lemma forward_withSpan (fuel : nat) (prefix : Regexp) (start : Time) :
  forall bigbuf pos count c,
  forward fuel prefix start bigbuf pos count (withSpan span c)
  = onCollector (withSpan span) (forward fuel prefix start bigbuf pos count c).
Proof.
  induction fuel as [ | fuel IH]; intros bigbuf pos count c.
  - simpl. destruct pos as [[p0 p1] | ].
    + destruct (Nat.ltb 0 (String.length bigbuf)); [reflexivity | ].
      destruct (Nat.ltb 0 count); simpl; now rewrite ?processLogEntry_withSpan.
    + destruct (Nat.ltb 0 count); simpl; now rewrite ?processLogEntry_withSpan.
  - cbn [forward]. destruct pos as [[p0 p1] | ].
    + destruct (Nat.ltb 0 (String.length bigbuf)).
      * destruct (FindSubmatch prefix (drop p0 bigbuf)) as [mt | ]; [ | reflexivity].
        destruct (getMatchData mt prefix) as [[[[tm usr] dbn] [err | ]] | ];
          try reflexivity.
        destruct (FindIndex prefix (drop p1 bigbuf)) as [[q0 q1] | ];
          destruct (negb (Before tm start));
          try destruct (splitLevel _) as [lvl ln];
          rewrite ?processLogLine_withSpan; apply IH.
      * destruct (Nat.ltb 0 count); simpl; now rewrite ?processLogEntry_withSpan.
    + destruct (Nat.ltb 0 count); simpl; now rewrite ?processLogEntry_withSpan.
Qed.

End WindowSize.

(** C8, amended. The fact lists and the error value of a read are a
    function of the file system, the file name, the prefix pattern, the
    collector's entry and results, and the window start, the clock
    reading minus the window size: two reads that agree on these, even
    with different clock readings and window sizes, return the same. *)
Theorem read_depends_on_window_start `{Host} (fs : string -> option string)
  (now1 now2 : Time) (span2 : Z) (c : collector) (filename : string)
  (prefix : Regexp) :
  windowStart now1 (logSpan c) = windowStart now2 span2 ->
  facts (readLogLines fs now2 (withSpan span2 c) filename prefix)
  = facts (readLogLines fs now1 c filename prefix).
Proof.
  intros Hstart. unfold readLogLines.
  change (logSpan (withSpan span2 c)) with span2. rewrite <- Hstart.
  destruct (fs filename) as [content | ]; [ | reflexivity].
  destruct (Z.of_nat (String.length content) <=? 0)%Z; [reflexivity | ].
  destruct (seekBack _ content prefix (windowStart now1 (logSpan c)) _);
    try reflexivity.
  rewrite forward_withSpan.
  destruct (forward _ prefix _ _ _ 0 c); reflexivity.
Qed.

Lemma read_depends_on_window_start_witness :
  facts (readLogLines (H := exampleHost) (fun _ => Some logWithoutBadStamp)
           (DateUTC 2024 1 15 10 32 0 0) (withSpan 6 freshCollector)
           "postgresql.log" timePrefix)
  = facts (readLogLines (H := exampleHost) (fun _ => Some logWithoutBadStamp)
             (DateUTC 2024 1 15 10 31 0 0) freshCollector
             "postgresql.log" timePrefix).
Proof.
  apply (read_depends_on_window_start (H := exampleHost)).
  vm_compute. reflexivity.
Defined.

(** *** Files shorter than one block *)

Lemma ReadFullAt_short (content : string) (n : nat) :
  0 < String.length content < n ->
  ReadFullAt content 0 n = inl ErrUnexpectedEOF.
Proof.
  intros [Hpos Hlt]. unfold ReadFullAt.
  change (Z.to_nat 0) with 0. rewrite drop_0.
  apply Nat.leb_gt in Hlt. rewrite Hlt.
  destruct content; [simpl in Hpos; lia | reflexivity].
Qed.

(** C9. A file of more than 0 and fewer than 4096 bytes makes
    [readLogLines] return the read error of the first block, with the
    collector as it was: no fact is extracted.  The empty file is the
    one short file for which the call returns no error, again with the
    collector untouched. *)
Theorem short_file_read_error `{Host} (fs : string -> option string)
  (now : Time) (c : collector) (filename : string) (prefix : Regexp)
  (content : string) :
  fs filename = Some content ->
  (0 < String.length content < 4096 ->
     readLogLines fs now c filename prefix
     = Returned c (Some (ErrIO ErrUnexpectedEOF)))
  /\ (String.length content = 0 ->
     readLogLines fs now c filename prefix = Returned c None).
Proof.
  intros Hfs. unfold readLogLines. rewrite Hfs. split.
  - intros Hlen.
    assert (Hflen : (Z.of_nat (String.length content) <=? 0)%Z = false)
      by (apply Z.leb_gt; lia).
    rewrite Hflen.
    assert (Hofs : (Z.of_nat (String.length content) - 4096 <? 0)%Z = true)
      by (apply Z.ltb_lt; lia).
    cbn [seekBack]. rewrite Hofs.
    rewrite ReadFullAt_short by exact Hlen. reflexivity.
  - intros Hlen. rewrite Hlen. reflexivity.
Qed.

Lemma short_file_read_error_witness :
  readLogLines (H := exampleHost)
    (fun _ => Some "2024-01-15 10:30:00 UTC ERROR:  deadlock detected")
    (Unix 1705314660 0) (mkCollector 5 emptyEntry emptyModel) "postgresql.log"
    (MustCompile "(?P<t>\d{4}-\d{1,2}-\d{1,2} \d{2}:\d{2}:\d{2} \S+) ")
  = Returned (mkCollector 5 emptyEntry emptyModel) (Some (ErrIO ErrUnexpectedEOF)).
Proof.
  apply (proj1 (short_file_read_error (H := exampleHost) _ _ _ _ _ _ eq_refl)).
  simpl. lia.
Defined.

(** *** Captured plans *)

Lemma addPlan_last (c : collector) (p q : Plan) :
  Plans (result (addPlan c p)) = (Plans (result c) ++ [q])%list -> p = q.
Proof.
  simpl. intros E. apply app_inj_tail in E. tauto.
Qed.

Lemma length_zero_string (s : string) :
  Nat.ltb 0 (String.length s) = false <-> s = "".
Proof.
  destruct s; simpl; split; intros E; try reflexivity; discriminate.
Qed.

(** How [processAE] follows the groups of the start pattern: the third
    group, with the first two empty, gives a plan tagged yaml with empty
    query and body; a plan tagged text that carries a query or a body
    comes from the fourth group alone. *)
Lemma processAE_by_group `{Host} (c : collector) (sm : list string) :
  FindStringSubmatch rxAEStart (line (currLog c)) = Some sm ->
  let e := currLog c in
  (nth 1 sm "" = "" -> nth 2 sm "" = "" -> nth 3 sm "" <> "" ->
     processLogEntry c
     = addPlan c (mkPlan (db e) (user e) "yaml" (UnixOf (t e)) "" "")
     /\ Plans (result (processLogEntry c))
        = (Plans (result c)
           ++ [mkPlan (db e) (user e) "yaml" (UnixOf (t e)) "" ""])%list)
  /\ (forall p,
        Plans (result (processLogEntry c)) = (Plans (result c) ++ [p])%list ->
        Format p = "text" -> Query p <> "" \/ PlanText p <> "" ->
        nth 1 sm "" = "" /\ nth 2 sm "" = "" /\ nth 3 sm "" = ""
        /\ nth 4 sm "" <> ""
        /\ (Query p, PlanText p) = textLoop (Split (line e) "010") "" "" ToNil).
Proof.
  intros Hsm e. unfold processLogEntry. rewrite Hsm. unfold processAE.
  fold e. split.
  - intros H1 H2 H3. rewrite H1, H2. simpl.
    destruct (nth 3 sm "") as [ | a s]; [contradiction | ]. simpl.
    split; reflexivity.
  - intros p Hp Hfmt Hcontent.
    destruct (Nat.ltb 0 (String.length (nth 1 sm ""))) eqn:E1.
    { apply addPlan_last in Hp. subst p.
      destruct (SplitN2 (line e) "010") as [ | ? [ | body [ | ? ?]]];
        try discriminate Hfmt.
      destruct (json_Unmarshal body) as [obj | ]; [ | discriminate Hfmt].
      destruct (json_lookup obj "Query Text");
        destruct (json_Marshal _); discriminate Hfmt. }
    destruct (Nat.ltb 0 (String.length (nth 2 sm ""))) eqn:E2.
    { apply addPlan_last in Hp. subst p. discriminate Hfmt. }
    destruct (Nat.ltb 0 (String.length (nth 3 sm ""))) eqn:E3.
    { apply addPlan_last in Hp. subst p. discriminate Hfmt. }
    apply length_zero_string in E1, E2, E3.
    destruct (Nat.ltb 0 (String.length (nth 4 sm ""))) eqn:E4.
    + apply addPlan_last in Hp. subst p.
      destruct (textLoop (Split (line e) "010") "" "" ToNil) as [q pl].
      simpl. repeat split; try assumption.
      intros E. rewrite E in E4. discriminate.
    + apply addPlan_last in Hp. subst p. simpl in Hcontent.
      destruct Hcontent as [Hc | Hc]; now contradiction Hc.
Qed.

Example text_plan_extracted :
  Plans (result (processLogEntry (H := exampleHost)
                   (mkCollector 5
                      (mkEntry (Unix 1705314600 0) "alice" "mydb" "LOG" textPlanLine [])
                      emptyModel)))
  = [mkPlan "mydb" "alice" "text" 1705314600 "SELECT 1"
       (tab ++ "Result  (cost=0.00..0.01 rows=1 width=4)" ++ nl)].
Proof. vm_compute. reflexivity. Qed.

(* ------------------------------------------------------------------ *)
(** ** Further properties *)
(* ------------------------------------------------------------------ *)

(** *** What sealing an entry can do *)

Lemma extends_refl (r : Model) : extends r r.
Proof.
  repeat split; exists []; now rewrite app_nil_r.
Qed.

Lemma extends_trans (r1 r2 r3 : Model) :
  extends r1 r2 -> extends r2 r3 -> extends r1 r3.
Proof.
  intros (S1 & [p1 P1] & [a1 A1] & [d1 D1]) (S2 & [p2 P2] & [a2 A2] & [d2 D2]).
  repeat split.
  - congruence.
  - exists (p1 ++ p2)%list. now rewrite P2, P1, app_assoc.
  - exists (a1 ++ a2)%list. now rewrite A2, A1, app_assoc.
  - exists (d1 ++ d2)%list. now rewrite D2, D1, app_assoc.
Qed.

(** X1. [processAE] appends exactly one plan and nothing else; the plan
    carries the database, the user and the Unix second of the entry, and
    its format tag is one of json, xml, yaml, text, whatever the
    submatches and the JSON library do. *)
Theorem processAE_one_plan `{Host} (c : collector) (sm : list string) :
  exists p,
    processAE c sm = addPlan c p
    /\ Database p = db (currLog c)
    /\ UserName p = user (currLog c)
    /\ PlanAt p = UnixOf (t (currLog c))
    /\ In (Format p) ["json"; "xml"; "yaml"; "text"]
    /\ (Format p = "xml" \/ Format p = "yaml" -> Query p = "" /\ PlanText p = "").
Proof.
  unfold processAE.
  destruct (Nat.ltb 0 (String.length (nth 1 sm ""))).
  { destruct (SplitN2 (line (currLog c)) "010") as [ | ? [ | body [ | ? ?]]];
      try (eexists; split; [reflexivity | simpl; intuition discriminate]).
    destruct (json_Unmarshal body) as [obj | ];
      [ | eexists; split; [reflexivity | simpl; intuition discriminate]].
    destruct (json_lookup obj "Query Text") as [v | ];
      destruct (json_Marshal _);
      eexists; (split; [reflexivity | simpl; intuition discriminate]). }
  destruct (Nat.ltb 0 (String.length (nth 2 sm "")));
    [eexists; split; [reflexivity | simpl; intuition discriminate] | ].
  destruct (Nat.ltb 0 (String.length (nth 3 sm "")));
    [eexists; split; [reflexivity | simpl; intuition discriminate] | ].
  destruct (Nat.ltb 0 (String.length (nth 4 sm ""))).
  - destruct (textLoop _ "" "" ToNil) as [q pl].
    eexists; split; [reflexivity | simpl; intuition discriminate].
  - eexists; split; [reflexivity | simpl; intuition discriminate].
Qed.

(** X2. Sealing an entry appends at most one fact, to one list only,
    behind the facts already there, and leaves the entry, the window
    size and the settings alone.  Which list is decided in order: a plan
    when the starting text matches the auto_explain pattern, else at
    most an AutoVacuum Event when it matches the autovacuum pattern,
    else a Deadlock Event when it is the deadlock text, else nothing. *)
Theorem processLogEntry_at_most_one_fact `{Host} (c : collector) :
  let c' := processLogEntry c in
  currLog c' = currLog c
  /\ logSpan c' = logSpan c
  /\ extends (result c) (result c')
  /\ factCount (result c') <= S (factCount (result c))
  /\ match FindStringSubmatch rxAEStart (line (currLog c)) with
     | Some _ => exists p, c' = addPlan c p
     | None =>
         match FindStringSubmatch rxAVStart (line (currLog c)) with
         | Some _ => c' = c \/ exists a, c' = addAutoVacuum c a
         | None =>
             if String.eqb (line (currLog c)) "deadlock detected"
             then exists d, c' = addDeadlock c d
             else c' = c
         end
     end.
Proof.
  assert (Hplan : forall p, extends (result c) (result (addPlan c p))
                            /\ factCount (result (addPlan c p)) <= S (factCount (result c))).
  { intros p. split.
    - repeat split; simpl; [now exists [p] | exists [] | exists []];
        now rewrite app_nil_r.
    - unfold factCount. simpl. rewrite length_app. simpl. lia. }
  assert (Hav : forall a, extends (result c) (result (addAutoVacuum c a))
                          /\ factCount (result (addAutoVacuum c a))
                             <= S (factCount (result c))).
  { intros a. split.
    - repeat split; simpl; [exists [] | now exists [a] | exists []];
        now rewrite app_nil_r.
    - unfold factCount. simpl. rewrite length_app. simpl. lia. }
  assert (Hdl : forall d, extends (result c) (result (addDeadlock c d))
                          /\ factCount (result (addDeadlock c d))
                             <= S (factCount (result c))).
  { intros d. split.
    - repeat split; simpl; [exists [] | exists [] | now exists [d]];
        now rewrite app_nil_r.
    - unfold factCount. simpl. rewrite length_app. simpl. lia. }
  assert (Hsame : extends (result c) (result c)
                  /\ factCount (result c) <= S (factCount (result c)))
    by (split; [apply extends_refl | lia]).
  unfold processLogEntry. cbv zeta.
  destruct (FindStringSubmatch rxAEStart (line (currLog c))) as [sm | ].
  - assert (Hp : exists p, processAE c sm = addPlan c p)
      by (unfold processAE; eexists; reflexivity).
    destruct Hp as (p & ->).
    destruct (Hplan p) as [He Hc].
    refine (conj eq_refl (conj eq_refl (conj He (conj Hc _)))). now exists p.
  - destruct (FindStringSubmatch rxAVStart (line (currLog c))) as [sm | ].
    + unfold processAV. destruct Hsame as [He Hc].
      destruct (negb (Nat.eqb (List.length sm) 4));
        [exact (conj eq_refl (conj eq_refl (conj He (conj Hc (or_introl eq_refl))))) | ].
      destruct (FindStringSubmatch rxAVElapsed (line (currLog c)))
        as [[ | m0 [ | s [ | ? ?]]] | ];
        try exact (conj eq_refl (conj eq_refl (conj He (conj Hc (or_introl eq_refl))))).
      destruct (ParseFloat s) as [el ok].
      destruct (Hav (mkAutoVacuum (UnixOf (t (currLog c))) (nth 3 sm "") el))
        as [He' Hc'].
      refine (conj eq_refl (conj eq_refl (conj He' (conj Hc' _)))).
      right. eexists. reflexivity.
    + destruct (String.eqb (line (currLog c)) "deadlock detected").
      * unfold processDeadlock.
        match goal with
        | |- context [addDeadlock c ?d] => destruct (Hdl d) as [He Hc]
        end.
        refine (conj eq_refl (conj eq_refl (conj He (conj Hc _)))).
        eexists. reflexivity.
      * destruct Hsame as [He Hc].
        exact (conj eq_refl (conj eq_refl (conj He (conj Hc eq_refl)))).
Qed.

(** *** Lines into entries *)

Lemma processLogLine_continuation `{Host} (c : collector) (a : lineArgs) :
  isSeverity (a_level a) = false ->
  processLogLine c (a_first a) (a_t a) (a_user a) (a_db a) (a_level a) (a_line a)
  = setCurrLog c
      (mkEntry (t (currLog c)) (user (currLog c)) (db (currLog c))
         (level (currLog c)) (line (currLog c))
         (extra (currLog c) ++ [mkExtra (a_level a) (a_line a)])).
Proof.
  unfold isSeverity, processLogLine. intros ->. reflexivity.
Qed.

Lemma feed_continuations `{Host} (c : collector) (ls : list lineArgs) :
  Forall (fun a => isSeverity (a_level a) = false) ls ->
  feed c ls
  = setCurrLog c
      (mkEntry (t (currLog c)) (user (currLog c)) (db (currLog c))
         (level (currLog c)) (line (currLog c))
         (extra (currLog c) ++ map (fun a => mkExtra (a_level a) (a_line a)) ls)).
Proof.
  intros Hls. revert c.
  induction Hls as [ | a ls Ha _ IH]; intros c.
  - simpl. rewrite app_nil_r. now destruct c as [sp [] r].
  - unfold feed in *. simpl. rewrite processLogLine_continuation by exact Ha.
    rewrite IH. unfold setCurrLog. simpl. now rewrite <- app_assoc.
Qed.

(** X3. Lines whose level is not one of the eight severities, in any
    number, are all attached to the current entry, in order, as
    (level, text) pairs: no entry is sealed, no fact is added, the
    entry's own timestamp, user, database, level and text stay, and the
    timestamp, user and database of the continuation lines are dropped. *)
Theorem continuation_lines_attach `{Host} (c : collector) (ls : list lineArgs) :
  Forall (fun a => isSeverity (a_level a) = false) ls ->
  feed c ls
  = setCurrLog c
      (mkEntry (t (currLog c)) (user (currLog c)) (db (currLog c))
         (level (currLog c)) (line (currLog c))
         (extra (currLog c) ++ map (fun a => mkExtra (a_level a) (a_line a)) ls)).
Proof. exact (feed_continuations c ls). Qed.

Lemma continuation_lines_attach_witness :
  feed (H := exampleHost) (mkCollector 5 deadlockEntry emptyModel)
    [mkLine false zeroTime "bob" "otherdb" "CONTEXT" "while updating tuple";
     mkLine true (Unix 1 0) "" "" "" "  a line without a level"]
  = mkCollector 5
      (mkEntry (Unix 1705314600 0) "alice" "mydb" "ERROR" "deadlock detected"
         (extra deadlockEntry
          ++ [mkExtra "CONTEXT" "while updating tuple";
              mkExtra "" "  a line without a level"]))
      emptyModel.
Proof.
  apply (continuation_lines_attach (H := exampleHost)
           (mkCollector 5 deadlockEntry emptyModel)).
  repeat constructor.
Defined.

(** X4. A line with one of the eight severities starts an entry: the
    entry in progress is sealed first, with all the continuation lines
    attached since, unless the line is the first of the read; the new
    entry has the line's own fields and no extra sub-part.  So a start
    line, continuation lines and the next start line give the facts of
    exactly one sealed entry. *)
Theorem start_line_seals_previous `{Host} (c : collector) (ls : list lineArgs)
  (a b : lineArgs) :
  isSeverity (a_level a) = true ->
  Forall (fun x => isSeverity (a_level x) = false) ls ->
  isSeverity (a_level b) = true -> a_first b = false ->
  let entryOf x ex :=
    mkEntry (a_t x) (a_user x) (a_db x) (a_level x) (a_line x) ex in
  let before := if a_first a then c else processLogEntry c in
  feed c (a :: ls ++ [b])%list
  = setCurrLog
      (processLogEntry
         (setCurrLog before
            (entryOf a (map (fun x => mkExtra (a_level x) (a_line x)) ls))))
      (entryOf b []).
Proof.
  intros Ha Hls Hb Hfirst entryOf before.
  assert (Hstart : forall c0 x, isSeverity (a_level x) = true ->
            processLogLine c0 (a_first x) (a_t x) (a_user x) (a_db x)
              (a_level x) (a_line x)
            = setCurrLog (if a_first x then c0 else processLogEntry c0)
                (entryOf x [])).
  { intros c0 x Hx. unfold processLogLine. unfold isSeverity in Hx. rewrite Hx.
    now destruct (a_first x). }
  unfold feed. simpl. rewrite fold_left_app. simpl.
  rewrite (Hstart c a Ha). fold before.
  change (fold_left _ ls ?c0) with (feed c0 ls).
  rewrite feed_continuations by exact Hls.
  rewrite (Hstart _ b Hb), Hfirst. reflexivity.
Qed.

Lemma start_line_seals_previous_witness :
  Deadlocks
    (result
       (feed (H := exampleHost) freshCollector
          [mkLine true (Unix 1705314600 0) "alice" "mydb" "ERROR" "deadlock detected";
           mkLine false (Unix 1705314600 0) "alice" "mydb" "DETAIL"
             ("Process 1 waits." ++ tab);
           mkLine false (Unix 1705314601 0) "" "" "LOG" "checkpoint starting"]))
  = [mkDeadlock 1705314600 ("Process 1 waits." ++ nl)].
Proof.
  assert (Hls : Forall (fun x => isSeverity (a_level x) = false)
                  [mkLine false (Unix 1705314600 0) "alice" "mydb" "DETAIL"
                     ("Process 1 waits." ++ tab)])
    by (repeat constructor).
  exact (f_equal (fun c => Deadlocks (result c))
           (start_line_seals_previous (H := exampleHost) freshCollector _
              (mkLine true (Unix 1705314600 0) "alice" "mydb" "ERROR"
                 "deadlock detected")
              (mkLine false (Unix 1705314601 0) "" "" "LOG" "checkpoint starting")
              eq_refl Hls eq_refl eq_refl)).
Defined.

(** *** What a read can do to the collector *)

Section ReadEffects.
Context `{Host}.

Lemma extends_addPlan (c : collector) (p : Plan) :
  extends (result c) (result (addPlan c p)).
Proof.
  repeat split; simpl; [now exists [p] | exists [] | exists []];
    now rewrite app_nil_r.
Qed.

Lemma extends_addAutoVacuum (c : collector) (a : AutoVacuum) :
  extends (result c) (result (addAutoVacuum c a)).
Proof.
  repeat split; simpl; [exists [] | now exists [a] | exists []];
    now rewrite app_nil_r.
Qed.

Lemma extends_addDeadlock (c : collector) (d : Deadlock) :
  extends (result c) (result (addDeadlock c d)).
Proof.
  repeat split; simpl; [exists [] | exists [] | now exists [d]];
    now rewrite app_nil_r.
Qed.

Lemma processLogEntry_extends (c : collector) :
  logSpan (processLogEntry c) = logSpan c
  /\ extends (result c) (result (processLogEntry c)).
Proof.
  unfold processLogEntry.
  destruct (FindStringSubmatch rxAEStart (line (currLog c))) as [sm | ].
  - unfold processAE. cbv zeta. split; [reflexivity | apply extends_addPlan].
  - destruct (FindStringSubmatch rxAVStart (line (currLog c))) as [sm | ].
    + unfold processAV.
      destruct (negb (Nat.eqb (List.length sm) 4));
        [split; [reflexivity | apply extends_refl] | ].
      destruct (FindStringSubmatch rxAVElapsed (line (currLog c)))
        as [[ | m0 [ | s [ | ? ?]]] | ];
        try (split; [reflexivity | apply extends_refl]).
      destruct (ParseFloat s) as [el ok].
      split; [reflexivity | apply extends_addAutoVacuum].
    + destruct (String.eqb (line (currLog c)) "deadlock detected").
      * unfold processDeadlock. split; [reflexivity | apply extends_addDeadlock].
      * split; [reflexivity | apply extends_refl].
Qed.

Lemma processLogLine_extends (c : collector) (first : bool) (tm : Time)
  (usr dbn lvl ln : string) :
  logSpan (processLogLine c first tm usr dbn lvl ln) = logSpan c
  /\ extends (result c) (result (processLogLine c first tm usr dbn lvl ln)).
Proof.
  unfold processLogLine.
  destruct (existsb (String.eqb lvl) severities); simpl.
  - destruct first; simpl; [split; [reflexivity | apply extends_refl] | ].
    apply processLogEntry_extends.
  - split; [reflexivity | apply extends_refl].
Qed.

Lemma forward_extends (prefix : Regexp) (start : Time) :
  forall fuel bigbuf pos count c c' err,
  forward fuel prefix start bigbuf pos count c = Returned c' err ->
  err = None /\ logSpan c' = logSpan c /\ extends (result c) (result c').
Proof.
  assert (Hflush : forall count c c' err,
            Returned (if Nat.ltb 0 count then processLogEntry c else c) None
            = Returned c' err ->
            err = None /\ logSpan c' = logSpan c /\ extends (result c) (result c')).
  { intros count c c' err E. injection E as <- <-.
    destruct (Nat.ltb 0 count).
    - destruct (processLogEntry_extends c). auto.
    - split; [reflexivity | split; [reflexivity | apply extends_refl]]. }
  induction fuel as [ | fuel IH]; intros bigbuf pos count c c' err.
  - simpl. destruct pos as [[p0 p1] | ]; [ | apply Hflush].
    destruct (Nat.ltb 0 (String.length bigbuf)); [discriminate | apply Hflush].
  - cbn [forward]. destruct pos as [[p0 p1] | ]; [ | apply Hflush].
    destruct (Nat.ltb 0 (String.length bigbuf)); [ | apply Hflush].
    destruct (FindSubmatch prefix (drop p0 bigbuf)) as [mt | ]; [ | discriminate].
    destruct (getMatchData mt prefix) as [[[[tm usr] dbn] [e | ]] | ];
      [ | | discriminate].
    { intros E. injection E as <- <-.
      split; [reflexivity | split; [reflexivity | apply extends_refl]]. }
    destruct (FindIndex prefix (drop p1 bigbuf)) as [[q0 q1] | ];
      destruct (negb (Before tm start));
      try destruct (splitLevel _) as [lvl ln];
      intros E; apply IH in E as (He & Hs & Hx);
      try (split; [exact He | split; [exact Hs | exact Hx]]);
      match type of Hs with
      | context [processLogLine ?c0 ?f ?a ?b ?d ?l ?n] =>
          destruct (processLogLine_extends c0 f a b d l n) as [Hs' Hx']
      end;
      (split; [exact He | split; [congruence | eapply extends_trans; eassumption]]).
Qed.

Lemma readLogLines_effect (fs : string -> option string) (now : Time)
  (c c' : collector) (filename : string) (prefix : Regexp) (err : option error) :
  readLogLines fs now c filename prefix = Returned c' err ->
  (err <> None /\ c' = c)
  \/ (err = None /\ logSpan c' = logSpan c /\ extends (result c) (result c')).
Proof.
  unfold readLogLines.
  assert (Hsame : forall e, Returned c e = Returned c' err ->
            (err <> None /\ c' = c)
            \/ (err = None /\ logSpan c' = logSpan c
                /\ extends (result c) (result c'))).
  { intros [e | ] [= <- <-].
    - left. split; [discriminate | reflexivity].
    - right. split; [reflexivity | split; [reflexivity | apply extends_refl]]. }
  destruct (fs filename) as [content | ]; [ | apply Hsame].
  destruct (Z.of_nat (String.length content) <=? 0)%Z; [apply Hsame | ].
  destruct (seekBack _ content prefix _ _); try discriminate; try apply Hsame.
  intros E. right. exact (forward_extends _ _ _ _ _ _ _ _ _ E).
Qed.

(** X5. A read never takes a fact back and is all or nothing on error:
    [readLogLines] returns an error only with the collector exactly as
    it was (the error comes from opening the file, reading a block or
    decoding a block's first timestamp, all before the first line is
    processed), and without an error the window size and the settings
    are as before and every fact list starts with the facts that were
    already there. *)
Theorem readLogLines_keeps_facts (fs : string -> option string) (now : Time)
  (c c' : collector) (filename : string) (prefix : Regexp) (err : option error) :
  readLogLines fs now c filename prefix = Returned c' err ->
  logSpan c' = logSpan c
  /\ extends (result c) (result c')
  /\ (err <> None -> c' = c).
Proof.
  intros E. apply readLogLines_effect in E as [[He ->] | (-> & Hs & Hx)].
  - split; [reflexivity | split; [apply extends_refl | reflexivity]].
  - split; [exact Hs | split; [exact Hx | congruence]].
Qed.

End ReadEffects.

Lemma readLogLines_keeps_facts_witness :
  extends (result (mkCollector 5 deadlockEntry
                     (mkModel [] [] []
                        [mkDeadlock 1 "an earlier report"])))
    (mkModel [] [] []
       [mkDeadlock 1 "an earlier report";
        mkDeadlock 1705314600
          ("Process 1 waits for ShareLock on transaction 2." ++ nl);
        mkDeadlock 1705314602
          ("Process 7 waits for ShareLock on transaction 8." ++ nl)]).
Proof.
  refine (proj1 (proj2 (readLogLines_keeps_facts (H := exampleHost)
            (fun _ => Some logWithoutBadStamp) (DateUTC 2024 1 15 10 31 0 0)
            (mkCollector 5 deadlockEntry
               (mkModel [] [] [] [mkDeadlock 1 "an earlier report"]))
            (mkCollector 5
               (mkEntry (DateUTC 2024 1 15 10 30 3 0) "" "" "LOG"
                  "checkpoint complete" [])
               (mkModel [] [] []
                  [mkDeadlock 1 "an earlier report";
                   mkDeadlock 1705314600
                     ("Process 1 waits for ShareLock on transaction 2." ++ nl);
                   mkDeadlock 1705314602
                     ("Process 7 waits for ShareLock on transaction 8." ++ nl)]))
            "postgresql.log" timePrefix None _))).
  vm_compute. reflexivity.
Defined.

(** *** The matcher moves forward *)

Section MatcherProgress.

Lemma rep_iter_advances (f : mstate -> list mstate) :
  (forall st y, In y (f st) -> m_pos st <= m_pos y) ->
  forall fuel lo hi st y, In y (rep_iter f fuel lo hi st) -> m_pos st <= m_pos y.
Proof.
  intros Hf. induction fuel as [ | fuel IH]; intros lo hi st y Hy; [contradiction | ].
  simpl in Hy. apply in_app_or in Hy as [Hy | Hy].
  - assert (Hin : In y (flat_map
                          (fun st' =>
                             if Nat.eqb lo 0 && Nat.eqb (m_pos st') (m_pos st) then []
                             else rep_iter f fuel (pred lo) (option_map pred hi) st')
                          (f st)))
      by (destruct hi as [[ | h] | ]; [contradiction | exact Hy | exact Hy]).
    apply in_flat_map in Hin as (st' & Hst' & Hy').
    destruct (Nat.eqb lo 0 && Nat.eqb (m_pos st') (m_pos st)); [contradiction | ].
    apply IH in Hy'. apply Hf in Hst'. lia.
  - destruct (Nat.eqb lo 0); [ | contradiction]. destruct Hy as [<- | []]. lia.
Qed.

Lemma run_advances :
  forall r st y, In y (run r st) -> m_pos st <= m_pos y.
Proof.
  induction r as [ | c | neg rs | | | a IHa b IHb | a IHa b IHb | r IHr lo hi | j r IHr];
    intros st y Hy; simpl in Hy.
  - destruct Hy as [<- | []]. lia.
  - unfold eat in Hy. destruct (m_rest st) as [ | d s]; [contradiction | ].
    destruct (Ascii.eqb c d); [ | contradiction]. destruct Hy as [<- | []]. simpl. lia.
  - unfold eat in Hy. destruct (m_rest st) as [ | d s]; [contradiction | ].
    destruct (in_class neg rs d); [ | contradiction].
    destruct Hy as [<- | []]. simpl. lia.
  - destruct (Nat.eqb (m_pos st) 0); [ | contradiction]. destruct Hy as [<- | []]. lia.
  - destruct (m_rest st); [ | contradiction]. destruct Hy as [<- | []]. lia.
  - apply in_flat_map in Hy as (x & Hx & Hy). apply IHa in Hx. apply IHb in Hy. lia.
  - apply in_app_or in Hy as [Hy | Hy]; [now apply IHa | now apply IHb].
  - exact (rep_iter_advances (run r) IHr (S (lo + String.length (m_rest st)))
             lo hi st y Hy).
  - apply in_map_iff in Hy as (x & <- & Hx). simpl. now apply IHr.
Qed.

Lemma rep_iter_progress (f : mstate -> list mstate) :
  (forall st y, In y (f st) -> m_pos st < m_pos y) ->
  forall fuel lo hi st y, 0 < lo ->
  In y (rep_iter f fuel lo hi st) -> m_pos st < m_pos y.
Proof.
  intros Hf fuel lo hi st y Hlo Hy.
  destruct fuel as [ | fuel]; [contradiction | ].
  simpl in Hy. apply in_app_or in Hy as [Hy | Hy].
  - assert (Hin : In y (flat_map
                          (fun st' =>
                             if Nat.eqb lo 0 && Nat.eqb (m_pos st') (m_pos st) then []
                             else rep_iter f fuel (pred lo) (option_map pred hi) st')
                          (f st)))
      by (destruct hi as [[ | h] | ]; [contradiction | exact Hy | exact Hy]).
    apply in_flat_map in Hin as (st' & Hst' & Hy').
    destruct (Nat.eqb lo 0 && Nat.eqb (m_pos st') (m_pos st)); [contradiction | ].
    apply Hf in Hst'.
    apply (rep_iter_advances f (fun s z Hz => Nat.lt_le_incl _ _ (Hf s z Hz))) in Hy'.
    lia.
  - destruct lo; [lia | contradiction].
Qed.

(** A pattern that cannot match the empty text consumes at least one
    byte whenever it matches. *)
Lemma run_progress :
  forall r, nullable r = false ->
  forall st y, In y (run r st) -> m_pos st < m_pos y.
Proof.
  induction r as [ | c | neg rs | | | a IHa b IHb | a IHa b IHb | r IHr lo hi | j r IHr];
    intros Hn st y Hy; simpl in Hn; try discriminate; simpl in Hy.
  - unfold eat in Hy. destruct (m_rest st) as [ | d s]; [contradiction | ].
    destruct (Ascii.eqb c d); [ | contradiction]. destruct Hy as [<- | []]. simpl. lia.
  - unfold eat in Hy. destruct (m_rest st) as [ | d s]; [contradiction | ].
    destruct (in_class neg rs d); [ | contradiction].
    destruct Hy as [<- | []]. simpl. lia.
  - apply in_flat_map in Hy as (x & Hx & Hy).
    pose proof (run_advances _ _ _ Hx). pose proof (run_advances _ _ _ Hy).
    apply andb_false_iff in Hn as [Hn | Hn].
    + specialize (IHa Hn _ _ Hx). lia.
    + specialize (IHb Hn _ _ Hy). lia.
  - apply orb_false_iff in Hn as [Ha Hb].
    apply in_app_or in Hy as [Hy | Hy]; [now apply IHa | now apply IHb].
  - apply orb_false_iff in Hn as [Hlo Hr]. apply Nat.eqb_neq in Hlo.
    apply (rep_iter_progress (run r) (IHr Hr) (S (lo + String.length (m_rest st)))
             lo hi st y); [lia | exact Hy].
  - apply in_map_iff in Hy as (x & <- & Hx). simpl. now apply IHr.
Qed.

Lemma search_found (r : regex) :
  forall s p p' y,
  search r p s = Some (p', y) ->
  exists k, p' = p + k /\ k <= String.length s
            /\ In y (run r (mkM p' (drop k s) [])).
Proof.
  induction s as [ | c s IH]; intros p p' y Hs; simpl in Hs.
  - destruct (run r (mkM p "" [])) as [ | st l] eqn:Hrun; [discriminate | ].
    injection Hs as <- <-. exists 0. rewrite Nat.add_0_r. simpl.
    rewrite Hrun. split; [reflexivity | split; [lia | now left]].
  - destruct (run r (mkM p (String c s) [])) as [ | st l] eqn:Hrun.
    + apply IH in Hs as (k & -> & Hk & Hin). exists (S k). simpl.
      split; [lia | split; [lia | exact Hin]].
    + injection Hs as <- <-. exists 0. rewrite Nat.add_0_r. simpl.
      rewrite Hrun. split; [reflexivity | split; [lia | now left]].
Qed.

(** The match of a pattern that cannot match the empty text is not
    empty. *)
Lemma FindIndex_nonempty (re : Regexp) (b : string) (p0 p1 : nat) :
  nullable (expr re) = false -> FindIndex re b = Some (p0, p1) -> p0 < p1.
Proof.
  intros Hn. unfold FindIndex.
  destruct (search (expr re) 0 b) as [[p y] | ] eqn:Hs; [ | discriminate].
  intros E. injection E as <- <-.
  apply search_found in Hs as (k & -> & _ & Hin).
  apply (run_progress _ Hn) in Hin. exact Hin.
Qed.

End MatcherProgress.

(** *** A match found in a buffer is found again in its tail *)

Section MatcherShift.
Variable d : nat.

Lemma rep_iter_shifted (f : mstate -> list mstate) :
  (forall st st', shifted d st st' ->
     forall y, In y (f st) -> exists y', In y' (f st') /\ shifted d y y') ->
  forall fuel lo hi st st', shifted d st st' ->
  forall y, In y (rep_iter f fuel lo hi st) ->
  exists y', In y' (rep_iter f fuel lo hi st') /\ shifted d y y'.
Proof.
  intros Hf. induction fuel as [ | fuel IH]; intros lo hi st st' Hst y Hy;
    [contradiction | ].
  simpl in Hy |- *. apply in_app_or in Hy as [Hy | Hy].
  - assert (Hin : In y (flat_map
                          (fun x =>
                             if Nat.eqb lo 0 && Nat.eqb (m_pos x) (m_pos st) then []
                             else rep_iter f fuel (pred lo) (option_map pred hi) x)
                          (f st)) /\ hi <> Some 0).
    { destruct hi as [[ | h] | ]; [contradiction | | ]; (split; [exact Hy | discriminate]). }
    destruct Hin as [Hin Hhi].
    apply in_flat_map in Hin as (x & Hx & Hy').
    destruct (Hf _ _ Hst _ Hx) as (x' & Hx' & Hxx).
    destruct (Nat.eqb lo 0 && Nat.eqb (m_pos x) (m_pos st)) eqn:Hchk; [contradiction | ].
    destruct (IH _ _ _ _ Hxx _ Hy') as (y' & Hy'' & Hyy).
    exists y'. split; [ | exact Hyy]. apply in_or_app. left.
    assert (Hgoal : In y' (flat_map
                          (fun x0 =>
                             if Nat.eqb lo 0 && Nat.eqb (m_pos x0) (m_pos st') then []
                             else rep_iter f fuel (pred lo) (option_map pred hi) x0)
                          (f st'))).
    { apply in_flat_map. exists x'. split; [exact Hx' | ].
      replace (Nat.eqb (m_pos x') (m_pos st')) with (Nat.eqb (m_pos x) (m_pos st)).
      - rewrite Hchk. exact Hy''.
      - destruct Hxx as [_ Hp1]. destruct Hst as [_ Hp2].
        destruct (Nat.eqb_spec (m_pos x) (m_pos st));
          destruct (Nat.eqb_spec (m_pos x') (m_pos st')); try reflexivity; lia. }
    destruct hi as [[ | h] | ]; [contradiction | exact Hgoal | exact Hgoal].
  - destruct (Nat.eqb lo 0); [ | contradiction]. destruct Hy as [<- | []].
    exists st'. split; [ | exact Hst]. apply in_or_app. right. now left.
Qed.

(** Counting positions from further right never loses a match: only
    the start-of-text test looks at the position, and it succeeds at 0. *)
Lemma run_shifted :
  forall r st st', shifted d st st' ->
  forall y, In y (run r st) -> exists y', In y' (run r st') /\ shifted d y y'.
Proof.
  induction r as [ | c | neg rs | | | a IHa b IHb | a IHa b IHb | r IHr lo hi | j r IHr];
    intros st st' Hst y Hy; simpl in Hy |- *.
  - destruct Hy as [<- | []]. exists st'. split; [now left | exact Hst].
  - unfold eat in *. destruct Hst as [Hr Hp]. rewrite Hr.
    destruct (m_rest st) as [ | e s]; [contradiction | ].
    destruct (Ascii.eqb c e); [ | contradiction]. destruct Hy as [<- | []].
    eexists. split; [now left | ]. split; simpl; [reflexivity | lia].
  - unfold eat in *. destruct Hst as [Hr Hp]. rewrite Hr.
    destruct (m_rest st) as [ | e s]; [contradiction | ].
    destruct (in_class neg rs e); [ | contradiction]. destruct Hy as [<- | []].
    eexists. split; [now left | ]. split; simpl; [reflexivity | lia].
  - destruct (Nat.eqb_spec (m_pos st) 0) as [Hz | ]; [ | contradiction].
    destruct Hy as [<- | []]. pose proof Hst as [Hr Hp].
    replace (Nat.eqb (m_pos st') 0) with true by (symmetry; apply Nat.eqb_eq; lia).
    exists st'. split; [now left | exact Hst].
  - pose proof Hst as [Hr Hp]. rewrite Hr.
    destruct (m_rest st); [ | contradiction]. destruct Hy as [<- | []].
    exists st'. split; [now left | exact Hst].
  - apply in_flat_map in Hy as (x & Hx & Hy).
    destruct (IHa _ _ Hst _ Hx) as (x' & Hx' & Hxx).
    destruct (IHb _ _ Hxx _ Hy) as (y' & Hy' & Hyy).
    exists y'. split; [ | exact Hyy]. apply in_flat_map. now exists x'.
  - apply in_app_or in Hy as [Hy | Hy].
    + destruct (IHa _ _ Hst _ Hy) as (y' & Hy' & Hyy).
      exists y'. split; [apply in_or_app; now left | exact Hyy].
    + destruct (IHb _ _ Hst _ Hy) as (y' & Hy' & Hyy).
      exists y'. split; [apply in_or_app; now right | exact Hyy].
  - pose proof (proj1 Hst) as Hr. rewrite Hr.
    exact (rep_iter_shifted (run r) IHr (S (lo + String.length (m_rest st)))
             lo hi st st' Hst y Hy).
  - apply in_map_iff in Hy as (x & <- & Hx).
    destruct (IHr _ _ Hst _ Hx) as (x' & Hx' & [Hr Hp]).
    eexists. split; [apply in_map_iff; exists x'; split; [reflexivity | exact Hx'] | ].
    split; simpl; assumption.
Qed.

End MatcherShift.

Lemma FindIndex_then_FindSubmatch (re : Regexp) (b : string) (p0 p1 : nat) :
  FindIndex re b = Some (p0, p1) ->
  exists mt, FindSubmatch re (drop p0 b) = Some mt.
Proof.
  unfold FindIndex, FindSubmatch.
  destruct (search (expr re) 0 b) as [[p y] | ] eqn:Hs; [ | discriminate].
  intros E. injection E as <- _.
  apply search_found in Hs as (k & -> & _ & Hin). simpl in Hin.
  destruct (run_shifted k (expr re) (mkM k (drop k b) []) (mkM 0 (drop k b) [])
              (conj eq_refl eq_refl) y Hin) as (y' & Hy' & _).
  simpl.
  assert (Hsearch : exists z, search (expr re) 0 (drop k b) = Some (0, z)).
  { destruct (run (expr re) (mkM 0 (drop k b) [])) as [ | z l] eqn:Hrun;
      [contradiction | ].
    exists z. destruct (drop k b); simpl; now rewrite Hrun. }
  destruct Hsearch as [z ->]. eexists. reflexivity.
Qed.

(** *** No index out of range *)

Section NoPanic.
Context `{Host}.

Lemma namesLoop_within (mt : list (option string)) :
  forall names i a,
  i + List.length names <= List.length mt ->
  idxWithin (List.length mt) a ->
  exists a', namesLoop names i mt a = Some a' /\ idxWithin (List.length mt) a'.
Proof.
  induction names as [ | s names IH]; intros i a Hlen Ha; simpl in *.
  - now exists a.
  - destruct Ha as (HT & HM & HN).
    assert (Hi : i < List.length mt) by lia.
    destruct (String.eqb s "t");
      [apply IH; [lia | repeat split; simpl; auto; intros ? [= <-]; exact Hi] | ].
    destruct (String.eqb s "m");
      [apply IH; [lia | repeat split; simpl; auto; intros ? [= <-]; exact Hi] | ].
    destruct (String.eqb s "n");
      [apply IH; [lia | repeat split; simpl; auto; intros ? [= <-]; exact Hi] | ].
    destruct (nth_error mt i) as [b | ] eqn:Hnth;
      [ | apply nth_error_None in Hnth; lia].
    destruct (String.eqb s "u"); [apply IH; [lia | repeat split; simpl; auto] | ].
    destruct (String.eqb s "d"); [apply IH; [lia | repeat split; simpl; auto] | ].
    apply IH; [lia | repeat split; auto].
Qed.

Lemma tsNamesLoop_within (n : nat) :
  forall names i a,
  i + List.length names <= n ->
  idxWithin n a ->
  idxWithin n (tsNamesLoop names i a).
Proof.
  induction names as [ | s names IH]; intros i a Hlen Ha; simpl in *; [exact Ha | ].
  apply IH; [lia | ]. destruct Ha as (HT & HM & HN).
  destruct (String.eqb s "t"), (String.eqb s "m"), (String.eqb s "n");
    repeat split; simpl; auto; intros ? [= <-]; lia.
Qed.

Lemma decodeCaptured_within (mt : list (option string)) (a : matchIdx) :
  idxWithin (List.length mt) a ->
  decodeCaptured mt (idxT a) (idxM a) (idxN a) <> None.
Proof.
  intros (HT & HM & HN). unfold decodeCaptured.
  assert (Hnth : forall i, i < List.length mt -> exists b, nth_error mt i = Some b).
  { intros i Hi. destruct (nth_error mt i) eqn:E; [eauto | ].
    apply nth_error_None in E. lia. }
  destruct (idxM a) as [im | ].
  - destruct (Hnth im (HM _ eq_refl)) as [bm ->].
    destruct (Nat.ltb 0 (blen bm)); [discriminate | ].
    destruct (idxT a) as [it | ].
    + destruct (Hnth it (HT _ eq_refl)) as [bt ->].
      destruct (Nat.ltb 0 (blen bt)); [discriminate | ].
      destruct (idxN a) as [inn | ]; [ | discriminate].
      destruct (Hnth inn (HN _ eq_refl)) as [bn ->].
      destruct (Nat.ltb 0 (blen bn)); discriminate.
    + destruct (idxN a) as [inn | ]; [ | discriminate].
      destruct (Hnth inn (HN _ eq_refl)) as [bn ->].
      destruct (Nat.ltb 0 (blen bn)); discriminate.
  - destruct (idxT a) as [it | ].
    + destruct (Hnth it (HT _ eq_refl)) as [bt ->].
      destruct (Nat.ltb 0 (blen bt)); [discriminate | ].
      destruct (idxN a) as [inn | ]; [ | discriminate].
      destruct (Hnth inn (HN _ eq_refl)) as [bn ->].
      destruct (Nat.ltb 0 (blen bn)); discriminate.
    + destruct (idxN a) as [inn | ]; [ | discriminate].
      destruct (Hnth inn (HN _ eq_refl)) as [bn ->].
      destruct (Nat.ltb 0 (blen bn)); discriminate.
Qed.

Lemma idxWithin_none (n : nat) : idxWithin n (mkIdx None None None "" "").
Proof. repeat split; simpl; discriminate. Qed.

(** A submatch list has at least one entry per name. *)
Lemma names_within_submatches (re : Regexp) (b : string) (mt : list (option string)) :
  FindSubmatch re b = Some mt ->
  List.length (SubexpNames re) <= List.length mt.
Proof.
  intros Hmt. rewrite (FindSubmatch_length _ _ _ Hmt). unfold NumSubexp. lia.
Qed.

Lemma getMatchData_in_range (mt : list (option string)) (prefix : Regexp) :
  List.length (SubexpNames prefix) <= List.length mt ->
  getMatchData mt prefix <> None.
Proof.
  intros Hlen. unfold getMatchData.
  destruct (namesLoop_within mt (SubexpNames prefix) 0 (mkIdx None None None "" ""))
    as (a & -> & Ha); [simpl; lia | apply idxWithin_none | ].
  pose proof (decodeCaptured_within mt a Ha) as Hd.
  destruct (decodeCaptured mt (idxT a) (idxM a) (idxN a)) as [[tm e] | ];
    [discriminate | contradiction].
Qed.

Lemma firstTS_in_range (buf : string) (prefix : Regexp) :
  firstTS buf prefix <> None.
Proof.
  unfold firstTS.
  destruct (FindSubmatch prefix buf) as [mt | ] eqn:Hmt; [ | discriminate].
  apply decodeCaptured_within, tsNamesLoop_within; [ | apply idxWithin_none].
  simpl. now apply names_within_submatches with (b := buf).
Qed.

Lemma forward_no_panic (prefix : Regexp) (start : Time) :
  forall fuel bigbuf pos count c,
  pos = None \/ pos = FindIndex prefix bigbuf ->
  forward fuel prefix start bigbuf pos count c <> Panicked.
Proof.
  induction fuel as [ | fuel IH]; intros bigbuf pos count c Hpos.
  - simpl. destruct pos as [[p0 p1] | ]; [ | discriminate].
    destruct (Nat.ltb 0 (String.length bigbuf)); discriminate.
  - cbn [forward]. destruct pos as [[p0 p1] | ]; [ | discriminate].
    destruct (Nat.ltb 0 (String.length bigbuf)); [ | discriminate].
    destruct Hpos as [Hpos | Hpos]; [discriminate | ].
    symmetry in Hpos.
    destruct (FindIndex_then_FindSubmatch _ _ _ _ Hpos) as [mt Hmt]. rewrite Hmt.
    pose proof (getMatchData_in_range mt prefix
                  (names_within_submatches _ _ _ Hmt)) as Hin.
    destruct (getMatchData mt prefix) as [[[[tm usr] dbn] [e | ]] | ];
      [discriminate | | contradiction].
    destruct (FindIndex prefix (drop p1 bigbuf)) as [[q0 q1] | ] eqn:Hnext;
      destruct (negb (Before tm start));
      try destruct (splitLevel _) as [lvl ln];
      apply IH; (now left) || (right; symmetry; exact Hnext).
Qed.

Lemma seekBack_no_panic (content : string) (prefix : Regexp) (start : Time) :
  forall fuel ofs0, seekBack fuel content prefix start ofs0 <> ScanPanicked.
Proof.
  induction fuel as [ | fuel IH]; intros ofs0; [discriminate | ].
  cbn [seekBack].
  destruct (ReadFullAt content _ 4096) as [e | buf]; [discriminate | ].
  pose proof (firstTS_in_range buf prefix) as Hts.
  destruct (firstTS buf prefix) as [[ts [err | ]] | ]; [discriminate | | contradiction].
  destruct (negb (IsZero ts) && Before ts start); [discriminate | ].
  destruct (Z.eqb _ 0); [discriminate | apply IH].
Qed.

End NoPanic.

(** *** Groups lie inside the match *)

Section MatcherGroups.

Lemma capsIn_wider (lo hi hi' : nat) (caps : list (nat * (nat * nat))) :
  hi <= hi' -> capsIn lo hi caps -> capsIn lo hi' caps.
Proof.
  intros Hle Hc i a b Hin. destruct (Hc i a b Hin) as (? & ? & ?). lia.
Qed.

Lemma rep_iter_groups (f : mstate -> list mstate) (lo0 : nat) :
  (forall st y, In y (f st) -> m_pos st <= m_pos y) ->
  (forall st y, In y (f st) -> lo0 <= m_pos st ->
     capsIn lo0 (m_pos st) (m_caps st) -> capsIn lo0 (m_pos y) (m_caps y)) ->
  forall fuel lo hi st y, In y (rep_iter f fuel lo hi st) -> lo0 <= m_pos st ->
  capsIn lo0 (m_pos st) (m_caps st) -> capsIn lo0 (m_pos y) (m_caps y).
Proof.
  intros Hadv Hf. induction fuel as [ | fuel IH]; intros lo hi st y Hy Hlo Hc;
    [contradiction | ].
  simpl in Hy. apply in_app_or in Hy as [Hy | Hy].
  - assert (Hin : In y (flat_map
                          (fun st' =>
                             if Nat.eqb lo 0 && Nat.eqb (m_pos st') (m_pos st) then []
                             else rep_iter f fuel (pred lo) (option_map pred hi) st')
                          (f st)))
      by (destruct hi as [[ | h] | ]; [contradiction | exact Hy | exact Hy]).
    apply in_flat_map in Hin as (st' & Hst' & Hy').
    destruct (Nat.eqb lo 0 && Nat.eqb (m_pos st') (m_pos st)); [contradiction | ].
    pose proof (Hadv _ _ Hst'). 
    apply (IH _ _ _ _ Hy'); [lia | ]. now apply (Hf st).
  - destruct (Nat.eqb lo 0); [ | contradiction]. destruct Hy as [<- | []]. exact Hc.
Qed.

Lemma run_groups (lo0 : nat) :
  forall r st y, In y (run r st) -> lo0 <= m_pos st ->
  capsIn lo0 (m_pos st) (m_caps st) -> capsIn lo0 (m_pos y) (m_caps y).
Proof.
  induction r as [ | c | neg rs | | | a IHa b IHb | a IHa b IHb | r IHr lo hi | j r IHr];
    intros st y Hy Hlo Hc; simpl in Hy.
  - destruct Hy as [<- | []]. exact Hc.
  - unfold eat in Hy. destruct (m_rest st) as [ | e s]; [contradiction | ].
    destruct (Ascii.eqb c e); [ | contradiction]. destruct Hy as [<- | []]. simpl.
    apply (capsIn_wider _ (m_pos st)); [lia | exact Hc].
  - unfold eat in Hy. destruct (m_rest st) as [ | e s]; [contradiction | ].
    destruct (in_class neg rs e); [ | contradiction]. destruct Hy as [<- | []]. simpl.
    apply (capsIn_wider _ (m_pos st)); [lia | exact Hc].
  - destruct (Nat.eqb (m_pos st) 0); [ | contradiction]. destruct Hy as [<- | []].
    exact Hc.
  - destruct (m_rest st); [ | contradiction]. destruct Hy as [<- | []]. exact Hc.
  - apply in_flat_map in Hy as (x & Hx & Hy).
    pose proof (run_advances _ _ _ Hx).
    apply (IHb _ _ Hy); [lia | ]. now apply (IHa st).
  - apply in_app_or in Hy as [Hy | Hy]; [now apply (IHa st) | now apply (IHb st)].
  - exact (rep_iter_groups (run r) lo0 (run_advances r) IHr
             (S (lo + String.length (m_rest st))) lo hi st y Hy Hlo Hc).
  - apply in_map_iff in Hy as (x & <- & Hx). simpl.
    pose proof (run_advances _ _ _ Hx) as Hadv.
    specialize (IHr _ _ Hx Hlo Hc).
    intros i a b [E | Hin].
    + injection E as <- <- <-. lia.
    + exact (IHr i a b Hin).
Qed.

Lemma lookupCap_In (i : nat) (caps : list (nat * (nat * nat))) (a b : nat) :
  lookupCap i caps = Some (a, b) -> In (i, (a, b)) caps.
Proof.
  induction caps as [ | [j sp] caps IH]; simpl; [discriminate | ].
  destruct (Nat.eqb_spec i j) as [-> | ].
  - intros [= ->]. now left.
  - intros E. right. now apply IH.
Qed.

Lemma slice_empty (p : nat) (b : string) : slice p p b = "".
Proof. unfold slice. rewrite Nat.sub_diag. now destruct (drop p b). Qed.

(** The submatches of an empty match are all empty. *)
Lemma empty_match_empty_groups (re : Regexp) (b : string) (p : nat)
  (mt : list (option string)) :
  FindIndex re b = Some (p, p) -> FindSubmatch re b = Some mt ->
  Forall (fun o => Collector.blen o = 0) mt.
Proof.
  unfold FindIndex, FindSubmatch.
  destruct (search (expr re) 0 b) as [[q y] | ] eqn:Hs; [ | discriminate].
  intros E E'. injection E as -> Hy. injection E' as <-.
  apply search_found in Hs as (k & Hk & _ & Hin). simpl in Hk. subst k.
  apply (run_groups p) in Hin; [ | simpl; lia | intros ? ? ? []].
  rewrite Hy in *. constructor.
  - simpl. now rewrite slice_empty.
  - apply Forall_forall. intros o Ho. apply in_map_iff in Ho as (i & <- & _).
    destruct (lookupCap i (m_caps y)) as [[a z] | ] eqn:Hl; [ | reflexivity].
    apply lookupCap_In, Hin in Hl. simpl.
    replace z with a by lia. now rewrite slice_empty.
Qed.

End MatcherGroups.

(** *** When the read ends *)

Section Ending.
Context `{Host}.

Lemma decodeCaptured_empty (mt : list (option string)) (a : matchIdx) :
  idxWithin (List.length mt) a ->
  Forall (fun o => blen o = 0) mt ->
  decodeCaptured mt (idxT a) (idxM a) (idxN a) = Some (zeroTime, None).
Proof.
  intros (HT & HM & HN) Hall. unfold decodeCaptured.
  assert (Hnth : forall i, i < List.length mt ->
                 exists b, nth_error mt i = Some b /\ Nat.ltb 0 (blen b) = false).
  { intros i Hi. destruct (nth_error mt i) as [b | ] eqn:E.
    - exists b. split; [reflexivity | ].
      apply nth_error_In in E. rewrite Forall_forall in Hall.
      now rewrite (Hall b E).
    - apply nth_error_None in E. lia. }
  destruct (idxM a) as [im | ];
    [destruct (Hnth im (HM _ eq_refl)) as (bm & -> & ->) | ];
    (destruct (idxT a) as [it | ];
     [destruct (Hnth it (HT _ eq_refl)) as (bt & -> & ->) | ]);
    (destruct (idxN a) as [inn | ];
     [destruct (Hnth inn (HN _ eq_refl)) as (bn & -> & ->) | ]);
    reflexivity.
Qed.

Lemma getMatchData_empty (mt : list (option string)) (prefix : Regexp) :
  List.length (SubexpNames prefix) <= List.length mt ->
  Forall (fun o => blen o = 0) mt ->
  exists usr dbn, getMatchData mt prefix = Some (zeroTime, usr, dbn, None).
Proof.
  intros Hlen Hall. unfold getMatchData.
  destruct (namesLoop_within mt (SubexpNames prefix) 0 (mkIdx None None None "" ""))
    as (a & -> & Ha); [simpl; lia | apply idxWithin_none | ].
  rewrite (decodeCaptured_empty mt a Ha Hall). eauto.
Qed.

(** X6. The forward loop of [readLogLines] (lines 117-150) does not end
    when the prefix pattern matches the empty text at the start of a
    buffer that is not empty: the next search starts where this match
    ended, at the same place, and finds the same match.  Whatever bound
    is put on the number of rounds, the loop reaches it. *)
Theorem forward_empty_match_never_ends (prefix : Regexp) (start : Time)
  (bigbuf : string) :
  bigbuf <> "" ->
  FindIndex prefix bigbuf = Some (0, 0) ->
  forall fuel count c,
  forward fuel prefix start bigbuf (Some (0, 0)) count c = OutOfFuel.
Proof.
  intros Hbig Hfind.
  assert (Hlen : Nat.ltb 0 (String.length bigbuf) = true)
    by (destruct bigbuf; [contradiction | reflexivity]).
  destruct (FindIndex_then_FindSubmatch _ _ _ _ Hfind) as [mt Hmt].
  rewrite drop_0 in Hmt.
  destruct (getMatchData_empty mt prefix (names_within_submatches _ _ _ Hmt)
              (empty_match_empty_groups _ _ _ _ Hfind Hmt)) as (usr & dbn & Hdata).
  induction fuel as [ | fuel IH]; intros count c; cbn [forward]; rewrite Hlen;
    [reflexivity | ].
  rewrite !drop_0, Hmt, Hdata, Hfind. cbv iota beta.
  destruct (negb (Before zeroTime start)); [ | apply IH].
  destruct (splitLevel _) as [lvl ln]. apply IH.
Qed.

(** X7. With a prefix pattern that cannot match the empty text,
    [readLogLines] returns: the backward scan reaches a block to stop at
    or the top of the file, and every round of the forward loop shortens
    the buffer.  No submatch is indexed out of range on the way. *)
Theorem readLogLines_returns (fs : string -> option string) (now : Time)
  (c : collector) (filename : string) (prefix : Regexp) :
  nullable (expr prefix) = false ->
  exists c' err, readLogLines fs now c filename prefix = Returned c' err.
Proof.
  intros Hn. unfold readLogLines.
  destruct (fs filename) as [content | ]; [ | eauto].
  destruct (Z.leb_spec (Z.of_nat (String.length content)) 0) as [ | Hpos]; [eauto | ].
  set (flen := Z.of_nat (String.length content)) in *.
  pose proof (seekBack_enough_fuel content prefix (windowStart now (logSpan c))
                (Z.to_nat (flen / 4096)) (flen - 4096)) as Hfuel.
  pose proof (seekBack_no_panic content prefix (windowStart now (logSpan c))
                (S (Z.to_nat (flen / 4096))) (flen - 4096)) as Hpanic.
  destruct (seekBack _ content prefix _ _) as [ofs | err | | ];
    [ | eauto | contradiction | ].
  - set (bigbuf := drop (Z.to_nat ofs) content).
    pose proof (forward_enough_fuel prefix (windowStart now (logSpan c))
                  (fun b p0 p1 Hf =>
                     Nat.le_lt_trans _ _ _ (Nat.le_0_l p0)
                       (FindIndex_nonempty prefix b p0 p1 Hn Hf))
                  (S (String.length bigbuf)) bigbuf (FindIndex prefix bigbuf) 0 c
                  (Nat.lt_succ_diag_r _) (or_intror eq_refl)) as Hf.
    pose proof (forward_no_panic prefix (windowStart now (logSpan c))
                  (S (String.length bigbuf)) bigbuf (FindIndex prefix bigbuf) 0 c
                  (or_intror eq_refl)) as Hp.
    destruct (forward _ prefix _ bigbuf _ 0 c) as [c' err | | ];
      [eauto | contradiction | contradiction].
  - exfalso. apply Hfuel; [ | reflexivity].
    rewrite Z2Nat.id by (apply Z.div_pos; lia).
    pose proof (Z.mod_pos_bound flen 4096 ltac:(lia)).
    pose proof (Z.div_mod flen 4096 ltac:(lia)). lia.
Qed.

Lemma readLogLines_no_panic (fs : string -> option string) (now : Time)
  (c : collector) (filename : string) (prefix : Regexp) :
  readLogLines fs now c filename prefix <> Panicked.
Proof.
  unfold readLogLines.
  destruct (fs filename) as [content | ]; [ | discriminate].
  destruct (Z.leb _ 0); [discriminate | ].
  pose proof (seekBack_no_panic content prefix (windowStart now (logSpan c))
                (S (Z.to_nat (Z.of_nat (String.length content) / 4096)))
                (Z.of_nat (String.length content) - 4096)) as Hpanic.
  destruct (seekBack _ content prefix _ _) as [ofs | err | | ];
    [ | discriminate | contradiction | discriminate].
  apply forward_no_panic. now right.
Qed.

(** X8. With the pattern [compilePrefix] builds from a prefix format,
    whatever the format and the file, [readLogLines] indexes no submatch
    out of range, and so [readLog] never does: such a pattern has no
    anchor and no word boundary, so the match [FindIndex] finds in the
    buffer is found again by [FindSubmatch] at the start of the tail,
    and [getMatchData] and [firstTS] are only given submatch lists with
    one entry per name of the pattern. *)
Theorem readLog_never_panics (fs : string -> option string) (now : Time)
  (c : collector) (filename : string) :
  (forall format prefix,
      compilePrefix format = inr prefix ->
      readLogLines fs now c filename prefix <> Panicked)
  /\ readLog fs now c filename <> Panicked.
Proof.
  split.
  - intros format prefix _. apply readLogLines_no_panic.
  - unfold readLog.
    destruct (find _ (Settings (result c))) as [[k format] | ]; [ | discriminate].
    destruct (compilePrefix format) as [e | prefix]; [discriminate | ].
    pose proof (readLogLines_no_panic fs now c filename prefix) as Hp.
    destruct (readLogLines fs now c filename prefix); [discriminate | | discriminate].
    contradiction.
Qed.

End Ending.

Lemma compilePrefix_optional : compilePrefix "%q%t " = inr optionalPrefix.
Proof. vm_compute. reflexivity. Qed.

Lemma forward_empty_match_never_ends_witness :
  forward (H := exampleHost) 1000 optionalPrefix (DateUTC 2024 1 15 10 0 0 0)
    "starting up" (Some (0, 0)) 0 freshCollector = OutOfFuel.
Proof.
  apply (forward_empty_match_never_ends (H := exampleHost) optionalPrefix
           (DateUTC 2024 1 15 10 0 0 0) "starting up");
    [discriminate | vm_compute; reflexivity].
Defined.

Lemma readLogLines_returns_witness :
  nullable (expr timePrefix) = false
  /\ exists c' err,
       readLogLines (H := exampleHost) (fun _ => Some logWithoutBadStamp)
         (DateUTC 2024 1 15 10 31 0 0) freshCollector "postgresql.log" timePrefix
       = Returned c' err.
Proof.
  split; [vm_compute; reflexivity | ].
  apply (readLogLines_returns (H := exampleHost)). vm_compute; reflexivity.
Defined.

Lemma readLog_never_panics_witness :
  readLogLines (H := exampleHost) (fun _ => Some logWithBadStamp)
    (DateUTC 2024 1 15 10 31 0 0) freshCollector "postgresql.log" timePrefix
  <> Panicked.
Proof.
  exact (proj1 (readLog_never_panics (H := exampleHost)
                  (fun _ => Some logWithBadStamp) (DateUTC 2024 1 15 10 31 0 0)
                  freshCollector "postgresql.log")
           "%t " timePrefix compilePrefix_time).
Defined.

(** *** The errors of a read *)

Section ReadErrors.
Context `{Host}.

Lemma length_drop (n : nat) : forall s, String.length (drop n s) = String.length s - n.
Proof. induction n as [ | n IH]; intros [ | a s]; simpl; auto. Qed.

Lemma ReadFullAt_whole (content : string) (ofs : Z) (n : nat) (buf : string) :
  0 < n ->
  ReadFullAt content ofs n = inr buf ->
  Z.to_nat ofs + n <= String.length content.
Proof.
  intros Hn. unfold ReadFullAt.
  destruct (Nat.leb_spec n (String.length (drop (Z.to_nat ofs) content)))
    as [Hle | Hlt].
  - intros _. rewrite length_drop in Hle. lia.
  - destruct (drop (Z.to_nat ofs) content); discriminate.
Qed.

Lemma decodeCaptured_errors (mt : list (option string)) (it im inn : option nat)
  (tm : Time) (err : error) :
  decodeCaptured mt it im inn = Some (tm, Some err) -> isDecodeError err = true.
Proof.
  unfold decodeCaptured.
  repeat match goal with
         | |- context [match ?x with _ => _ end] => destruct x
         end;
    intros E; try discriminate; injection E as <- <-; reflexivity.
Qed.

Lemma seekBack_failed (content : string) (prefix : Regexp) (start : Time) :
  forall fuel ofs0 err,
  seekBack fuel content prefix start ofs0 = Failed err ->
  (exists e, err = ErrIO e)
  \/ (exists ofs buf tm,
        (0 <= ofs)%Z
        /\ ReadFullAt content ofs 4096 = inr buf
        /\ firstTS buf prefix = Some (tm, Some err)).
Proof.
  induction fuel as [ | fuel IH]; intros ofs0 err; [discriminate | ].
  cbn [seekBack].
  set (o := if (ofs0 <? 0)%Z then 0%Z else ofs0).
  assert (Ho : (0 <= o)%Z) by (subst o; destruct (Z.ltb_spec ofs0 0); lia).
  destruct (ReadFullAt content o 4096) as [e | buf] eqn:Hread.
  - intros [= <-]. left. now exists e.
  - destruct (firstTS buf prefix) as [[ts [e | ]] | ] eqn:Hts; try discriminate.
    + intros [= <-]. right. exists o, buf, ts. auto.
    + destruct (negb (IsZero ts) && Before ts start); [discriminate | ].
      destruct (Z.eqb o 0); [discriminate | ]. apply IH.
Qed.

(** X9. An error of timestamp decoding returned by [readLogLines] comes
    from the backward scan and from nowhere else: it is the error
    [firstTS] gives on a whole block of 4096 bytes read from the file
    (so the file has at least 4096 bytes), and the collector is returned
    as it was.  The forward pass never returns one. *)
Theorem readLogLines_decode_error_origin (fs : string -> option string)
  (now : Time) (c c' : collector) (filename : string) (prefix : Regexp)
  (err : error) :
  readLogLines fs now c filename prefix = Returned c' (Some err) ->
  isDecodeError err = true ->
  c' = c
  /\ exists content ofs buf tm,
       fs filename = Some content
       /\ (0 <= ofs)%Z
       /\ Z.to_nat ofs + 4096 <= String.length content
       /\ ReadFullAt content ofs 4096 = inr buf
       /\ firstTS buf prefix = Some (tm, Some err).
Proof.
  unfold readLogLines.
  destruct (fs filename) as [content | ] eqn:Hfs;
    [ | intros [= <- <-]; discriminate].
  destruct (Z.leb_spec (Z.of_nat (String.length content)) 0) as [ | Hpos];
    [discriminate | ].
  destruct (seekBack _ content prefix _ _) as [ofs | e | | ] eqn:Hscan;
    [ | | discriminate | discriminate].
  - intros Hfw. apply forward_extends in Hfw as (Hnone & _). discriminate.
  - intros [= <- <-] Hdec. split; [reflexivity | ].
    apply seekBack_failed in Hscan as [[e' ->] | (ofs & buf & tm & Hofs & Hread & Hts)];
      [discriminate | ].
    exists content, ofs, buf, tm.
    assert (Hblock : 0 < 4096) by lia.
    pose proof (ReadFullAt_whole content ofs 4096 buf Hblock Hread). auto.
Qed.

End ReadErrors.

Lemma readLogLines_decode_error_origin_witness :
  freshCollector = freshCollector
  /\ exists content ofs buf tm,
       (fun _ : string => Some (badStampLine ++ filler 4096)) "postgresql.log"
       = Some content
       /\ (0 <= ofs)%Z
       /\ Z.to_nat ofs + 4096 <= String.length content
       /\ ReadFullAt content ofs 4096 = inr buf
       /\ firstTS (H := exampleHost) buf timePrefix
          = Some (tm, Some (ErrTimeParse "2024-02-30 10:30:01 UTC")).
Proof.
  apply (readLogLines_decode_error_origin (H := exampleHost)
           (fun _ => Some (badStampLine ++ filler 4096))
           (DateUTC 2024 1 15 10 31 0 0) freshCollector freshCollector
           "postgresql.log" timePrefix (ErrTimeParse "2024-02-30 10:30:01 UTC")).
  - vm_compute. reflexivity.
  - reflexivity.
Defined.

(** *** Where the backward scan stops *)

(** X10. The backward scan of [readLogLines] (lines 72-105) moves by
    whole blocks of 4096 bytes from where it starts: it stops [k] blocks
    further up, or at the top of the file when that would be above it.
    Every block it passed over was read whole and showed no timestamp, or
    a first timestamp not before the window start; where it stops, the
    block shows a first timestamp before the window start, unless it is
    the top of the file. *)
Theorem seekBack_whole_blocks `{Host} (content : string) (prefix : Regexp)
  (start : Time) :
  forall fuel ofs0 ofs,
  seekBack fuel content prefix start ofs0 = At ofs ->
  exists k : nat,
    ofs = Z.max 0 (ofs0 - 4096 * Z.of_nat k)
    /\ (forall j : nat, j < k ->
          (0 < ofs0 - 4096 * Z.of_nat j)%Z
          /\ passedOver content prefix start (ofs0 - 4096 * Z.of_nat j))
    /\ (ofs = 0%Z \/ stopsAt content prefix start ofs).
Proof.
  induction fuel as [ | fuel IH]; intros ofs0 ofs; [discriminate | ].
  cbn [seekBack].
  set (o := if (ofs0 <? 0)%Z then 0%Z else ofs0).
  assert (Ho : o = Z.max 0 ofs0) by (subst o; destruct (Z.ltb_spec ofs0 0); lia).
  destruct (ReadFullAt content o 4096) as [e | buf] eqn:Hread; [discriminate | ].
  destruct (firstTS buf prefix) as [[ts [err | ]] | ] eqn:Hts; try discriminate.
  destruct (negb (IsZero ts) && Before ts start) eqn:Hstop.
  - intros [= <-]. exists 0. split; [lia | split; [intros j Hj; lia | ]].
    apply andb_prop in Hstop as [Hz Hb]. apply negb_true_iff in Hz.
    right. exists buf, ts. auto.
  - destruct (Z.eqb_spec o 0) as [Hzero | Hpos].
    + intros [= <-]. exists 0. split; [lia | split; [intros j Hj; lia | now left]].
    + intros E. apply IH in E as (k & Hk & Hpassed & Hwhy).
      assert (Hofs0 : o = ofs0) by lia.
      assert (Hgt : (0 < ofs0)%Z) by lia.
      clearbody o. clear Ho. subst o.
      exists (S k). split; [lia | split; [ | exact Hwhy]].
      intros [ | j] Hj.
      * replace (ofs0 - 4096 * Z.of_nat 0)%Z with ofs0 by lia.
        split; [lia | ]. exists buf, ts. repeat split; assumption.
      * replace (ofs0 - 4096 * Z.of_nat (S j))%Z
          with (ofs0 - 4096 - 4096 * Z.of_nat j)%Z by lia.
        apply Hpassed. lia.
Qed.

Lemma seekBack_whole_blocks_witness :
  exists k : nat,
    0%Z = Z.max 0 (312 - 4096 * Z.of_nat k)
    /\ (forall j : nat, j < k ->
          (0 < 312 - 4096 * Z.of_nat j)%Z
          /\ passedOver (H := exampleHost) logWithoutBadStamp timePrefix
               (DateUTC 2024 1 15 10 26 0 0) (312 - 4096 * Z.of_nat j))
    /\ (0%Z = 0%Z
        \/ stopsAt (H := exampleHost) logWithoutBadStamp timePrefix
             (DateUTC 2024 1 15 10 26 0 0) 0).
Proof.
  apply (seekBack_whole_blocks (H := exampleHost) logWithoutBadStamp timePrefix
           (DateUTC 2024 1 15 10 26 0 0) 2 312 0).
  vm_compute. reflexivity.
Defined.

(** *** The two decoders of a timestamp *)

Section TwoDecoders.
Context `{Host}.

Lemma namesLoop_tsNamesLoop (mt : list (option string)) :
  forall names i a b a',
  idxT a = idxT b -> idxM a = idxM b -> idxN a = idxN b ->
  namesLoop names i mt a = Some a' ->
  idxT a' = idxT (tsNamesLoop names i b)
  /\ idxM a' = idxM (tsNamesLoop names i b)
  /\ idxN a' = idxN (tsNamesLoop names i b).
Proof.
  induction names as [ | s names IH]; intros i a b a' HT HM HN; simpl.
  - intros [= <-]. auto.
  - destruct (String.eqb_spec s "t") as [-> | ];
      [apply IH; simpl; auto | ].
    destruct (String.eqb_spec s "m") as [-> | ];
      [apply IH; simpl; auto | ].
    destruct (String.eqb_spec s "n") as [-> | ];
      [apply IH; simpl; auto | ].
    destruct (String.eqb s "u");
      [destruct (nth_error mt i); [apply IH; simpl; auto | discriminate] | ].
    destruct (String.eqb s "d");
      [destruct (nth_error mt i); [apply IH; simpl; auto | discriminate] | ].
    apply IH; auto.
Qed.

(** X11. The backward scan and the forward pass decode the same
    timestamp: on the submatches of one match, [firstTS] (lines 329-370)
    and [getMatchData] (lines 287-327) give the same time and the same
    error. *)
Theorem firstTS_getMatchData_agree (buf : string) (prefix : Regexp)
  (mt : list (option string)) :
  FindSubmatch prefix buf = Some mt ->
  exists tm err usr dbn,
    firstTS buf prefix = Some (tm, err)
    /\ getMatchData mt prefix = Some (tm, usr, dbn, err).
Proof.
  intros Hmt. unfold firstTS, getMatchData. rewrite Hmt.
  pose proof (names_within_submatches _ _ _ Hmt) as Hlen.
  destruct (namesLoop_within mt (SubexpNames prefix) 0 (mkIdx None None None "" ""))
    as (a & Ha & Hin); [simpl; lia | apply idxWithin_none | ].
  rewrite Ha.
  destruct (namesLoop_tsNamesLoop mt _ 0 _ (mkIdx None None None "" "") a
              eq_refl eq_refl eq_refl Ha) as (<- & <- & <-).
  pose proof (decodeCaptured_within mt a Hin) as Hd.
  destruct (decodeCaptured mt (idxT a) (idxM a) (idxN a)) as [[tm err] | ];
    [ | contradiction].
  exists tm, err, (mUser a), (mDb a). split; reflexivity.
Qed.

End TwoDecoders.

Lemma firstTS_getMatchData_agree_witness :
  exists tm err usr dbn,
    firstTS (H := exampleHost) syntaxErrorLine bracketPrefix = Some (tm, err)
    /\ getMatchData (H := exampleHost)
         [Some "2024-01-15 10:30:00 UTC [alice@mydb] ";
          Some "2024-01-15 10:30:00 UTC"; Some "alice"; Some "mydb"]
         bracketPrefix
       = Some (tm, usr, dbn, err).
Proof.
  apply (firstTS_getMatchData_agree (H := exampleHost) syntaxErrorLine bracketPrefix).
  vm_compute. reflexivity.
Defined.

(** *** The text of a line *)

Section LineText.

Lemma drop_all (s : string) : drop (String.length s) s = "".
Proof. induction s; simpl; auto. Qed.

Lemma take_all (s : string) : take (String.length s) s = s.
Proof. induction s; simpl; [reflexivity | now f_equal]. Qed.

Lemma append_nil_r (s : string) : s ++ "" = s.
Proof. induction s; simpl; [reflexivity | now f_equal]. Qed.

Lemma drop_take (n : nat) : forall s, take n s ++ drop n s = s.
Proof. induction n as [ | n IH]; intros [ | a s]; simpl; auto. now rewrite IH. Qed.

Lemma length_take (n : nat) :
  forall s, n <= String.length s -> String.length (take n s) = n.
Proof.
  induction n as [ | n IH]; intros [ | a s] Hn; simpl in *; auto; try lia.
  rewrite IH; lia.
Qed.

Lemma append_inj_l (a b c : string) : a ++ c = b ++ c -> a = b.
Proof.
  revert b. induction a as [ | x a IH]; intros [ | y b] E; simpl in E.
  - reflexivity.
  - apply (f_equal String.length) in E. simpl in E. rewrite length_append in E. lia.
  - apply (f_equal String.length) in E. simpl in E. rewrite length_append in E. lia.
  - injection E as -> E. f_equal. now apply IH.
Qed.

(** X12. The forward pass removes one final newline of a line, and only
    that (lines 138-140): a line that ends in a newline loses it, a line
    that does not is kept as it is, and what is returned never lost more
    than that one byte. *)
Theorem chomp_one_newline (s : string) :
  chomp (s ++ nl) = s
  /\ ((forall s', s <> s' ++ nl) -> chomp s = s)
  /\ (chomp s = s \/ s = chomp s ++ nl).
Proof.
  assert (Hyes : forall x, chomp (x ++ nl) = x).
  { intros x. unfold chomp. rewrite length_append. simpl String.length.
    replace (String.length x + 1 - 1) with (String.length x) by lia.
    rewrite drop_append, take_append.
    replace (Nat.ltb 0 (String.length x + 1)) with true
      by (symmetry; apply Nat.ltb_lt; lia).
    now rewrite String.eqb_refl. }
  assert (Hcases : chomp s = s \/ exists x, s = x ++ nl).
  { unfold chomp.
    destruct (Nat.ltb 0 (String.length s)
              && String.eqb (drop (String.length s - 1) s) nl) eqn:E;
      [ | now left].
    right. apply andb_prop in E as [_ E]. apply String.eqb_eq in E.
    exists (take (String.length s - 1) s).
    rewrite <- E. symmetry. apply drop_take. }
  split; [apply Hyes | split].
  - intros Hno. destruct Hcases as [E | [x E]]; [exact E | ].
    now apply Hno in E.
  - destruct Hcases as [E | [x E]]; [now left | ].
    right. subst s. now rewrite Hyes.
Qed.

End LineText.

Lemma chomp_one_newline_witness :
  chomp ("deadlock detected" ++ nl) = "deadlock detected"
  /\ chomp "ab" = "ab".
Proof.
  split.
  - exact (proj1 (chomp_one_newline "deadlock detected")).
  - apply (proj1 (proj2 (chomp_one_newline "ab"))).
    intros [ | a [ | b [ | c s']]]; discriminate.
Defined.

(** *** The level of a line *)

Section LineLevel.

Lemma rxLogLevel_expr :
  expr rxLogLevel
  = Cat Bol (Cat (Grp 1 (Rep upperC 1 None)) (Cat (Lit ":") (Rep spaceC 1 None))).
Proof. vm_compute. reflexivity. Qed.

Lemma NumSubexp_rxLogLevel : NumSubexp rxLogLevel = 1.
Proof. vm_compute. reflexivity. Qed.

Lemma upper_class (c : ascii) : in_class false [("A", "Z")]%char c = isUpper c.
Proof. unfold in_class, in_range, isUpper. simpl. now rewrite orb_false_r. Qed.

Lemma search_bol_later (r : regex) :
  forall s p, 0 < p -> search (Cat Bol r) p s = None.
Proof.
  induction s as [ | c s IH]; intros p Hp; simpl;
    replace (Nat.eqb p 0) with false by (symmetry; apply Nat.eqb_neq; lia);
    simpl; [reflexivity | apply IH; lia].
Qed.

Lemma search_bol_miss (r : regex) (s : string) :
  run r (mkM 0 s []) = [] -> search (Cat Bol r) 0 s = None.
Proof.
  intros Hr. destruct s as [ | c s]; simpl; rewrite Hr; simpl; [reflexivity | ].
  apply search_bol_later. lia.
Qed.

(** X13. The level of a line (lines 141-146): a line that starts with
    upper-case letters, a colon and white space has those letters as its
    level and what follows the white space as its text. *)
Theorem splitLevel_level (lvl ws text : string) :
  lvl <> "" -> all_bytes isUpper lvl = true ->
  ws <> "" -> all_bytes isSpace ws = true ->
  startsOutside isSpace text = true ->
  splitLevel (lvl ++ ":" ++ ws ++ text) = (lvl, text).
Proof.
  intros Hlvl Hup Hws Hsp Htext.
  set (ln := lvl ++ ":" ++ ws ++ text).
  set (caps := [(1, (0, String.length lvl))]).
  assert (Hfirst : firstIs (expr rxLogLevel) (mkM 0 ln [])
                     (mkM (S (String.length lvl) + String.length ws) text caps)).
  { rewrite rxLogLevel_expr.
    apply firstIs_cat with (y := mkM 0 ln []); [now apply firstIs_bol | ].
    apply firstIs_cat with (y := mkM (String.length lvl) (":" ++ ws ++ text) caps).
    - apply (firstIs_grp 1 (Rep upperC 1 None) (mkM 0 ln [])
               (mkM (0 + String.length lvl) (":" ++ ws ++ text) [])).
      apply firstIs_rep_class.
      + reflexivity.
      + rewrite (all_bytes_ext _ isUpper) by apply upper_class. exact Hup.
      + now apply nonempty_length.
    - apply firstIs_cat with (y := mkM (S (String.length lvl)) (ws ++ text) caps).
      + apply firstIs_lit.
      + apply firstIs_rep_class; [exact Htext | exact Hsp | now apply nonempty_length]. }
  apply search_first in Hfirst.
  unfold splitLevel, FindStringSubmatch, FindSubmatch.
  rewrite Hfirst, NumSubexp_rxLogLevel. simpl.
  assert (Hm0 : slice 0 (S (String.length lvl + String.length ws)) ln
                = lvl ++ ":" ++ ws).
  { unfold slice, ln. rewrite Nat.sub_0_r, drop_0.
    replace (S (String.length lvl + String.length ws))
      with (String.length (lvl ++ ":" ++ ws))
      by (rewrite !length_append; simpl; lia).
    replace (lvl ++ ":" ++ ws ++ text) with ((lvl ++ ":" ++ ws) ++ text)
      by (now rewrite !append_assoc).
    apply take_append. }
  assert (Hm1 : slice 0 (String.length lvl) ln = lvl).
  { unfold slice, ln. rewrite Nat.sub_0_r, drop_0. apply take_append. }
  rewrite Hm0, Hm1. f_equal.
  unfold ln. replace (lvl ++ ":" ++ ws ++ text) with ((lvl ++ ":" ++ ws) ++ text)
    by (now rewrite !append_assoc).
  apply drop_append.
Qed.

(** X14. A line that does not start with an upper-case letter has no
    level, and all of it is its text. *)
Theorem splitLevel_no_level (ln : string) :
  startsOutside isUpper ln = true -> splitLevel ln = ("", ln).
Proof.
  intros Hout.
  unfold splitLevel, FindStringSubmatch, FindSubmatch.
  rewrite rxLogLevel_expr, search_bol_miss; [reflexivity | ].
  assert (Hrep : run (Rep upperC 1 None) (mkM 0 ln []) = []).
  { change ln with ("" ++ ln). unfold upperC. rewrite run_rep_class.
    - reflexivity.
    - destruct ln as [ | c ln]; [reflexivity | ]. unfold startsOutside in *.
      now rewrite upper_class.
    - reflexivity. }
  change (run (Cat (Grp 1 (Rep upperC 1 None)) (Cat (Lit ":") (Rep spaceC 1 None)))
              (mkM 0 ln []))
    with (flat_map (run (Cat (Lit ":") (Rep spaceC 1 None)))
            (map (fun st' => mkM (m_pos st') (m_rest st')
                               ((1, (0, m_pos st')) :: m_caps st'))
               (run (Rep upperC 1 None) (mkM 0 ln [])))).
  now rewrite Hrep.
Qed.

End LineLevel.

Lemma splitLevel_level_witness :
  splitLevel ("ERROR" ++ ":" ++ "  " ++ "deadlock detected")
  = ("ERROR", "deadlock detected").
Proof.
  apply (splitLevel_level "ERROR" "  " "deadlock detected");
    (discriminate || reflexivity).
Defined.

Lemma splitLevel_no_level_witness :
  splitLevel (tab ++ "Process 1 waits") = ("", tab ++ "Process 1 waits").
Proof. apply (splitLevel_no_level (tab ++ "Process 1 waits")). reflexivity. Defined.

(** *** The start of the window *)

Local Open Scope Z_scope.

(** X15. The window start is the current time less [logSpan] minutes,
    to the nanosecond, as long as the span in nanoseconds fits in 64
    bits (lines 56-57); a negative span puts it after the current time. *)
Theorem windowStart_minutes (now : Time) (span : Z) :
  - 2 ^ 63 < span * Minute < 2 ^ 63 ->
  0 <= nsec now < 1000000000 ->
  windowStart now span = mkTime (ext now - 60 * span) (nsec now).
Proof.
  intros Hspan Hns. unfold windowStart, Minute in *.
  assert (Hwrap : forall z, - 2 ^ 63 <= z < 2 ^ 63 -> wrap64 z = z).
  { intros z Hz. unfold wrap64.
    rewrite Z.mod_small by lia. lia. }
  rewrite (Hwrap span) by lia.
  rewrite (Hwrap (span * (60 * 1000000000))) by lia.
  rewrite (Hwrap (- (span * (60 * 1000000000)))) by lia.
  unfold Add.
  replace (- (span * (60 * 1000000000))) with ((- 60 * span) * 1000000000) by ring.
  rewrite Z.quot_mul, Z.rem_mul by lia.
  rewrite Z.add_0_r.
  replace (1000000000 <=? nsec now) with false by (symmetry; apply Z.leb_gt; lia).
  replace (nsec now <? 0) with false by (symmetry; apply Z.ltb_ge; lia).
  f_equal. lia.
Qed.

Lemma windowStart_minutes_witness :
  windowStart (DateUTC 2024 1 15 10 31 0 0) 5 = DateUTC 2024 1 15 10 26 0 0.
Proof.
  rewrite (windowStart_minutes (DateUTC 2024 1 15 10 31 0 0) 5);
    [reflexivity | vm_compute; split; reflexivity | vm_compute; split; [discriminate | reflexivity]].
Defined.

Local Close Scope Z_scope.

(** *** Lines before the window *)

(** X16. Lines whose timestamp is before the window start leave no
    trace: when every line the forward pass delimits in the buffer is
    before the start, the pass returns the collector as it was. *)
Theorem lines_before_window_ignored `{Host} (prefix : Regexp) (start : Time) :
  forall fuel bigbuf base pos c c' err,
  Forall (fun l => Before (snd l) start = true)
         (linesOf fuel prefix bigbuf base pos) ->
  forward fuel prefix start bigbuf pos 0 c = Returned c' err ->
  c' = c /\ err = None.
Proof.
  induction fuel as [ | fuel IH]; intros bigbuf base pos c c' err Hall.
  - simpl. destruct pos as [[p0 p1] | ]; [ | now intros [= <- <-]].
    destruct (Nat.ltb 0 (String.length bigbuf)); [discriminate | now intros [= <- <-]].
  - cbn [forward]. destruct pos as [[p0 p1] | ]; [ | now intros [= <- <-]].
    destruct (Nat.ltb 0 (String.length bigbuf)); [ | now intros [= <- <-]].
    cbn [linesOf] in Hall.
    destruct (FindSubmatch prefix (drop p0 bigbuf)) as [mt | ]; [ | discriminate].
    destruct (getMatchData mt prefix) as [[[[tm usr] dbn] [e | ]] | ];
      [now intros [= <- <-] | | discriminate].
    inversion Hall as [ | l ls Hbefore Hrest]; subst. simpl in Hbefore.
    rewrite Hbefore. cbn [negb].
    destruct (FindIndex prefix (drop p1 bigbuf)) as [[q0 q1] | ].
    + apply (IH _ (base + p1)). exact Hrest.
    + destruct fuel; now intros [= <- <-].
Qed.

Lemma lines_before_window_ignored_witness :
  freshCollector = freshCollector /\ @None error = None.
Proof.
  apply (lines_before_window_ignored (H := exampleHost) timePrefix
           (DateUTC 2024 1 15 11 0 0 0) 10 (deadlockA ++ checkpointLine) 0
           (FindIndex timePrefix (deadlockA ++ checkpointLine))
           freshCollector freshCollector None).
  - apply Forall_forall.
    apply (forallb_forall
             (fun l => Before (snd l) (DateUTC 2024 1 15 11 0 0 0))).
    vm_compute. reflexivity.
  - vm_compute. reflexivity.
Defined.

(** *** The text of a plan *)

Section TextPlan.

Lemma joinLines_app (a b : list string) :
  joinLines (a ++ b) = joinLines a ++ joinLines b.
Proof.
  induction a as [ | l a IH]; simpl; [reflexivity | ].
  now rewrite IH, !append_assoc.
Qed.

Lemma textLoop_skip (ls rest : list string) (q pl : string) :
  Forall plainLine ls ->
  textLoop (ls ++ rest) q pl ToNil = textLoop rest q pl ToNil.
Proof.
  induction 1 as [ | l ls [Hq Hc] _ IH]; simpl; [reflexivity | ].
  unfold noQueryLine in *. now rewrite Hq, Hc.
Qed.

Lemma textLoop_query (ls rest : list string) (pl : string) :
  Forall plainLine ls ->
  forall q, textLoop (ls ++ rest) q pl ToQuery
            = textLoop rest (q ++ joinLines ls) pl ToQuery.
Proof.
  induction 1 as [ | l ls [Hq Hc] _ IH]; intros q; simpl.
  - now rewrite append_nil_r.
  - rewrite Hq, Hc, IH. now rewrite !append_assoc.
Qed.

Lemma textLoop_plan (ls : list string) (q : string) :
  Forall noQueryLine ls ->
  forall pl, textLoop ls q pl ToPlan = (q, pl ++ joinLines ls).
Proof.
  induction 1 as [ | l ls Hq _ IH]; intros pl; simpl.
  - now rewrite append_nil_r.
  - unfold noQueryLine in Hq. rewrite Hq.
    destruct (MatchString rxAESwitch2 l); rewrite IH; now rewrite !append_assoc.
Qed.


End TextPlan.


(** *** The entry point *)

(** X18. [readLog] reports no error to its caller and never takes a
    fact back.  It changes the collector only by a read of the file
    with the pattern compiled from the setting [log_line_prefix]: when
    the setting is missing, has no timestamp directive, does not compile
    or the read fails, the collector is returned as it was. *)
Theorem readLog_drops_errors `{Host} (fs : string -> option string) (now : Time)
  (c c' : collector) (filename : string) (err : option error) :
  readLog fs now c filename = Returned c' err ->
  err = None
  /\ logSpan c' = logSpan c
  /\ extends (result c) (result c')
  /\ (c' = c
      \/ exists prefix re,
           prefixSetting c = Some prefix
           /\ hasTimestampDirective prefix = true
           /\ compilePrefix prefix = inr re
           /\ readLogLines fs now c filename re = Returned c' None).
Proof.
  unfold readLog, prefixSetting.
  assert (Hsame : Returned c None = Returned c' err ->
            err = None /\ logSpan c' = logSpan c /\ extends (result c) (result c')
            /\ (c' = c
                \/ exists prefix re,
                     option_map snd
                       (find (fun kv => String.eqb (fst kv) "log_line_prefix")
                          (Settings (result c))) = Some prefix
                     /\ hasTimestampDirective prefix = true
                     /\ compilePrefix prefix = inr re
                     /\ readLogLines fs now c filename re = Returned c' None)).
  { intros [= <- <-].
    exact (conj eq_refl (conj eq_refl (conj (extends_refl _) (or_introl eq_refl)))). }
  destruct (find _ (Settings (result c))) as [[k prefix] | ]; [ | exact Hsame].
  destruct (compilePrefix prefix) as [e | re] eqn:Hre; [exact Hsame | ].
  assert (Hts : hasTimestampDirective prefix = true).
  { pose proof (compilePrefixLoop_ts (String.length prefix) prefix false false ""
                  (le_n _)) as Hts.
    unfold compilePrefix in Hre.
    destruct (compilePrefixLoop prefix false false "") as [[ts hasq] r].
    simpl in Hts. subst ts.
    destruct (hasTimestampDirective prefix); [reflexivity | discriminate]. }
  destruct (readLogLines fs now c filename re) as [c1 e1 | | ] eqn:Hread;
    [ | discriminate | discriminate].
  intros [= <- <-].
  destruct (readLogLines_effect fs now c c1 filename re e1 Hread)
    as [[He ->] | (-> & Hspan & Hext)].
  - exact (conj eq_refl (conj eq_refl (conj (extends_refl _) (or_introl eq_refl)))).
  - refine (conj eq_refl (conj Hspan (conj Hext (or_intror _)))).
    exists prefix, re. simpl. auto.
Qed.

Lemma readLog_drops_errors_witness :
  extends
    (mkModel [("log_line_prefix", "%t ")] [] [] [])
    (mkModel [("log_line_prefix", "%t ")] [] []
       [mkDeadlock 1705314600
          ("Process 1 waits for ShareLock on transaction 2." ++ nl);
        mkDeadlock 1705314602
          ("Process 7 waits for ShareLock on transaction 8." ++ nl)]).
Proof.
  refine (proj1 (proj2 (proj2 (readLog_drops_errors (H := exampleHost)
            (fun _ => Some logWithoutBadStamp) (DateUTC 2024 1 15 10 31 0 0)
            (mkCollector 5 emptyEntry
               (mkModel [("log_line_prefix", "%t ")] [] [] []))
            (mkCollector 5
               (mkEntry (DateUTC 2024 1 15 10 30 3 0) "" "" "LOG"
                  "checkpoint complete" [])
               (mkModel [("log_line_prefix", "%t ")] [] []
                  [mkDeadlock 1705314600
                     ("Process 1 waits for ShareLock on transaction 2." ++ nl);
                   mkDeadlock 1705314602
                     ("Process 7 waits for ShareLock on transaction 8." ++ nl)]))
            "postgresql.log" None _)))).
  vm_compute. reflexivity.
Defined.

(** *** A percent sign at the end of the format *)

Lemma compilePrefixLoop_trailing_percent (n : nat) :
  forall prefix ts hasq r, String.length prefix <= n ->
  complete prefix = true ->
  compilePrefixLoop (prefix ++ "%") ts hasq r = compilePrefixLoop prefix ts hasq r.
Proof.
  induction n as [ | n IH]; intros prefix ts hasq r Hlen Hc.
  - destruct prefix; [reflexivity | simpl in Hlen; lia].
  - destruct prefix as [ | c rest]; [reflexivity | ].
    simpl in Hlen, Hc. cbn [append compilePrefixLoop].
    destruct (Ascii.eqb c "%"); cbn [negb].
    + destruct rest as [ | d rest']; [discriminate | ].
      simpl in Hlen. cbn [append].
      destruct (Ascii.eqb d "t"); [apply IH; [lia | exact Hc] | ].
      destruct (Ascii.eqb d "m"); [apply IH; [lia | exact Hc] | ].
      destruct (Ascii.eqb d "n"); [apply IH; [lia | exact Hc] | ].
      destruct (Ascii.eqb d "s"); [apply IH; [lia | exact Hc] | ].
      destruct (Ascii.eqb d "u"); [apply IH; [lia | exact Hc] | ].
      destruct (Ascii.eqb d "d"); [apply IH; [lia | exact Hc] | ].
      destruct (Ascii.eqb d "q"); apply IH; (lia || exact Hc).
    + apply IH; [lia | exact Hc].
Qed.

(** X19. A percent sign left alone at the end of the format is dropped
    (lines 380-382): the format with it compiles to what the format
    without it compiles to, pattern or error. *)
Theorem compilePrefix_trailing_percent (prefix : string) :
  complete prefix = true ->
  compilePrefix (prefix ++ "%") = compilePrefix prefix.
Proof.
  intros Hc. unfold compilePrefix.
  now rewrite (compilePrefixLoop_trailing_percent (String.length prefix) prefix
                 false false "" (le_n _) Hc).
Qed.

Lemma compilePrefix_trailing_percent_witness :
  compilePrefix ("%t [%u@%d] " ++ "%") = compilePrefix "%t [%u@%d] ".
Proof.
  apply (compilePrefix_trailing_percent "%t [%u@%d] "). reflexivity.
Defined.

(** *** Captured plans by the line after the signature *)

Section PlainEntry.

Lemma firstIs_cls (neg : bool) (rs : list range) (c : ascii) (p : nat) (s : string)
  (caps : list (nat * (nat * nat))) :
  in_class neg rs c = true ->
  firstIs (Cls neg rs) (mkM p (String c s) caps) (mkM (S p) s caps).
Proof.
  intros Hc. unfold firstIs. simpl. rewrite eat_hit by exact Hc. now exists [].
Qed.

Lemma firstIs_eol (p : nat) (caps : list (nat * (nat * nat))) :
  firstIs Eol (mkM p "" caps) (mkM p "" caps).
Proof. unfold firstIs. simpl. now exists []. Qed.

Lemma notQuote_class (c : ascii) : in_class true [("034", "034")]%char c = notQuote c.
Proof.
  unfold in_class, in_range, notQuote. simpl.
  now rewrite byte_le_antisym, orb_false_r.
Qed.

Lemma space_class_blank (c : ascii) : isBlank c = true -> in_class false space_rs c = true.
Proof.
  unfold isBlank. intros Hc. apply orb_prop in Hc as [Hc | Hc];
    apply Ascii.eqb_eq in Hc; subst c; reflexivity.
Qed.

Lemma lits_app (a b : string) (r : regex) : lits (a ++ b) r = lits a (lits b r).
Proof. induction a as [ | c a IH]; simpl; [reflexivity | now rewrite IH]. Qed.

End PlainEntry.

Section PlainQueryEntry.

Variables d1 d2 ws q rest : string.
Hypothesis d1_digits : all_bytes isDigit d1 = true.
Hypothesis d1_nonempty : d1 <> "".
Hypothesis d2_digits : all_bytes isDigit d2 = true.
Hypothesis d2_nonempty : d2 <> "".
Hypothesis ws_blank : all_bytes isBlank ws = true.
Hypothesis ws_nonempty : ws <> "".
Hypothesis q_unquoted : unquoted q = true.
Hypothesis q_line : all_bytes notNewline q = true.

(** The unquoted line: a first byte that is no quote, the rest of the
    line, the newline. *)
Lemma firstIs_plain_line (p : nat) (caps : list (nat * (nat * nat))) :
  firstIs (Cat notQuoteC (Cat (Rep dotC 0 None) (Lit "010")))
    (mkM p (q ++ nl ++ rest) caps)
    (mkM (S (p + String.length q)) rest caps).
Proof.
  destruct q as [ | c q'] eqn:Hq; [discriminate | ].
  simpl in q_unquoted, q_line. apply andb_prop in q_line as [_ Hq'].
  change (String c q' ++ nl ++ rest) with (String c (q' ++ nl ++ rest)).
  eapply firstIs_cat.
  { apply firstIs_cls. now rewrite notQuote_class. }
  eapply firstIs_cat.
  { apply firstIs_rep_class; [reflexivity | | apply Nat.le_0_l].
    rewrite (all_bytes_ext _ notNewline) by apply dot_class. exact Hq'. }
  replace (S (p + String.length (String c q'))) with (S (S p + String.length q'))
    by (simpl; lia).
  apply firstIs_lit.
Qed.

Lemma grpQuoted_miss (p : nat) (caps : list (nat * (nat * nat))) :
  run grpQuoted (mkM p (plainQueryLine q ++ rest) caps) = [].
Proof.
  destruct q as [ | c q'] eqn:Hq; [discriminate | ].
  simpl in q_unquoted. unfold notQuote in q_unquoted.
  apply negb_true_iff in q_unquoted.
  unfold grpQuoted, plainQueryLine. cbn [run].
  rewrite lits_app, !append_assoc, run_lits.
  change (String c q' ++ nl ++ rest) with (String c (q' ++ nl ++ rest)).
  change dq with (String "034" "").
  rewrite run_lits_miss; [reflexivity | ].
  now rewrite Ascii.eqb_sym.
Qed.

(** The start pattern on such an entry: the JSON, XML and quoted-line
    groups are passed over, the fourth group takes the unquoted line. *)
Lemma firstIs_through_plain :
  firstIs (expr rxAEStart)
    (mkM 0 (signatureText d1 d2 ws ++ plainQueryLine q ++ rest) [])
    (mkM (String.length (signatureText d1 d2 ws)
          + String.length (plainQueryLine q))
         rest
         [(4, (String.length (signatureText d1 d2 ws),
               String.length (signatureText d1 d2 ws)
               + String.length (plainQueryLine q)))]).
Proof.
  rewrite rxAEStart_expr.
  set (start := String.length (signatureText d1 d2 ws)).
  assert (Hstart : start = 10 + String.length d1 + 1 + String.length d2 + 11
                           + String.length ws).
  { unfold start, signatureText. rewrite !length_append. simpl String.length. lia. }
  unfold signatureText. rewrite !append_assoc.
  eapply firstIs_cat; [apply firstIs_bol; reflexivity | ].
  apply firstIs_lits.
  eapply firstIs_cat.
  { apply firstIs_rep_class; [reflexivity | | now apply nonempty_length].
    rewrite (all_bytes_ext _ isDigit) by apply digit_class. exact d1_digits. }
  eapply firstIs_cat; [apply firstIs_lit | ].
  eapply firstIs_cat.
  { apply firstIs_rep_class; [reflexivity | | now apply nonempty_length].
    rewrite (all_bytes_ext _ isDigit) by apply digit_class. exact d2_digits. }
  apply (firstIs_lits (" ms  plan:" ++ nl)).
  eapply firstIs_cat.
  { apply firstIs_rep_class; [reflexivity | | now apply nonempty_length].
    rewrite (all_bytes_ext _ isBlank) by apply blank_class. exact ws_blank. }
  unfold afterBlanks.
  eapply firstIs_cat; [apply firstIs_opt_miss; reflexivity | ].
  eapply firstIs_cat; [apply firstIs_opt_miss; reflexivity | ].
  eapply firstIs_cat; [apply firstIs_opt_miss; apply grpQuoted_miss | ].
  match goal with
  | |- firstIs _ ?st _ =>
      replace st with (mkM start (plainQueryLine q ++ rest) [])
        by (f_equal; simpl String.length; lia)
  end.
  replace (mkM (start + String.length (plainQueryLine q)) rest
             [(4, (start, start + String.length (plainQueryLine q)))])
    with (let y := mkM (S (start + 12 + String.length q)) rest [] in
          mkM (m_pos y) (m_rest y)
            ((4, (m_pos (mkM start (plainQueryLine q ++ rest) []), m_pos y))
             :: m_caps y)).
  - apply firstIs_opt_hit.
    + apply firstIs_grp. unfold plainQueryLine. rewrite !append_assoc.
      apply firstIs_lits. apply firstIs_plain_line.
    + cbv zeta. cbn [m_pos]. lia.
    + unfold plainQueryLine. discriminate.
  - cbv zeta. cbn [m_pos m_rest m_caps].
    assert (Hlen : String.length (plainQueryLine q) = S (12 + String.length q)).
    { unfold plainQueryLine. rewrite !length_append. simpl String.length. lia. }
    rewrite Hlen. f_equal; [lia | ]. f_equal. f_equal. f_equal. lia.
Qed.

Lemma rxAEStart_plain :
  exists sm,
    FindStringSubmatch rxAEStart
      (signatureText d1 d2 ws ++ plainQueryLine q ++ rest) = Some sm
    /\ nth 1 sm "" = "" /\ nth 2 sm "" = "" /\ nth 3 sm "" = ""
    /\ nth 4 sm "" = plainQueryLine q.
Proof.
  pose proof firstIs_through_plain as Hfirst.
  apply search_first in Hfirst.
  unfold FindStringSubmatch, FindSubmatch.
  rewrite Hfirst, NumSubexp_rxAEStart.
  eexists. split; [reflexivity | ].
  cbn [seq map nth option_map m_caps lookupCap Nat.eqb].
  repeat split. apply slice_middle.
Qed.

End PlainQueryEntry.

Section EntryLines.

Lemma all_bytes_impl (P Q : ascii -> bool) (s : string) :
  (forall c, P c = true -> Q c = true) ->
  all_bytes P s = true -> all_bytes Q s = true.
Proof.
  intros HPQ. induction s as [ | c s IH]; simpl; [reflexivity | ].
  intros Hs. apply andb_prop in Hs as [Hc Hs]. now rewrite (HPQ c Hc), IH.
Qed.

Lemma Split1_last (a : string) :
  all_bytes notNewline a = true -> Split1 "010" a = (a, []).
Proof.
  induction a as [ | c a IH]; simpl; [reflexivity | ].
  intros Ha. apply andb_prop in Ha as [Hc Ha].
  unfold notNewline in Hc. apply negb_true_iff in Hc.
  now rewrite (IH Ha), Hc.
Qed.

Lemma Split1_line (a b : string) :
  all_bytes notNewline a = true ->
  Split1 "010" (a ++ String "010" b)
  = (a, fst (Split1 "010" b) :: snd (Split1 "010" b)).
Proof.
  induction a as [ | c a IH]; simpl.
  - intros _. now destruct (Split1 "010" b).
  - intros Ha. apply andb_prop in Ha as [Hc Ha].
    unfold notNewline in Hc. apply negb_true_iff in Hc.
    now rewrite (IH Ha), Hc.
Qed.

(** Lines without a newline, joined by newlines, are split into
    themselves. *)
Lemma Split_sepLines (ls : list string) :
  ls <> [] ->
  Forall (fun l => all_bytes notNewline l = true) ls ->
  Split (sepLines ls) "010" = ls.
Proof.
  intros Hne Hall. unfold Split.
  assert (Hgen : Split1 "010" (sepLines ls)
                 = (hd "" ls, tl ls)).
  { induction Hall as [ | l [ | l' rest] Hl Hrest IH]; [contradiction | | ].
    - simpl. now apply Split1_last.
    - change (sepLines (l :: l' :: rest))
        with (l ++ String "010" (sepLines (l' :: rest))).
      rewrite Split1_line by exact Hl.
      rewrite IH by discriminate. reflexivity. }
  rewrite Hgen. destruct ls; [contradiction | reflexivity].
Qed.

Lemma digit_notNewline (c : ascii) : isDigit c = true -> notNewline c = true.
Proof.
  intros Hd. unfold notNewline.
  destruct (Ascii.eqb_spec c "010") as [-> | ]; [discriminate | reflexivity].
Qed.

Lemma blank_notNewline (c : ascii) : isBlank c = true -> notNewline c = true.
Proof.
  intros Hb. unfold notNewline.
  destruct (Ascii.eqb_spec c "010") as [-> | ]; [discriminate | reflexivity].
Qed.

Lemma digit_notLetterC (c : ascii) : isDigit c = true -> notLetterC c = true.
Proof.
  intros Hd. unfold notLetterC.
  destruct (Ascii.eqb_spec "c" c) as [<- | ]; [discriminate | reflexivity].
Qed.

Lemma signatureLine_line (d1 d2 : string) :
  all_bytes isDigit d1 = true -> all_bytes isDigit d2 = true ->
  all_bytes notNewline (signatureLine d1 d2) = true.
Proof.
  intros H1 H2. unfold signatureLine.
  rewrite !all_bytes_app.
  rewrite (all_bytes_impl _ _ d1 digit_notNewline H1).
  rewrite (all_bytes_impl _ _ d2 digit_notNewline H2). reflexivity.
Qed.

Lemma signatureLine_no_c (d1 d2 : string) :
  all_bytes isDigit d1 = true -> all_bytes isDigit d2 = true ->
  all_bytes notLetterC (signatureLine d1 d2) = true.
Proof.
  intros H1 H2. unfold signatureLine.
  rewrite !all_bytes_app.
  rewrite (all_bytes_impl _ _ d1 digit_notLetterC H1).
  rewrite (all_bytes_impl _ _ d2 digit_notLetterC H2). reflexivity.
Qed.

Lemma search_lit_absent (c : ascii) (r : regex) :
  forall s p,
  all_bytes (fun x => negb (Ascii.eqb c x)) s = true ->
  search (Cat (Lit c) r) p s = None.
Proof.
  induction s as [ | d s IH]; intros p Hs; [reflexivity | ].
  simpl in Hs. apply andb_prop in Hs as [Hd Hs]. apply negb_true_iff in Hd.
  cbn [search run]. rewrite eat_miss by (simpl; now rewrite Hd).
  cbn [flat_map]. now apply IH.
Qed.

Lemma rxAESwitch1_expr :
  expr rxAESwitch1
  = Cat Bol
      (Cat (Rep spaceC 1 None)
         (lits "Query Text: " (Cat (Grp 1 (Rep dotC 0 None)) Eol))).
Proof. vm_compute. reflexivity. Qed.

Lemma NumSubexp_rxAESwitch1 : NumSubexp rxAESwitch1 = 1.
Proof. vm_compute. reflexivity. Qed.

Lemma rxAESwitch2_starts_with_c :
  exists r, expr rxAESwitch2 = Cat (Lit "c") r.
Proof. eexists. vm_compute. reflexivity. Qed.

(** The first line of the entry is no query line and has no costs. *)
Lemma signatureLine_plain (d1 d2 : string) :
  all_bytes isDigit d1 = true -> all_bytes isDigit d2 = true ->
  plainLine (signatureLine d1 d2).
Proof.
  intros H1 H2. split.
  - unfold FindStringSubmatch, FindSubmatch.
    rewrite rxAESwitch1_expr, search_bol_miss; [reflexivity | ].
    cbn [run].
    replace (run (Rep spaceC 1 None) (mkM 0 (signatureLine d1 d2) [])) with (@nil mstate);
      [reflexivity | ].
    symmetry. change (signatureLine d1 d2) with ("" ++ signatureLine d1 d2).
    unfold spaceC. rewrite run_rep_class; reflexivity.
  - unfold MatchString. destruct rxAESwitch2_starts_with_c as [r ->].
    rewrite search_lit_absent; [reflexivity | ].
    exact (signatureLine_no_c d1 d2 H1 H2).
Qed.

(** The query line of the entry, as the line scan sees it. *)
Lemma rxAESwitch1_query_line (ws q : string) :
  all_bytes isBlank ws = true -> ws <> "" ->
  all_bytes notNewline q = true ->
  FindStringSubmatch rxAESwitch1 (ws ++ "Query Text: " ++ q)
  = Some [ws ++ "Query Text: " ++ q; q].
Proof.
  intros Hws Hne Hq.
  set (caps := [(1, (String.length ws + 12, String.length ws + 12 + String.length q))]).
  assert (Hfirst : firstIs (expr rxAESwitch1)
                     (mkM 0 (ws ++ "Query Text: " ++ q ++ "") [])
                     (mkM (String.length ws + 12 + String.length q) "" caps)).
  { rewrite rxAESwitch1_expr.
    eapply firstIs_cat; [apply firstIs_bol; reflexivity | ].
    eapply firstIs_cat.
    { unfold spaceC. apply firstIs_rep_class;
        [reflexivity | | now apply nonempty_length].
      exact (all_bytes_impl _ _ ws space_class_blank Hws). }
    apply firstIs_lits.
    eapply firstIs_cat; [ | apply firstIs_eol].
    apply (firstIs_grp 1 (Rep dotC 0 None)
             (mkM (0 + String.length ws + 12) (q ++ "") [])
             (mkM (0 + String.length ws + 12 + String.length q) "" [])).
    apply firstIs_rep_class; [reflexivity | | apply Nat.le_0_l].
    rewrite (all_bytes_ext _ notNewline) by apply dot_class. exact Hq. }
  rewrite append_nil_r in Hfirst.
  apply search_first in Hfirst.
  unfold FindStringSubmatch, FindSubmatch.
  rewrite Hfirst, NumSubexp_rxAESwitch1.
  cbn [seq map option_map m_pos m_caps caps lookupCap Nat.eqb].
  f_equal. f_equal.
  - unfold slice. rewrite Nat.sub_0_r, drop_0.
    replace (String.length ws + 12 + String.length q)
      with (String.length (ws ++ "Query Text: " ++ q))
      by (rewrite !length_append; simpl; lia).
    apply take_all.
  - f_equal.
    replace (ws ++ "Query Text: " ++ q)
      with ((ws ++ "Query Text: ") ++ q ++ "")
      by (now rewrite append_nil_r, append_assoc).
    replace (String.length ws + 12) with (String.length (ws ++ "Query Text: "))
      by (rewrite length_append; simpl; lia).
    apply slice_middle.
Qed.

End EntryLines.

Lemma plainEntryText_lines (d1 d2 ws q : string) (ls : list string) :
  ls <> [] ->
  plainEntryText d1 d2 ws q ls
  = sepLines (signatureLine d1 d2 :: (ws ++ "Query Text: " ++ q) :: ls).
Proof.
  intros Hne. destruct ls as [ | l ls]; [contradiction | ].
  unfold plainEntryText, signatureText, signatureLine, plainQueryLine.
  change (sepLines (?a :: ?b :: l :: ls))
    with (a ++ nl ++ b ++ nl ++ sepLines (l :: ls)).
  now rewrite !append_assoc.
Qed.



